(** * Invenio-Circulation: the loan transition engine

    A shallow embedding of [invenio_circulation] (config.py, utils.py,
    transitions/transitions.py, ext.py) and the properties of its
    specification.

    Python objects are modelled as follows.
    - A loan is a [dict]: a finite map from field names to Python values.
      The loan is passed by reference and mutated in place, also by a guard
      that raises afterwards: every operation on it is a computation in the
      monad [M], which threads the loan and carries the raised exception.
    - Exceptions are identified by their class; their message text is not
      modelled, and neither is the debug log of the engine.
    - [datetime] and [timedelta] are counted in microseconds.
    - The semantics is that of Python 3, run with assertions enabled.

    The modules errors.py, transitions/base.py, transitions/conditions.py
    and api.py are not among the sources: what the embedded code and the
    properties need from them is modelled from the specification, and marked
    as such. *)

From Stdlib Require Import ZArith Lia Ascii String.
From stdpp Require Import gmap strings list fin_maps.

Open Scope string_scope.
Open Scope list_scope.

(** Closed goals are settled by running the definitions. *)
Ltac by_running := vm_compute; reflexivity.

(** ** Python values *)

(** A [datetime]: the wall-clock time in microseconds since
    0001-01-01T00:00:00, and the UTC offset (in microseconds) of an aware
    value, [None] for a naive one. *)
Record datetime := mk_datetime { wall : Z; utcoffset : option Z }.

Inductive value :=
| VNone
| VBool (b : bool)
| VInt (n : Z)
| VStr (s : string)
| VDate (d : datetime).

#[global] Instance datetime_eq_dec : EqDecision datetime.
Proof. solve_decision. Defined.

#[global] Instance value_eq_dec : EqDecision value.
Proof. solve_decision. Defined.

(** The exception classes that the modelled code raises or lets through.
    [TransitionValidationFailed] is the class named by the [except] clause
    of [_Circulation.trigger]; [OtherError] stands for any other class that
    a policy function may raise. *)
Inductive exn :=
| InvalidState
| NoValidTransitionAvailable
| TransitionValidationFailed
| TransitionConditionsFailed
| TransitionConstraintsViolation
| TransitionPoliciesViolation
| AssertionError
| NameError
| KeyError
| TypeError
| ValueError
| AttributeError
| OverflowError
| OtherError (name : string).

#[global] Instance exn_eq_dec : EqDecision exn.
Proof. solve_decision. Defined.

(** The result of a pure Python expression: a value or a raised exception. *)
Definition res (A : Type) : Type := exn + A.

Definition res_bind {A B} (r : res A) (k : A -> res B) : res B :=
  match r with
  | inl e => inl e
  | inr a => k a
  end.

(** Truth value of an object, as [not x] and [if x] test it. *)
Definition truthy (v : value) : bool :=
  match v with
  | VNone => false
  | VBool b => b
  | VInt n => negb (n =? 0)%Z
  | VStr s => negb (String.eqb s "")
  | VDate _ => true
  end.

(** The number that a [bool] or an [int] stands for. *)
Definition as_int (v : value) : option Z :=
  match v with
  | VBool b => Some (if b then 1 else 0)%Z
  | VInt n => Some n
  | _ => None
  end.

Definition utc (d : datetime) : Z :=
  match utcoffset d with
  | Some off => (wall d - off)%Z
  | None => wall d
  end.

(** [a == b]. Naive and aware datetimes are never equal. *)
Definition py_eq (a b : value) : bool :=
  match a, b with
  | VNone, VNone => true
  | VStr s, VStr t => String.eqb s t
  | VDate d, VDate d' =>
      match utcoffset d, utcoffset d' with
      | None, None | Some _, Some _ => (utc d =? utc d')%Z
      | _, _ => false
      end
  | _, _ =>
      match as_int a, as_int b with
      | Some m, Some n => (m =? n)%Z
      | _, _ => false
      end
  end.

Definition usec_per_day : Z := 86400000000.

(** [datetime.min] is 0001-01-01T00:00:00 and [datetime.max] is
    9999-12-31T23:59:59.999999, day 3652059 of the calendar. *)
Definition max_wall : Z := 3652059 * usec_per_day - 1.

(** [timedelta(days=n)], in microseconds. *)
Definition timedelta_days (n : value) : res Z :=
  match as_int n with
  | Some k =>
      if ((-999999999 <=? k) && (k <=? 999999999))%Z
      then inr (k * usec_per_day)%Z
      else inl OverflowError
  | None => inl TypeError
  end.

(** [a + delta] for a timedelta [delta]: only a datetime can be shifted. *)
Definition py_add_timedelta (a : value) (delta : Z) : res value :=
  match a with
  | VDate d =>
      let w := (wall d + delta)%Z in
      if ((0 <=? w) && (w <=? max_wall))%Z
      then inr (VDate (mk_datetime w (utcoffset d)))
      else inl OverflowError
  | _ => inl TypeError
  end.

(** The two datetimes of a comparison or a difference, brought to a common
    time line; mixing a naive and an aware one is a [TypeError]. *)
Definition common_line (a b : value) : res (Z * Z) :=
  match a, b with
  | VDate d, VDate d' =>
      match utcoffset d, utcoffset d' with
      | None, None | Some _, Some _ => inr (utc d, utc d')
      | _, _ => inl TypeError
      end
  | _, _ => inl TypeError
  end.

(** [a < b], as [_ensure_valid_loan] applies it to two parsed dates. *)
Definition py_lt (a b : value) : res bool :=
  res_bind (common_line a b) (fun p => inr (fst p <? snd p)%Z).

(** [a - b] for two datetimes: a timedelta in microseconds. *)
Definition py_sub (a b : value) : res Z :=
  res_bind (common_line a b) (fun p => inr (fst p - snd p)%Z).

(** ** Date strings

    A writer and a reader for the ISO 8601 texts of the test-suite
    ([2018-02-01T09:30:00+02:00]): they stand for [datetime.isoformat] and
    [ciso8601.parse_datetime] where the model is run on concrete dates. *)

Section DateStrings.

Local Open Scope Z_scope.

(** Days from 0001-01-01 to the day [d] of month [m] of year [y] of the
    proleptic Gregorian calendar. *)
Definition days_from_civil (y m d : Z) : Z :=
  let y' := if m <=? 2 then y - 1 else y in
  let era := y' / 400 in
  let yoe := y' - era * 400 in
  let doy := (153 * (if 2 <? m then m - 3 else m + 9) + 2) / 5 + d - 1 in
  let doe := yoe * 365 + yoe / 4 - yoe / 100 + doy in
  era * 146097 + doe - 306.

(** The year, month and day of a number of days from 0001-01-01. *)
Definition civil_from_days (n : Z) : Z * Z * Z :=
  let z := n + 306 in
  let era := z / 146097 in
  let doe := z - era * 146097 in
  let yoe := (doe - doe / 1460 + doe / 36524 - doe / 146096) / 365 in
  let doy := doe - (365 * yoe + yoe / 4 - yoe / 100) in
  let mp := (5 * doy + 2) / 153 in
  let d := doy - (153 * mp + 2) / 5 + 1 in
  let m := if mp <? 10 then mp + 3 else mp - 9 in
  let y := yoe + era * 400 in
  (if m <=? 2 then y + 1 else y, m, d).

Definition digit_char (n : Z) : ascii :=
  ascii_of_nat (48 + Z.to_nat (n mod 10)).

(** [n] written with [width] digits. *)
Fixpoint zero_padded (width : nat) (n : Z) : string :=
  match width with
  | O => ""
  | S w => (zero_padded w (n / 10) ++ String (digit_char n) "")%string
  end.

Definition format_offset (off : Z) : string :=
  let a := Z.abs off / 1000000 in
  let sign := if off <? 0 then "-" else "+" in
  let seconds :=
    if a mod 60 =? 0 then "" else (":" ++ zero_padded 2 (a mod 60))%string in
  (sign ++ zero_padded 2 (a / 3600)%Z ++ ":" ++ zero_padded 2 (a / 60 mod 60)%Z
   ++ seconds)%string.

(** The text of a datetime: [YYYY-MM-DDTHH:MM:SS], the microseconds when
    there are some, and the offset of an aware value. *)
Definition iso8601_format (d : datetime) : string :=
  let '(y, m, dd) := civil_from_days (wall d / usec_per_day) in
  let t := wall d mod usec_per_day in
  let s := t / 1000000 in
  let fraction :=
    if t mod 1000000 =? 0 then ""
    else ("." ++ zero_padded 6 (t mod 1000000))%string in
  let offset :=
    match utcoffset d with
    | Some off => format_offset off
    | None => ""
    end in
  (zero_padded 4 y ++ "-" ++ zero_padded 2 m ++ "-" ++ zero_padded 2 dd
   ++ "T" ++ zero_padded 2 (s / 3600)%Z ++ ":"
   ++ zero_padded 2 (s / 60 mod 60)%Z ++ ":" ++ zero_padded 2 (s mod 60)%Z
   ++ fraction ++ offset)%string.

Definition digit_of (c : ascii) : option Z :=
  let n := Z.of_nat (nat_of_ascii c) in
  if (48 <=? n) && (n <=? 57) then Some (n - 48) else None.

(** Reads [width] digits at the head of [s]. *)
Fixpoint read_digits (width : nat) (acc : Z) (s : string)
    : option (Z * string) :=
  match width with
  | O => Some (acc, s)
  | S w =>
      match s with
      | String c s' =>
          match digit_of c with
          | Some n => read_digits w (10 * acc + n) s'
          | None => None
          end
      | EmptyString => None
      end
  end.

Definition read_char (c : ascii) (s : string) : option string :=
  match s with
  | String c' s' => if Ascii.eqb c c' then Some s' else None
  | EmptyString => None
  end.

Definition days_in_month (y m : Z) : Z :=
  days_from_civil (if m =? 12 then y + 1 else y)
    (if m =? 12 then 1 else m + 1) 1
  - days_from_civil y m 1.

(** The offset at the end of a date string: nothing, [Z], or a sign with
    hours and minutes. *)
Definition read_offset (s : string) : option (option Z) :=
  match s with
  | EmptyString => Some None
  | String c s' =>
      if Ascii.eqb c "Z" then
        match s' with EmptyString => Some (Some 0) | _ => None end
      else if Ascii.eqb c "+" || Ascii.eqb c "-" then
        match read_digits 2 0 s' with
        | Some (hh, s1) =>
            match read_char ":" s1 with
            | Some s2 =>
                match read_digits 2 0 s2 with
                | Some (mm, EmptyString) =>
                    if (hh <? 24) && (mm <? 60)
                    then Some (Some ((if Ascii.eqb c "-" then -1 else 1)
                                     * (hh * 3600 + mm * 60) * 1000000))
                    else None
                | _ => None
                end
            | None => None
            end
        | None => None
        end
      else None
  end.

(** Reads [YYYY-MM-DDTHH:MM:SS] with an optional offset. *)
Definition iso8601_parse (s : string) : option datetime :=
  '(y, s) ← read_digits 4 0 s;
  s ← read_char "-" s;
  '(m, s) ← read_digits 2 0 s;
  s ← read_char "-" s;
  '(d, s) ← read_digits 2 0 s;
  s ← read_char "T" s;
  '(hh, s) ← read_digits 2 0 s;
  s ← read_char ":" s;
  '(mm, s) ← read_digits 2 0 s;
  s ← read_char ":" s;
  '(ss, s) ← read_digits 2 0 s;
  off ← read_offset s;
  if (1 <=? y) && (1 <=? m) && (m <=? 12) && (1 <=? d)
     && (d <=? days_in_month y m) && (hh <? 24) && (mm <? 60) && (ss <? 60)
  then Some (mk_datetime
               (days_from_civil y m d * usec_per_day
                + (hh * 3600 + mm * 60 + ss) * 1000000) off)
  else None.

End DateStrings.

(** ** The loan and the monad of guards *)

Abbreviation Loan := (gmap string value).
Abbreviation Kwargs := (gmap string value).

(** A computation over the loan passed by reference: the loan it leaves
    behind, and its value or the exception it raised. *)
Definition M (A : Type) : Type := Loan -> Loan * res A.

Definition raise {A} (e : exn) : M A := fun loan => (loan, inl e).

Definition lift {A} (r : res A) : M A := fun loan => (loan, r).

#[global] Instance M_ret : MRet M := fun A a loan => (loan, inr a).

#[global] Instance M_bind : MBind M := fun A B k m loan =>
  match m loan with
  | (loan', inr a) => k a loan'
  | (loan', inl e) => (loan', inl e)
  end.

(** [loan.get(key)] *)
Definition dict_get (key : string) : M value :=
  fun loan => (loan, inr (default VNone (loan !! key))).

(** [loan[key]] *)
Definition getitem (key : string) : M value :=
  fun loan =>
    match loan !! key with
    | Some v => (loan, inr v)
    | None => (loan, inl KeyError)
    end.

(** [loan[key] = v] *)
Definition setitem (key : string) (v : value) : M unit :=
  fun loan => (<[key := v]> loan, inr tt).

(** [loan.setdefault(key, v)] *)
Definition setdefault (key : string) (v : value) : M unit :=
  fun loan =>
    match loan !! key with
    | Some _ => (loan, inr tt)
    | None => (<[key := v]> loan, inr tt)
    end.

(** [loan.update(kwargs)]: the entries of [kwargs] win. *)
Definition dict_update (kwargs : Kwargs) : M unit :=
  fun loan => (kwargs ∪ loan, inr tt).

(** The loan itself, handed to a policy function. *)
Definition the_loan : M Loan := fun loan => (loan, inr loan).

(** [try: m  except C: handler]: [catches] tells the exceptions that are
    instances of the class [C]; any other exception propagates. The handler
    runs on the loan as the failed body left it. *)
Definition try_except {A} (m : M A) (catches : exn -> bool)
    (handler : M A) : M A :=
  fun loan =>
    match m loan with
    | (loan', inr a) => (loan', inr a)
    | (loan', inl e) => if catches e then handler loan' else (loan', inl e)
    end.

(** ** Transition objects and the application's configuration *)

(** The classes of transitions/transitions.py, and the base class
    [Transition] that [_Circulation.__init__] falls back on. *)
Inductive transition_class :=
| Transition
| CreatedToPending
| CreatedToItemOnLoan
| PendingToItemAtDesk
| PendingToItemInTransitPickup
| ItemAtDeskToItemOnLoan
| ItemOnLoanToItemInTransitHouse
| ItemOnLoanToItemReturned.

#[global] Instance transition_class_eq_dec : EqDecision transition_class.
Proof. solve_decision. Defined.

(** An instance [_cls(src=..., dest=..., trigger=...)]; [trigger] is absent
    for the edges that the configuration declares without one. *)
Record transition := mk_transition {
  cls : transition_class;
  src : string;
  dest : string;
  trigger : option string
}.

#[global] Instance transition_eq_dec : EqDecision transition.
Proof. solve_decision. Defined.

(** What the modelled code reads from [current_app.config]: the location
    retriever and the checkout policies of [CIRCULATION_POLICIES]. They are
    Python callables: each returns a value or raises. *)
Record app_config := mk_app_config {
  CIRCULATION_ITEM_LOCATION_RETRIEVER : value -> res value;
  duration_default : Loan -> res value;
  validate : Loan -> value -> value -> res value;
  item_available : value -> res value
}.

(** Objects of the transitions configuration.

    The configuration is a dict from state names to lists of per-edge
    descriptors, each a dict ([dict(dest=..., trigger=..., transition=...)]).
    [_Circulation.__init__] mutates the descriptors it is given, so they are
    objects of a heap, named by their position in it; the configuration
    lists references to them, in the order of the dict. *)
Inductive dvalue :=
| DStr (s : string)
| DCls (c : transition_class).

#[global] Instance dvalue_eq_dec : EqDecision dvalue.
Proof. solve_decision. Defined.

Abbreviation descriptor := (gmap string dvalue).
Abbreviation heap := (list descriptor).
Abbreviation config_dict := (list (string * list nat)).

(** [self.transitions] of a [_Circulation] instance. *)
Abbreviation circulation := (gmap string (list transition)).

Section Circulation.

(** The two library functions behind the date strings:
    [ciso8601.parse_datetime], which raises [ValueError] on a string it
    cannot read, and [datetime.isoformat]. *)
Variable parse_datetime : string -> option datetime.
Variable isoformat : datetime -> string.

(** ** utils.py *)

Definition patron_exists (patron_pid : value) : bool := false.

Definition item_exists (item_pid : value) : bool := false.

Definition is_item_available (item_pid : value) : bool := true.

Definition item_location_retriever (item_pid : value) : value := VNone.

Definition get_default_loan_duration (loan : Loan) : value := VInt 30.

Definition is_loan_valid (loan : Loan) (start_date end_date : value)
    : res value :=
  res_bind (py_sub end_date start_date) (fun loan_duration =>
  res_bind (timedelta_days (VInt 60)) (fun limit =>
  if (limit <? loan_duration)%Z
  then inl TransitionPoliciesViolation
  else inr (VBool true))).

Definition parse_date (date_datetime_or_str : value) : res value :=
  if negb (truthy date_datetime_or_str) then inr date_datetime_or_str
  else match date_datetime_or_str with
       | VDate d => inr (VDate d)
       | VStr s =>
           match parse_datetime s with
           | Some d => inr (VDate d)
           | None => inl ValueError
           end
       | _ => inl TypeError
       end.

(** [v.isoformat()] *)
Definition call_isoformat (v : value) : res value :=
  match v with
  | VDate d => inr (VStr (isoformat d))
  | _ => inl AttributeError
  end.

(** ** config.py *)

Definition CIRCULATION_STATES_ITEM_AVAILABLE : list string :=
  ["ITEM_RETURNED"].

Definition CIRCULATION_LOAN_INITIAL_STATE : string := "CREATED".

(** [CIRCULATION_ITEM_LOCATION_RETRIEVER] and [CIRCULATION_POLICIES] as
    config.py sets them. *)
Definition default_config : app_config :=
  {| CIRCULATION_ITEM_LOCATION_RETRIEVER :=
       fun item_pid => inr (item_location_retriever item_pid);
     duration_default := fun loan => inr (get_default_loan_duration loan);
     validate := is_loan_valid;
     item_available :=
       fun item_pid => inr (VBool (is_item_available item_pid)) |}.

(** ** errors.py *)

(** Modelled from the spec: errors.py, which declares the exception
    classes, is not among the sources, so which classes the clause
    [except TransitionValidationFailed] of [_Circulation.trigger] catches is
    taken from section 7 of the specification: [TransitionConditionsFailed]
    (soft) is caught by the engine; [TransitionConstraintsViolation] and the
    policy violations (hard) propagate, as [InvalidState] and
    [NoValidTransitionAvailable] do. *)
Definition isinstance_TransitionValidationFailed (e : exn) : bool :=
  match e with
  | TransitionValidationFailed | TransitionConditionsFailed => true
  | _ => false
  end.

(** ** transitions/conditions.py *)

(** Modelled from the spec: transitions/conditions.py is not among the
    sources. Sections 4.3 and 6: the item's current location is asked from
    the location retriever and compared with the given location. *)
Definition is_same_location (cfg : app_config)
    (item_pid input_location_pid : value) : res bool :=
  res_bind (CIRCULATION_ITEM_LOCATION_RETRIEVER cfg item_pid)
    (fun item_location_pid => inr (py_eq input_location_pid item_location_pid)).

(** ** transitions/base.py *)

(** Modelled from the spec: transitions/base.py (the class [Transition]) is
    not among the sources. Section 4.2, step 2: a candidate is eligible when
    its trigger name is the one the caller gives, and a candidate without a
    trigger name when the caller gives none. *)
Definition trigger_matches (self : transition) (kwargs : Kwargs) : bool :=
  match kwargs !! "trigger", trigger self with
  | None, None => true
  | Some v, Some name => py_eq v (VStr name)
  | _, _ => false
  end.

(** Modelled from the spec: [Transition.before] of transitions/base.py, the
    guard that every transition class starts with ([super().before]).
    Section 4.2: a candidate that is not eligible is rejected softly, before
    anything is changed; otherwise the guard accepts. Section 3: the fields
    of the loan such as [transaction_date] are supplied by the caller per
    invocation; the guards of transitions.py read them from the loan, and
    the callers in tests/test_loan_transitions.py pass them as keyword
    arguments: the accepted context is written into the loan, the trigger
    name apart. *)
Definition Transition_before (self : transition) (kwargs : Kwargs) : M unit :=
  if trigger_matches self kwargs
  then dict_update (delete "trigger" kwargs)
  else raise TransitionConditionsFailed.

(** Modelled from the spec: [Transition.after] of transitions/base.py, the
    finalize step. The specification gives the writing of dates as text as
    an example of such a step; in transitions.py the guard writes them
    ([_ensure_valid_loan]) and every [after] only calls the one of the base
    class. What the base step does to the stored record (persistence) is
    outside the engine; it leaves the fields of the loan as they are. *)
Definition Transition_after (self : transition) : M unit := mret tt.

(** ** transitions/transitions.py *)

(** The two [getitem] before the [raise] are the fields that the message of
    the error is made of. *)
Definition _ensure_valid_loan (cfg : app_config) : M unit :=
  transaction_date ← getitem "transaction_date";
  setdefault "start_date" transaction_date;;
  start_date ← dict_get "start_date" ≫= (fun v => lift (parse_date v));
  end_date ← dict_get "end_date" ≫= (fun v => lift (parse_date v));
  end_date ←
    (if negb (truthy end_date)
     then
       number_of_days ←
         the_loan ≫= (fun loan => lift (duration_default cfg loan));
       delta ← lift (timedelta_days number_of_days);
       lift (py_add_timedelta start_date delta)
     else mret end_date);
  inverted ← lift (py_lt end_date start_date);
  if inverted : bool
  then
    getitem "start_date";;
    getitem "end_date";;
    raise TransitionConstraintsViolation
  else
    is_valid ←
      the_loan ≫= (fun loan => lift (validate cfg loan start_date end_date));
    if truthy is_valid
    then
      start_str ← lift (call_isoformat start_date);
      setitem "start_date" start_str;;
      end_str ← lift (call_isoformat end_date);
      setitem "end_date" end_str
    else raise AssertionError.

Definition CreatedToPending_before (cfg : app_config) (self : transition)
    (kwargs : Kwargs) : M unit :=
  Transition_before self kwargs;;
  pickup ← dict_get "pickup_location_pid";
  if negb (truthy pickup)
  then
    item_pid ← getitem "item_pid";
    item_location_pid ←
      lift (CIRCULATION_ITEM_LOCATION_RETRIEVER cfg item_pid);
    setitem "pickup_location_pid" item_location_pid
  else mret tt.

Definition CreatedToItemOnLoan_before (cfg : app_config) (self : transition)
    (kwargs : Kwargs) : M unit :=
  Transition_before self kwargs;;
  _ensure_valid_loan cfg.

Definition PendingToItemAtDesk_before (cfg : app_config) (self : transition)
    (kwargs : Kwargs) : M unit :=
  Transition_before self kwargs;;
  item_pid ← getitem "item_pid";
  pickup ← getitem "pickup_location_pid";
  same ← lift (is_same_location cfg item_pid pickup);
  if negb same then raise TransitionConditionsFailed else mret tt.

Definition PendingToItemInTransitPickup_before (cfg : app_config)
    (self : transition) (kwargs : Kwargs) : M unit :=
  Transition_before self kwargs;;
  item_pid ← getitem "item_pid";
  pickup ← getitem "pickup_location_pid";
  same ← lift (is_same_location cfg item_pid pickup);
  if same : bool then raise TransitionConditionsFailed else mret tt.

(** [if loan.get(key): loan[key] = parse_date(loan[key])] *)
Definition parse_in_place (key : string) : M unit :=
  v ← dict_get key;
  if truthy v
  then
    v ← getitem key;
    d ← lift (parse_date v);
    setitem key d
  else mret tt.

(** The last statement calls [_ensure_valid_loan_duration], a name that the
    module neither defines nor imports: evaluating it raises [NameError]. *)
Definition ItemAtDeskToItemOnLoan_before (cfg : app_config)
    (self : transition) (kwargs : Kwargs) : M unit :=
  Transition_before self kwargs;;
  parse_in_place "start_date";;
  parse_in_place "end_date";;
  raise NameError.

Definition ItemOnLoanToItemInTransitHouse_before (cfg : app_config)
    (self : transition) (kwargs : Kwargs) : M unit :=
  Transition_before self kwargs;;
  item_pid ← getitem "item_pid";
  location ← getitem "transaction_location_pid";
  same ← lift (is_same_location cfg item_pid location);
  if same : bool then raise TransitionConditionsFailed
  else
    transaction_date ← getitem "transaction_date";
    setitem "end_date" transaction_date.

Definition ItemOnLoanToItemReturned_before (cfg : app_config)
    (self : transition) (kwargs : Kwargs) : M unit :=
  Transition_before self kwargs;;
  item_pid ← getitem "item_pid";
  location ← getitem "transaction_location_pid";
  same ← lift (is_same_location cfg item_pid location);
  if negb same then raise TransitionConditionsFailed
  else
    transaction_date ← getitem "transaction_date";
    setitem "end_date" transaction_date.

(** Method dispatch of [self.before(loan, **kwargs)] on the class of
    [self]. *)
Definition before (cfg : app_config) (self : transition) (kwargs : Kwargs)
    : M unit :=
  match cls self with
  | Transition => Transition_before self kwargs
  | CreatedToPending => CreatedToPending_before cfg self kwargs
  | CreatedToItemOnLoan => CreatedToItemOnLoan_before cfg self kwargs
  | PendingToItemAtDesk => PendingToItemAtDesk_before cfg self kwargs
  | PendingToItemInTransitPickup =>
      PendingToItemInTransitPickup_before cfg self kwargs
  | ItemAtDeskToItemOnLoan => ItemAtDeskToItemOnLoan_before cfg self kwargs
  | ItemOnLoanToItemInTransitHouse =>
      ItemOnLoanToItemInTransitHouse_before cfg self kwargs
  | ItemOnLoanToItemReturned =>
      ItemOnLoanToItemReturned_before cfg self kwargs
  end.

(** Every [after] of transitions.py only calls the one of the base class. *)
Definition after (self : transition) : M unit := Transition_after self.

(** Modelled from the spec: [Transition.execute] of transitions/base.py.
    Section 4.2, step 3: when the guard succeeds, the state of the loan
    becomes the destination of the candidate and its finalize step runs. *)
Definition execute (cfg : app_config) (self : transition) (kwargs : Kwargs)
    : M unit :=
  before cfg self kwargs;;
  setitem "state" (VStr (dest self));;
  after self.

(** ** ext.py *)

(** Modelled from the spec: the states that [Transition.__init__] of
    transitions/base.py knows, those of the data model (section 3). *)
Definition loan_states : list string :=
  ["CREATED"; "PENDING"; "ITEM_AT_DESK"; "ITEM_IN_TRANSIT_FOR_PICKUP";
   "ITEM_ON_LOAN"; "ITEM_IN_TRANSIT_TO_HOUSE"; "ITEM_RETURNED"; "CANCELLED"].

(** Modelled from the spec: [Transition.__init__] of transitions/base.py.
    Section 4.1: an instance is bound to its source state, its destination
    and its optional trigger name, all of them names; construction fails on
    a source or a destination that is not a state of the loan. *)
Definition Transition_init (_cls : transition_class) (kwargs : descriptor)
    : res transition :=
  match kwargs !! "src", kwargs !! "dest" with
  | Some (DStr s), Some (DStr d) =>
      if bool_decide (s ∈ loan_states) && bool_decide (d ∈ loan_states)
      then
        match kwargs !! "trigger" with
        | None => inr (mk_transition _cls s d None)
        | Some (DStr name) => inr (mk_transition _cls s d (Some name))
        | Some (DCls _) => inl TypeError
        end
      else inl InvalidState
  | _, _ => inl TypeError
  end.

(** [t.pop('transition', Transition)] on the descriptor at [t]: the key is
    removed from the object itself. *)
Definition pop_transition (t : nat) (h : heap) : heap * dvalue :=
  match h !! t with
  | Some d =>
      (<[t := delete "transition" d]> h,
       default (DCls Transition) (d !! "transition"))
  | None => (h, DCls Transition)
  end.

(** The body of the inner loop of [__init__] for one descriptor: the
    instance made by [_cls] from [dict(t, src=src_state)]. *)
Definition make_instance (src_state : string) (t : nat) (h : heap)
    : heap * res transition :=
  let '(h', _cls) := pop_transition t h in
  match _cls with
  | DCls c =>
      (h', Transition_init c
             (<["src" := DStr src_state]> (default ∅ (h' !! t))))
  | DStr _ => (h', inl TypeError)
  end.

(** [for t in transitions: ... self.transitions[src_state].append(instance)] *)
Fixpoint init_state (src_state : string) (transitions : list nat)
    (self : circulation) (h : heap) : heap * res circulation :=
  match transitions with
  | [] => (h, inr self)
  | t :: rest =>
      match make_instance src_state t h with
      | (h', inr instance) =>
          init_state src_state rest
            (<[src_state :=
                 (default [] (self !! src_state) ++ [instance])%list]> self)
            h'
      | (h', inl e) => (h', inl e)
      end
  end.

(** [for src_state, transitions in transitions_config.items(): ...] *)
Fixpoint init_states (transitions_config : config_dict)
    (self : circulation) (h : heap) : heap * res circulation :=
  match transitions_config with
  | [] => (h, inr self)
  | (src_state, transitions) :: rest =>
      let self1 :=
        match self !! src_state with
        | Some _ => self
        | None => <[src_state := []]> self
        end in
      match init_state src_state transitions self1 h with
      | (h', inr self2) => init_states rest self2 h'
      | (h', inl e) => (h', inl e)
      end
  end.

(** [_Circulation.__init__]: the heap it leaves behind, and the instance or
    the exception. *)
Definition _Circulation_init (transitions_config : config_dict)
    (h : heap) : heap * res circulation :=
  init_states transitions_config ∅ h.

(** [deepcopy] of the descriptors referred to by a list: every descriptor is
    copied once to a new object ([memo] maps the objects already copied to
    their copies); the values of a descriptor are strings and classes, which
    [deepcopy] does not duplicate. *)
Fixpoint deepcopy_refs (refs : list nat) (memo : gmap nat nat) (h : heap)
    : gmap nat nat * heap * list nat :=
  match refs with
  | [] => (memo, h, [])
  | t :: rest =>
      match memo !! t with
      | Some t' =>
          let '(memo', h', out) := deepcopy_refs rest memo h in
          (memo', h', t' :: out)
      | None =>
          let t' := length h in
          let '(memo', h', out) :=
            deepcopy_refs rest (<[t := t']> memo)
              (h ++ [default ∅ (h !! t)])%list in
          (memo', h', t' :: out)
      end
  end.

Fixpoint deepcopy_config (transitions_config : config_dict)
    (memo : gmap nat nat) (h : heap) : heap * config_dict :=
  match transitions_config with
  | [] => (h, [])
  | (src_state, transitions) :: rest =>
      let '(memo', h', transitions') := deepcopy_refs transitions memo h in
      let '(h'', rest') := deepcopy_config rest memo' h' in
      (h'', (src_state, transitions') :: rest')
  end.

Definition deepcopy (transitions_config : config_dict) (h : heap)
    : heap * config_dict :=
  deepcopy_config transitions_config ∅ h.

(** [InvenioCirculation.circulation], on the application's
    [CIRCULATION_LOAN_TRANSITIONS]. *)
Definition InvenioCirculation_circulation
    (app_transitions : config_dict) (h : heap)
    : heap * res circulation :=
  let '(h', copy) := deepcopy app_transitions h in
  _Circulation_init copy h'.

(** *** The application *)

(** The objects that the dicts of the application hold are never looked
    at. *)
Variable endpoint : Type.

(** A setting of the application, as far as [init_app] tells settings
    apart: a reference to a dict of the heap, or an object that is neither
    a dict nor iterable (None, a number, a function, a class). *)
Inductive setting :=
| DictRef (r : nat)
| Opaque (name : string).

Inductive extension :=
| InvenioCirculation_self
| Extension (name : string).

(** A Flask application: [app.config] and [app.extensions]. *)
Record flask_app := mk_flask_app {
  config : gmap string setting;
  extensions : gmap string extension
}.

(** [InvenioCirculation.init_config]; [module] is the module [config], as
    the names of [dir(config)] with their values. *)
Definition init_config {V} (module : list (string * V))
    (config : gmap string V) : gmap string V :=
  foldl (fun config '(k, v) =>
           if String.prefix "CIRCULATION_" k
           then match config !! k with
                | Some _ => config
                | None => <[k := v]> config
                end
           else config)
    config module.

(** [InvenioCirculation.init_app], on the heap of the dicts: the heap and
    the application it leaves, and the exception if there is one. *)
Definition init_app (module : list (string * setting)) (app : flask_app)
    (h : list (gmap string endpoint))
    : list (gmap string endpoint) * flask_app * res unit :=
  let config1 := init_config module (config app) in
  let '(config2, h2) :=
    match config1 !! "RECORDS_REST_ENDPOINTS" with
    | Some _ => (config1, h)
    | None =>
        (<["RECORDS_REST_ENDPOINTS" := DictRef (length h)]> config1,
         (h ++ [∅])%list)
    end in
  let raised e := (h2, mk_flask_app config2 (extensions app), inl e) in
  match config2 !! "RECORDS_REST_ENDPOINTS" with
  | Some (DictRef r) =>
      match config2 !! "CIRCULATION_REST_ENDPOINTS" with
      | Some (DictRef c) =>
          (<[r := default ∅ (h2 !! c) ∪ default ∅ (h2 !! r)]> h2,
           mk_flask_app config2
             (<["invenio-circulation" := InvenioCirculation_self]>
                (extensions app)),
           inr tt)
      | Some (Opaque _) => raised TypeError
      | None => raised KeyError
      end
  | Some (Opaque _) => raised AttributeError
  | None => raised KeyError
  end.

(** The dict references of the application and of the module are objects
    of the heap. *)
Definition settings_in (module : list (string * setting)) (app : flask_app)
    (h : list (gmap string endpoint)) : Prop :=
  (forall k r, config app !! k = Some (DictRef r) -> r < length h)
  /\ (forall k r, (k, DictRef r) ∈ module -> r < length h).

(** *** The engine *)

(** [self.transitions[current_state]], for a state read from the loan. *)
Definition transitions_of (self : circulation) (current_state : value)
    : option (list transition) :=
  match current_state with
  | VStr s => self !! s
  | _ => None
  end.

Definition _validate_current_state (self : circulation)
    (current_state : value) : res unit :=
  if negb (truthy current_state)
     || negb (bool_decide (is_Some (transitions_of self current_state)))
  then inl InvalidState
  else inr tt.

(** The loop of [trigger], with the [raise] that follows it. *)
Fixpoint trigger_loop (cfg : app_config) (candidates : list transition)
    (kwargs : Kwargs) : M unit :=
  match candidates with
  | [] => raise NoValidTransitionAvailable
  | t :: rest =>
      try_except (execute cfg t kwargs)
        isinstance_TransitionValidationFailed
        (trigger_loop cfg rest kwargs)
  end.

(** [_Circulation.trigger]; the loan it returns is the one it was given. *)
Definition _Circulation_trigger (cfg : app_config) (self : circulation)
    (kwargs : Kwargs) : M unit :=
  current_state ← dict_get "state";
  lift (_validate_current_state self current_state);;
  match transitions_of self current_state with
  | Some candidates => trigger_loop cfg candidates kwargs
  | None => raise KeyError
  end.

(** ** config.py: the transition table *)

(** The descriptors of [CIRCULATION_LOAN_TRANSITIONS], in the order of the
    dict literal. *)
Definition edge (d : string) (name : option string)
    (c : option transition_class) : descriptor :=
  let m : descriptor := {[ "dest" := DStr d ]} in
  let m :=
    match name with Some n => <["trigger" := DStr n]> m | None => m end in
  match c with Some c => <["transition" := DCls c]> m | None => m end.

Definition config_heap : heap :=
  [ edge "PENDING" (Some "request") (Some CreatedToPending);
    edge "ITEM_ON_LOAN" (Some "checkout") (Some CreatedToItemOnLoan);
    edge "ITEM_AT_DESK" None (Some PendingToItemAtDesk);
    edge "ITEM_IN_TRANSIT_FOR_PICKUP" None (Some PendingToItemInTransitPickup);
    edge "CANCELLED" (Some "cancel") None;
    edge "ITEM_ON_LOAN" None (Some ItemAtDeskToItemOnLoan);
    edge "CANCELLED" (Some "cancel") None;
    edge "ITEM_AT_DESK" None None;
    edge "CANCELLED" (Some "cancel") None;
    edge "ITEM_RETURNED" None (Some ItemOnLoanToItemReturned);
    edge "ITEM_IN_TRANSIT_TO_HOUSE" None (Some ItemOnLoanToItemInTransitHouse);
    edge "CANCELLED" (Some "cancel") None;
    edge "ITEM_RETURNED" None None;
    edge "CANCELLED" (Some "cancel") None ].

Definition CIRCULATION_LOAN_TRANSITIONS : config_dict :=
  [ ("CREATED", [0; 1]);
    ("PENDING", [2; 3; 4]);
    ("ITEM_AT_DESK", [5; 6]);
    ("ITEM_IN_TRANSIT_FOR_PICKUP", [7; 8]);
    ("ITEM_ON_LOAN", [9; 10; 11]);
    ("ITEM_IN_TRANSIT_TO_HOUSE", [12; 13]);
    ("ITEM_RETURNED", []);
    ("CANCELLED", []) ].

(** The engine of the application: [current_circulation.circulation], built
    from the table of config.py. *)
Definition current_circulation : circulation :=
  match InvenioCirculation_circulation CIRCULATION_LOAN_TRANSITIONS
          config_heap with
  | (_, inr self) => self
  | (_, inl _) => ∅
  end.

(** The destinations that the table of config.py declares for a state. *)
Definition declared_destinations (state : string) : list string :=
  match list_to_map (M := gmap string (list nat))
          CIRCULATION_LOAN_TRANSITIONS !! state with
  | Some refs =>
      omap (fun t =>
              match config_heap !! t ≫= (fun d => d !! "dest") with
              | Some (DStr d) => Some d
              | _ => None
              end) refs
  | None => []
  end.

(** The candidates of a state lead to its declared destinations, in order. *)
Definition leads_to_declared (s : string) (candidates : list transition)
    : bool :=
  bool_decide (map dest candidates = declared_destinations s).

(** The loan that an accepting [Transition.before] leaves: the caller's
    context written over the fields of the loan. *)
Definition with_context (kwargs : Kwargs) (loan : Loan) : Loan :=
  delete "trigger" kwargs ∪ loan.

(** The references of a configuration, in the order [__init__] visits
    them. *)
Definition config_refs (transitions_config : config_dict) : list nat :=
  concat (map snd transitions_config).

(** The heap after the key [transition] is removed from a descriptor. *)
Definition popped (t : nat) (h : heap) : heap :=
  alter (delete "transition") t h.

(** The loan after [loan.setdefault('start_date', transaction_date)]. *)
Definition start_defaulted (transaction_date : value) (loan : Loan) : Loan :=
  match loan !! "start_date" with
  | Some _ => loan
  | None => <["start_date" := transaction_date]> loan
  end.

(** The statements of [_ensure_valid_loan] before the call of the validation
    policy: the start and end dates that the policy is asked about. *)
Definition loan_period (cfg : app_config) : M (value * value) :=
  transaction_date ← getitem "transaction_date";
  setdefault "start_date" transaction_date;;
  start_date ← dict_get "start_date" ≫= (fun v => lift (parse_date v));
  end_date ← dict_get "end_date" ≫= (fun v => lift (parse_date v));
  end_date ←
    (if negb (truthy end_date)
     then
       number_of_days ←
         the_loan ≫= (fun loan => lift (duration_default cfg loan));
       delta ← lift (timedelta_days number_of_days);
       lift (py_add_timedelta start_date delta)
     else mret end_date);
  inverted ← lift (py_lt end_date start_date);
  if inverted : bool
  then
    getitem "start_date";;
    getitem "end_date";;
    raise TransitionConstraintsViolation
  else mret (start_date, end_date).

(** The candidates of a list are tried in order on the loan and the guard of
    each raises an exception that [trigger] catches: the loan as the last
    guard leaves it. Each guard receives the loan as the previous one left
    it. *)
Fixpoint soft_rejected (cfg : app_config) (kwargs : Kwargs)
    (candidates : list transition) (loan : Loan) : option Loan :=
  match candidates with
  | [] => Some loan
  | t :: rest =>
      match before cfg t kwargs loan with
      | (loan1, inl e) =>
          if isinstance_TransitionValidationFailed e
          then soft_rejected cfg kwargs rest loan1
          else None
      | (_, inr _) => None
      end
  end.

(** The dates of [loan_period] as a function of the loan and of its
    transaction date: only the default of the start date is written to the
    loan before them, so they do not depend on the order of the steps. *)
Definition period (cfg : app_config) (transaction_date : value) (loan : Loan)
    : res (value * value) :=
  res_bind (parse_date (default transaction_date (loan !! "start_date")))
    (fun start_date =>
  res_bind (parse_date (default VNone (loan !! "end_date")))
    (fun given =>
  res_bind
    (if truthy given then inr given
     else
       res_bind (duration_default cfg (start_defaulted transaction_date loan))
         (fun number_of_days =>
       res_bind (timedelta_days number_of_days)
         (fun delta => py_add_timedelta start_date delta)))
    (fun end_date =>
  res_bind (py_lt end_date start_date)
    (fun inverted : bool =>
  if inverted
  then
    match loan !! "end_date" with
    | Some _ => inl TransitionConstraintsViolation
    | None => inl KeyError
    end
  else inr (start_date, end_date))))).

(** The longest chain of transitions of the table that starts in a state. *)
Definition remaining_steps (state : string) : nat :=
  if String.eqb state "CREATED" then 6
  else if String.eqb state "PENDING" then 5
  else if String.eqb state "ITEM_IN_TRANSIT_FOR_PICKUP" then 4
  else if String.eqb state "ITEM_AT_DESK" then 3
  else if String.eqb state "ITEM_ON_LOAN" then 2
  else if String.eqb state "ITEM_IN_TRANSIT_TO_HOUSE" then 1
  else 0.

Definition loan_steps (loan : Loan) : nat :=
  match loan !! "state" with
  | Some (VStr s) => remaining_steps s
  | _ => 0
  end.

(** Every candidate of a state leads to a state with fewer steps left. *)
Definition descends (s : string) (candidates : list transition) : bool :=
  forallb (fun t => Nat.ltb (remaining_steps (dest t)) (remaining_steps s))
    candidates.

(** A sequence of calls to [trigger] on one loan, each with its own
    configuration and context: the loan after the last call, when every
    call succeeds. *)
Fixpoint trigger_all (calls : list (app_config * Kwargs)) (loan : Loan)
    : option Loan :=
  match calls with
  | [] => Some loan
  | (cfg, kwargs) :: rest =>
      match _Circulation_trigger cfg current_circulation kwargs loan with
      | (loan', inr _) => trigger_all rest loan'
      | (_, inl _) => None
      end
  end.

(** An instance with its class replaced by the base class. *)
Definition as_base (t : transition) : transition :=
  mk_transition Transition (src t) (dest t) (trigger t).

(** An engine with the same edges and none of the guard classes. *)
Definition without_guards (self : circulation) : circulation :=
  map as_base <$> self.

(** The instance that the inner loop of [__init__] makes from a descriptor
    with the content [d]. *)
Definition instance_of (src_state : string) (d : descriptor)
    : res transition :=
  match default (DCls Transition) (d !! "transition") with
  | DCls c =>
      Transition_init c (<["src" := DStr src_state]> (delete "transition" d))
  | DStr _ => inl TypeError
  end.

(** The content of the object at a reference. *)
Definition content (h : heap) (t : nat) : descriptor :=
  default ∅ (h !! t).

(** Two heaps hold the same content at the references that [rel] relates. *)
Definition same_descriptors (rel : nat -> nat -> Prop) (h1 h2 : heap)
    : Prop :=
  forall t t', rel t t' -> content h1 t = content h2 t'.

(** [rel] relates references one to one: it keeps the sharing of the
    descriptors. *)
Definition one_to_one (rel : nat -> nat -> Prop) : Prop :=
  forall t1 t1' t2 t2', rel t1 t1' -> rel t2 t2' -> (t1 = t2 <-> t1' = t2').

(** Two configurations have the same states, with related descriptors. *)
Definition same_shape (rel : nat -> nat -> Prop)
    (c1 c2 : config_dict) : Prop :=
  Forall2 (fun e1 e2 => e1.1 = e2.1 /\ Forall2 rel e1.2 e2.2) c1 c2.

(** The state of a [deepcopy] of descriptors of the heap [h0]: the current
    heap extends [h0], and [memo] sends the objects copied so far to their
    copies, which are new objects, one for each. *)
Definition copied (h0 : heap) (memo : gmap nat nat) (hc : heap) : Prop :=
  (exists copies, hc = (h0 ++ copies)%list)
  /\ (forall t t', memo !! t = Some t' ->
        length h0 <= t' < length hc /\ hc !! t' = Some (content h0 t))
  /\ (forall t1 t2 t', memo !! t1 = Some t' -> memo !! t2 = Some t' ->
        t1 = t2).

(** ** Example data

    A context and loans in the manner of tests/test_loan_transitions.py, on
    which the model is run. *)

Definition example_params : Kwargs :=
  {[ "item_pid" := VStr "item_pid";
     "patron_pid" := VStr "patron_pid";
     "transaction_location_pid" := VStr "loc_pid";
     "transaction_date" := VStr "2018-02-01T09:30:00+02:00" ]}.

Definition checkout_params : Kwargs :=
  <["trigger" := VStr "checkout"]> example_params.

(** A checkout whose end date is a month before its start date. *)
Definition inverted_params : Kwargs :=
  <["end_date" := VStr "2018-01-01T09:30:00+02:00"]> checkout_params.

Definition loan_created : Loan := {[ "state" := VStr "CREATED" ]}.

Definition loan_pending : Loan :=
  {[ "state" := VStr "PENDING";
     "item_pid" := VStr "item_pid";
     "pickup_location_pid" := VStr "pickup_location_pid" ]}.

Definition loan_at_desk : Loan :=
  {[ "state" := VStr "ITEM_AT_DESK";
     "item_pid" := VStr "item_pid";
     "pickup_location_pid" := VStr "pickup_location_pid" ]}.

Definition loan_on_loan : Loan :=
  {[ "state" := VStr "ITEM_ON_LOAN";
     "item_pid" := VStr "item_pid";
     "start_date" := VStr "2018-02-01T09:30:00+02:00";
     "end_date" := VStr "2018-03-03T09:30:00+02:00" ]}.

(** 2018-02-01T09:30:00+02:00 and 2018-01-01T09:30:00+02:00. *)
Definition february_first : datetime :=
  mk_datetime 63653074200000000 (Some 7200000000%Z).

Definition january_first : datetime :=
  mk_datetime 63650395800000000 (Some 7200000000%Z).

(** A configuration whose validation policy answers [False]. *)
Definition refusing_config : app_config :=
  {| CIRCULATION_ITEM_LOCATION_RETRIEVER :=
       CIRCULATION_ITEM_LOCATION_RETRIEVER default_config;
     duration_default := duration_default default_config;
     validate := fun _ _ _ => inr (VBool false);
     item_available := item_available default_config |}.

(** [SwappedConfig('CIRCULATION_ITEM_LOCATION_RETRIEVER', lambda x: location)]
    of the test-suite. *)
Definition located_config (location : string) : app_config :=
  {| CIRCULATION_ITEM_LOCATION_RETRIEVER := fun _ => inr (VStr location);
     duration_default := duration_default default_config;
     validate := validate default_config;
     item_available := item_available default_config |}.

(** The context of a request, and of a checkout with its two dates. *)
Definition request_params : Kwargs :=
  <["trigger" := VStr "request"]>
    (<["pickup_location_pid" := VStr "pickup_location_pid"]> example_params).

Definition dated_params : Kwargs :=
  <["start_date" := VStr "2018-02-01T09:30:00+02:00"]>
    (<["end_date" := VStr "2018-02-10T09:30:00+02:00"]> checkout_params).

(** A configuration of one edge, and the heap that holds its descriptor. *)
Definition one_edge_heap : heap :=
  [ edge "PENDING" (Some "request") (Some CreatedToPending) ].

Definition one_edge_config : config_dict := [ ("CREATED", [0]) ].

(** A configuration whose default duration is one day back. *)
Definition backwards_config : app_config :=
  {| CIRCULATION_ITEM_LOCATION_RETRIEVER :=
       CIRCULATION_ITEM_LOCATION_RETRIEVER default_config;
     duration_default := fun _ => inr (VInt (-1));
     validate := validate default_config;
     item_available := item_available default_config |}.

(** 2018-02-10T09:30:00, without a time zone, and a loan that ends then. *)
Definition february_tenth_naive : datetime :=
  mk_datetime (wall february_first + 9 * usec_per_day) None.

Definition mixed_loan : Loan :=
  {[ "transaction_date" := VDate february_first;
     "end_date" := VDate february_tenth_naive ]}.

(** A module in the manner of config.py, an application that has an
    endpoint and a setting of its own, and the dicts they refer to. *)
Definition sample_module : list (string * setting) :=
  [ ("CIRCULATION_ITEM_EXISTS", Opaque "item_exists");
    ("CIRCULATION_REST_ENDPOINTS", DictRef 0);
    ("Loan", Opaque "Loan");
    ("_CIRCULATION_ACTION_LINKS_FACTORY", Opaque "loan_links_factory") ].

Definition sample_app : flask_app :=
  {| config := {[ "RECORDS_REST_ENDPOINTS" := DictRef 1;
                  "CIRCULATION_ITEM_EXISTS" := Opaque "exists_in_catalogue" ]};
     extensions := ∅ |}.

Definition sample_dicts : list (gmap string string) :=
  [ {[ "loan_pid" := "/circulation/loan/" ]};
    {[ "loan_pid" := "/loans/"; "recid" := "/records/" ]} ].

(** The loans of a store that are on an item. *)
Definition loans_on (item_pid : value) (store : list Loan) : list Loan :=
  filter (fun loan => loan !! "item_pid" = Some item_pid) store.

(** The states in which, by the specification, a loan makes its item
    unavailable. *)
Definition unavailable_states : list string :=
  ["PENDING"; "ITEM_ON_LOAN"; "ITEM_IN_TRANSIT_FOR_PICKUP"; "ITEM_AT_DESK"].

(** ** api.py: the availability of an item *)

(** The terminal states: the states to which the table of config.py gives
    no transition. *)
Definition terminal_states : list string :=
  (filter (fun e => e.2 = []) CIRCULATION_LOAN_TRANSITIONS).*1.

(** The state of a stored loan, when it has one. *)
Definition loan_state (loan : Loan) : option string :=
  match loan !! "state" with
  | Some (VStr s) => Some s
  | _ => None
  end.

(** Modelled from the spec: the query of [is_item_available] of api.py.
    Section 6: the predicate queries the loans of the item that are not in
    a terminal state. *)
Definition is_non_terminal (loan : Loan) : bool :=
  match loan_state loan with
  | Some s => negb (bool_decide (s ∈ terminal_states))
  | None => false
  end.

(** Modelled from the spec: the unavailable state set of section 6, every
    state but those of [CIRCULATION_STATES_ITEM_AVAILABLE] of config.py. *)
Definition in_unavailable_state (loan : Loan) : bool :=
  match loan_state loan with
  | Some s => negb (bool_decide (s ∈ CIRCULATION_STATES_ITEM_AVAILABLE))
  | None => false
  end.

(** Modelled from the spec: [is_item_available] of api.py, which is not
    among the sources; the test-suite imports it and config.py declares the
    states it reads. Section 6: the predicate is computed by querying the
    loans of the item that are not in a terminal state and checking whether
    any of them is in a state of the unavailable set; an item without loans
    is available. [store] holds the loans that are indexed. *)
Definition api_is_item_available (store : list Loan) (item_pid : value)
    : bool :=
  negb (existsb in_unavailable_state
          (List.filter is_non_terminal (loans_on item_pid store))).

(** Loans in the manner of the fixture of the test-suite, which names each
    item after the states of its loans. *)
Definition loan_of_item (item_pid state : string) : Loan :=
  {[ "item_pid" := VStr item_pid; "state" := VStr state ]}.

Definition indexed_loans : list Loan :=
  [ loan_of_item "item_pending_1" "PENDING";
    loan_of_item "item_on_loan_2" "ITEM_ON_LOAN";
    loan_of_item "item_returned_3" "ITEM_RETURNED";
    loan_of_item "item_in_transit_4" "ITEM_IN_TRANSIT_FOR_PICKUP";
    loan_of_item "item_at_desk_5" "ITEM_AT_DESK";
    loan_of_item "item_pending_on_loan_6" "PENDING";
    loan_of_item "item_pending_on_loan_6" "ITEM_ON_LOAN";
    loan_of_item "item_returned_6" "ITEM_RETURNED";
    loan_of_item "item_cancelled_8" "CANCELLED";
    loan_of_item "item_cancelled_8" "ITEM_RETURNED" ].

(** * Properties *)

(** ** Python values *)

(** On strings, [==] is the equality of the texts. *)
Lemma py_eq_str (a b : string) : py_eq (VStr a) (VStr b) = true <-> a = b.
Proof. simpl. apply String.eqb_eq. Qed.

Lemma py_eq_sym (a b : value) : py_eq a b = py_eq b a.
Proof.
  destruct a as [|x|x|x|x], b as [|y|y|y|y]; simpl;
    try reflexivity; try apply Z.eqb_sym; try apply String.eqb_sym.
  destruct (utcoffset x), (utcoffset y); try reflexivity; apply Z.eqb_sym.
Qed.

(** ** Executing one candidate *)

(** A candidate fails exactly when its guard raises: the assignment of the
    state and the finalize step raise nothing. *)
Lemma execute_raises cfg t kwargs loan loan1 e :
  execute cfg t kwargs loan = (loan1, inl e) <->
  before cfg t kwargs loan = (loan1, inl e).
Proof.
  unfold execute, mbind, M_bind.
  destruct (before cfg t kwargs loan) as [l [e'|[]]]; simpl.
  - tauto.
  - split; discriminate.
Qed.

(** A candidate succeeds exactly when its guard accepts; the loan is then
    the one the guard left, with the destination as its state. *)
Lemma execute_returns cfg t kwargs loan loan' :
  execute cfg t kwargs loan = (loan', inr tt) <->
  exists loan1, before cfg t kwargs loan = (loan1, inr tt)
                /\ loan' = <["state" := VStr (dest t)]> loan1.
Proof.
  unfold execute, mbind, M_bind.
  destruct (before cfg t kwargs loan) as [l [e'|[]]]; simpl.
  - split; [discriminate | intros (? & [=] & _)].
  - unfold setitem, after, Transition_after, mret, M_ret. split.
    + intros [= <-]. eauto.
    + intros (? & [= <-] & ->). reflexivity.
Qed.

Lemma execute_state cfg t kwargs loan loan' :
  execute cfg t kwargs loan = (loan', inr tt) ->
  loan' !! "state" = Some (VStr (dest t)).
Proof.
  intros (loan1 & _ & ->)%execute_returns. apply lookup_insert_eq.
Qed.

(** ** The loop of the engine *)

(** Once a prefix of the candidates is rejected softly, the loop goes on with
    the rest, on the loan as the rejected guards left it. *)
Lemma trigger_loop_skip cfg kwargs pre rest loan mid :
  soft_rejected cfg kwargs pre loan = Some mid ->
  trigger_loop cfg (pre ++ rest) kwargs loan = trigger_loop cfg rest kwargs mid.
Proof.
  revert loan. induction pre as [|t pre IH]; intros loan; simpl.
  - now intros [= ->].
  - unfold try_except at 1.
    destruct (before cfg t kwargs loan) as [loan1 [e|[]]] eqn:Hb;
      [|discriminate].
    apply execute_raises in Hb. rewrite Hb.
    destruct (isinstance_TransitionValidationFailed e);
      [apply IH | discriminate].
Qed.

(** What the loop returns: the first candidate whose guard does not raise a
    caught exception decides, and when there is none the loop raises
    [NoValidTransitionAvailable]. *)
Lemma trigger_loop_cases cfg kwargs candidates loan :
  (exists mid, soft_rejected cfg kwargs candidates loan = Some mid
     /\ trigger_loop cfg candidates kwargs loan
        = (mid, inl NoValidTransitionAvailable))
  \/ (exists pre t post mid,
        candidates = pre ++ t :: post
        /\ soft_rejected cfg kwargs pre loan = Some mid
        /\ trigger_loop cfg candidates kwargs loan = execute cfg t kwargs mid
        /\ match snd (execute cfg t kwargs mid) with
           | inl e => isinstance_TransitionValidationFailed e = false
           | inr _ => True
           end).
Proof.
  revert loan. induction candidates as [|t rest IH]; intros loan.
  - left. exists loan. split; reflexivity.
  - simpl. unfold try_except.
    destruct (execute cfg t kwargs loan) as [loan1 [e|[]]] eqn:Hex.
    + destruct (isinstance_TransitionValidationFailed e) eqn:He.
      * apply execute_raises in Hex. rewrite Hex, He.
        destruct (IH loan1) as [(mid & Hrej & Heq)
                               |(pre & t' & post & mid & -> & Hrej & Heq & Hk)].
        -- left. exists mid. split; assumption.
        -- right. exists (t :: pre), t', post, mid.
           repeat split; try assumption. simpl. now rewrite Hex, He.
      * right. exists [], t, rest, loan.
        rewrite Hex. simpl. repeat split; assumption.
    + right. exists [], t, rest, loan.
      rewrite Hex. simpl. repeat split; constructor.
Qed.

(** The engine on a loan whose state has candidates runs the loop on them. *)
Lemma trigger_unfold cfg self kwargs loan s candidates :
  loan !! "state" = Some (VStr s) -> s <> "" ->
  self !! s = Some candidates ->
  _Circulation_trigger cfg self kwargs loan
  = trigger_loop cfg candidates kwargs loan.
Proof.
  intros Hs Hne Hc.
  unfold _Circulation_trigger, mbind, M_bind, dict_get.
  rewrite Hs. simpl. unfold _validate_current_state, lift. simpl.
  rewrite Hc.
  assert (String.eqb s "" = false) as -> by now apply String.eqb_neq.
  rewrite bool_decide_eq_true_2 by eauto. reflexivity.
Qed.

(** The engine reaches the loop only on a loan whose state names a list of
    candidates; otherwise it raises [InvalidState] and leaves the loan. *)
Lemma trigger_cases cfg self kwargs loan :
  (exists s candidates,
      loan !! "state" = Some (VStr s) /\ s <> ""
      /\ self !! s = Some candidates
      /\ _Circulation_trigger cfg self kwargs loan
         = trigger_loop cfg candidates kwargs loan)
  \/ _Circulation_trigger cfg self kwargs loan = (loan, inl InvalidState).
Proof.
  destruct (loan !! "state") as [v|] eqn:Hs.
  - destruct v as [| | |s|];
      try (right; unfold _Circulation_trigger, mbind, M_bind, dict_get;
           rewrite Hs; simpl; unfold _validate_current_state, lift; simpl;
           rewrite ?orb_true_r; reflexivity).
    destruct (self !! s) as [candidates|] eqn:Hc.
    + destruct (String.eqb_spec s "") as [->|Hne].
      * right. unfold _Circulation_trigger, mbind, M_bind, dict_get.
        rewrite Hs. reflexivity.
      * left. exists s, candidates. repeat split; try assumption.
        now apply trigger_unfold with s.
    + right. unfold _Circulation_trigger, mbind, M_bind, dict_get.
      rewrite Hs. simpl. unfold _validate_current_state, lift. simpl.
      rewrite Hc. rewrite bool_decide_eq_false_2 by (intros [? [=]]).
      rewrite orb_true_r. reflexivity.
  - right. unfold _Circulation_trigger, mbind, M_bind, dict_get.
    rewrite Hs. reflexivity.
Qed.

(** A successful call: the state of the loan named a list of candidates, a
    prefix of them was rejected softly, and the next one was executed; its
    result is the result of the call. *)
Lemma trigger_returns cfg self kwargs loan loan' :
  _Circulation_trigger cfg self kwargs loan = (loan', inr tt) ->
  exists s pre t post mid,
    loan !! "state" = Some (VStr s)
    /\ self !! s = Some (pre ++ t :: post)
    /\ soft_rejected cfg kwargs pre loan = Some mid
    /\ execute cfg t kwargs mid = (loan', inr tt).
Proof.
  intros H.
  destruct (trigger_cases cfg self kwargs loan)
    as [(s & candidates & Hs & _ & Hc & Heq)|Heq];
    rewrite Heq in H; [|discriminate].
  destruct (trigger_loop_cases cfg kwargs candidates loan)
    as [(mid & _ & Hl)|(pre & t & post & mid & -> & Hrej & Hl & _)];
    rewrite Hl in H; [discriminate|].
  exists s, pre, t, post, mid. auto.
Qed.

(** ** The table of the application *)

(** The construction of the engine from the table of config.py succeeds. *)
Lemma current_circulation_built :
  snd (InvenioCirculation_circulation CIRCULATION_LOAN_TRANSITIONS config_heap)
  = inr current_circulation.
Proof.
  unfold current_circulation.
  destruct (InvenioCirculation_circulation _ _) as [h [e|self]] eqn:E;
    [|reflexivity].
  exfalso.
  assert (match snd (InvenioCirculation_circulation
                       CIRCULATION_LOAN_TRANSITIONS config_heap) with
          | inr _ => True
          | inl _ => False
          end) as H by (vm_compute; exact I).
  now rewrite E in H.
Qed.

(** A property of every entry of the table, checked by running it. *)
Lemma current_circulation_forall (P : string -> list transition -> bool) :
  forallb (fun p => P p.1 p.2) (map_to_list current_circulation) = true ->
  forall s candidates,
    current_circulation !! s = Some candidates -> P s candidates = true.
Proof.
  intros H s candidates Hs.
  rewrite forallb_forall in H.
  apply elem_of_map_to_list, list_elem_of_In in Hs.
  exact (H (s, candidates) Hs).
Qed.

(** The candidates of a state lead to the destinations that config.py
    declares for it, in the same order. *)
Lemma current_circulation_destinations s candidates :
  current_circulation !! s = Some candidates ->
  map dest candidates = declared_destinations s.
Proof.
  intros H.
  assert (forallb (fun p => leads_to_declared p.1 p.2)
            (map_to_list current_circulation) = true) as Hall
    by by_running.
  pose proof (current_circulation_forall leads_to_declared Hall s candidates H)
    as Hd.
  unfold leads_to_declared in Hd. now apply bool_decide_eq_true in Hd.
Qed.

(** ** The guards *)

Lemma Transition_before_accepts t kwargs loan :
  trigger_matches t kwargs = true ->
  Transition_before t kwargs loan = (with_context kwargs loan, inr tt).
Proof. intros H. unfold Transition_before. now rewrite H. Qed.

Lemma Transition_before_rejects t kwargs loan :
  trigger_matches t kwargs = false ->
  Transition_before t kwargs loan = (loan, inl TransitionConditionsFailed).
Proof. intros H. unfold Transition_before. now rewrite H. Qed.

(** Writing the context twice is writing it once. *)
Lemma with_context_idemp kwargs loan :
  with_context kwargs (with_context kwargs loan) = with_context kwargs loan.
Proof.
  unfold with_context. rewrite (assoc_L (∪)). now rewrite (idemp_L (∪)).
Qed.

(** The context has no [state]: the base guard leaves the state of the loan. *)
Lemma with_context_state kwargs loan :
  kwargs !! "state" = None ->
  with_context kwargs loan !! "state" = loan !! "state".
Proof.
  intros H. unfold with_context.
  apply lookup_union_r. now rewrite lookup_delete_ne.
Qed.

(** The two guards on the location of the item, for a candidate that the
    base guard accepts: both leave the loan with the context written into
    it, and they decide by the same comparison. *)
Lemma PendingToItemAtDesk_before_eq cfg t kwargs loan item_pid pickup location :
  trigger_matches t kwargs = true ->
  with_context kwargs loan !! "item_pid" = Some item_pid ->
  with_context kwargs loan !! "pickup_location_pid" = Some pickup ->
  CIRCULATION_ITEM_LOCATION_RETRIEVER cfg item_pid = inr location ->
  PendingToItemAtDesk_before cfg t kwargs loan
  = (with_context kwargs loan,
     if py_eq pickup location then inr tt else inl TransitionConditionsFailed).
Proof.
  intros Ht Hi Hp Hr. unfold PendingToItemAtDesk_before, mbind, M_bind.
  rewrite (Transition_before_accepts _ _ _ Ht). unfold getitem.
  rewrite Hi, Hp. unfold lift, is_same_location, res_bind. rewrite Hr.
  now destruct (py_eq pickup location).
Qed.

Lemma PendingToItemInTransitPickup_before_eq
    cfg t kwargs loan item_pid pickup location :
  trigger_matches t kwargs = true ->
  with_context kwargs loan !! "item_pid" = Some item_pid ->
  with_context kwargs loan !! "pickup_location_pid" = Some pickup ->
  CIRCULATION_ITEM_LOCATION_RETRIEVER cfg item_pid = inr location ->
  PendingToItemInTransitPickup_before cfg t kwargs loan
  = (with_context kwargs loan,
     if py_eq pickup location then inl TransitionConditionsFailed else inr tt).
Proof.
  intros Ht Hi Hp Hr. unfold PendingToItemInTransitPickup_before, mbind, M_bind.
  rewrite (Transition_before_accepts _ _ _ Ht). unfold getitem.
  rewrite Hi, Hp. unfold lift, is_same_location, res_bind. rewrite Hr.
  now destruct (py_eq pickup location).
Qed.

Lemma ItemOnLoanToItemReturned_before_eq
    cfg t kwargs loan item_pid place location transaction_date :
  trigger_matches t kwargs = true ->
  with_context kwargs loan !! "item_pid" = Some item_pid ->
  with_context kwargs loan !! "transaction_location_pid" = Some place ->
  with_context kwargs loan !! "transaction_date" = Some transaction_date ->
  CIRCULATION_ITEM_LOCATION_RETRIEVER cfg item_pid = inr location ->
  ItemOnLoanToItemReturned_before cfg t kwargs loan
  = if py_eq place location
    then (<["end_date" := transaction_date]> (with_context kwargs loan), inr tt)
    else (with_context kwargs loan, inl TransitionConditionsFailed).
Proof.
  intros Ht Hi Hp Hd Hr. unfold ItemOnLoanToItemReturned_before, mbind, M_bind.
  rewrite (Transition_before_accepts _ _ _ Ht). unfold getitem.
  rewrite Hi, Hp. unfold lift, is_same_location, res_bind. rewrite Hr.
  destruct (py_eq place location); simpl; [|reflexivity].
  now rewrite Hd.
Qed.

Lemma ItemOnLoanToItemInTransitHouse_before_eq
    cfg t kwargs loan item_pid place location transaction_date :
  trigger_matches t kwargs = true ->
  with_context kwargs loan !! "item_pid" = Some item_pid ->
  with_context kwargs loan !! "transaction_location_pid" = Some place ->
  with_context kwargs loan !! "transaction_date" = Some transaction_date ->
  CIRCULATION_ITEM_LOCATION_RETRIEVER cfg item_pid = inr location ->
  ItemOnLoanToItemInTransitHouse_before cfg t kwargs loan
  = if py_eq place location
    then (with_context kwargs loan, inl TransitionConditionsFailed)
    else (<["end_date" := transaction_date]> (with_context kwargs loan),
          inr tt).
Proof.
  intros Ht Hi Hp Hd Hr.
  unfold ItemOnLoanToItemInTransitHouse_before, mbind, M_bind.
  rewrite (Transition_before_accepts _ _ _ Ht). unfold getitem.
  rewrite Hi, Hp. unfold lift, is_same_location, res_bind. rewrite Hr.
  destruct (py_eq place location); simpl; [reflexivity|].
  now rewrite Hd.
Qed.

(** A call without a trigger name makes eligible the candidates declared
    without one. *)
Lemma automatic_matches t kwargs :
  kwargs !! "trigger" = None -> trigger t = None ->
  trigger_matches t kwargs = true.
Proof. intros Hk Ht. unfold trigger_matches. now rewrite Hk, Ht. Qed.

(** ** The dates of a checkout *)

(** [_ensure_valid_loan] computes the period, asks the validation policy,
    asserts its answer and stores the two dates as text. *)
Lemma _ensure_valid_loan_period cfg loan :
  _ensure_valid_loan cfg loan
  = match loan_period cfg loan with
    | (loan1, inl e) => (loan1, inl e)
    | (loan1, inr (start_date, end_date)) =>
        match validate cfg loan1 start_date end_date with
        | inl e => (loan1, inl e)
        | inr is_valid =>
            if truthy is_valid
            then
              match call_isoformat start_date with
              | inl e => (loan1, inl e)
              | inr start_str =>
                  match call_isoformat end_date with
                  | inl e => (<["start_date" := start_str]> loan1, inl e)
                  | inr end_str =>
                      (<["end_date" := end_str]>
                         (<["start_date" := start_str]> loan1), inr tt)
                  end
              end
            else (loan1, inl AssertionError)
        end
    end.
Proof.
  unfold _ensure_valid_loan, loan_period, mbind, M_bind, getitem, setdefault,
    dict_get, lift, the_loan, raise, setitem, mret, M_ret.
  repeat (match goal with
          | |- context [match ?x with _ => _ end] => destruct x eqn:?
          | |- context [if ?x then _ else _] => destruct x eqn:?
          end; simplify_eq/=; try reflexivity).
Qed.

(** The period of a loan whose end date is given. *)
Lemma loan_period_given cfg loan transaction_date end_date start ending :
  loan !! "transaction_date" = Some transaction_date ->
  parse_date (default transaction_date (loan !! "start_date")) = inr start ->
  loan !! "end_date" = Some end_date ->
  parse_date end_date = inr (VDate ending) ->
  loan_period cfg loan
  = (start_defaulted transaction_date loan,
     match py_lt (VDate ending) start with
     | inl e => inl e
     | inr true => inl TransitionConstraintsViolation
     | inr false => inr (start, VDate ending)
     end).
Proof.
  intros Ht Hs He Hp.
  assert (start_defaulted transaction_date loan !! "start_date"
          = Some (default transaction_date (loan !! "start_date"))) as Hs1.
  { unfold start_defaulted. destruct (loan !! "start_date") eqn:E; simpl.
    - exact E.
    - apply lookup_insert_eq. }
  assert (start_defaulted transaction_date loan !! "end_date" = Some end_date)
    as He1.
  { unfold start_defaulted. destruct (loan !! "start_date"); [exact He|].
    now rewrite lookup_insert_ne. }
  unfold loan_period, mbind, M_bind, getitem, setdefault, dict_get.
  rewrite Ht. fold (start_defaulted transaction_date loan).
  replace (match loan !! "start_date" with
           | Some _ => (loan, inr ())
           | None => (<["start_date" := transaction_date]> loan, inr ())
           end) with (start_defaulted transaction_date loan, inr () : res unit)
    by (unfold start_defaulted; now destruct (loan !! "start_date")).
  unfold lift. rewrite Hs1. simpl. rewrite Hs, He1. simpl. rewrite Hp. simpl.
  destruct (py_lt (VDate ending) start) as [e|[|]]; try reflexivity.
  now rewrite Hs1, He1.
Qed.

(** The period of a loan without an end date: the duration policy gives the
    number of days. When that number is negative the dates are inverted,
    and the message of the error needs an [end_date] in the loan. *)
Lemma loan_period_defaulted cfg loan transaction_date start days delta :
  loan !! "transaction_date" = Some transaction_date ->
  parse_date (default transaction_date (loan !! "start_date")) = inr start ->
  truthy (default VNone (loan !! "end_date")) = false ->
  duration_default cfg (start_defaulted transaction_date loan) = inr days ->
  timedelta_days days = inr delta ->
  loan_period cfg loan
  = (start_defaulted transaction_date loan,
     match py_add_timedelta start delta with
     | inl e => inl e
     | inr ending =>
         match py_lt ending start with
         | inl e => inl e
         | inr true =>
             match loan !! "end_date" with
             | Some _ => inl TransitionConstraintsViolation
             | None => inl KeyError
             end
         | inr false => inr (start, ending)
         end
     end).
Proof.
  intros Ht Hs He Hd Hdelta.
  assert (start_defaulted transaction_date loan !! "start_date"
          = Some (default transaction_date (loan !! "start_date"))) as Hs1.
  { unfold start_defaulted. destruct (loan !! "start_date") eqn:E; simpl.
    - exact E.
    - apply lookup_insert_eq. }
  assert (start_defaulted transaction_date loan !! "end_date"
          = loan !! "end_date") as He1.
  { unfold start_defaulted. destruct (loan !! "start_date"); [reflexivity|].
    now rewrite lookup_insert_ne. }
  unfold loan_period, mbind, M_bind, getitem, setdefault, dict_get.
  rewrite Ht.
  replace (match loan !! "start_date" with
           | Some _ => (loan, inr ())
           | None => (<["start_date" := transaction_date]> loan, inr ())
           end) with (start_defaulted transaction_date loan, inr () : res unit)
    by (unfold start_defaulted; now destruct (loan !! "start_date")).
  unfold lift. rewrite Hs1. simpl. rewrite Hs, He1.
  unfold parse_date at 1. rewrite He. simpl. rewrite He. simpl.
  unfold the_loan. rewrite Hd. simpl. rewrite Hdelta. simpl.
  destruct (py_add_timedelta start delta) as [e|ending]; [reflexivity|].
  simpl. destruct (py_lt ending start) as [e|[|]]; try reflexivity.
  simpl. rewrite Hs1, He1. now destruct (loan !! "end_date").
Qed.

(** Under a duration policy of thirty days: the start date shifted by thirty
    days, when that is a date of the calendar. *)
Lemma loan_period_thirty_days cfg loan transaction_date start :
  loan !! "transaction_date" = Some transaction_date ->
  parse_date (default transaction_date (loan !! "start_date"))
  = inr (VDate start) ->
  truthy (default VNone (loan !! "end_date")) = false ->
  duration_default cfg (start_defaulted transaction_date loan)
  = inr (VInt 30) ->
  loan_period cfg loan
  = (start_defaulted transaction_date loan,
     match py_add_timedelta (VDate start) (30 * usec_per_day) with
     | inl e => inl e
     | inr ending => inr (VDate start, ending)
     end).
Proof.
  intros Ht Hs He Hd.
  rewrite (loan_period_defaulted _ _ _ _ _ (30 * usec_per_day)%Z Ht Hs He Hd)
    by reflexivity.
  unfold py_add_timedelta.
  destruct ((0 <=? wall start + 30 * usec_per_day)%Z
            && (wall start + 30 * usec_per_day <=? max_wall)%Z);
    [|reflexivity].
  replace (py_lt (VDate (mk_datetime (wall start + 30 * usec_per_day)
                           (utcoffset start))) (VDate start))
    with (inr false : res bool); [reflexivity|].
  unfold py_lt, common_line, utc. simpl.
  destruct (utcoffset start); simpl; f_equal; symmetry; apply Z.ltb_ge;
    unfold usec_per_day; lia.
Qed.

(** ** Checkout from CREATED *)

(** A call with the trigger name [checkout] on a CREATED loan: the request
    edge is not eligible, and the outcome is that of the date validation on
    the loan with the context written into it. *)
Lemma checkout_from_created cfg kwargs loan :
  loan !! "state" = Some (VStr "CREATED") ->
  kwargs !! "trigger" = Some (VStr "checkout") ->
  _Circulation_trigger cfg current_circulation kwargs loan
  = match _ensure_valid_loan cfg (with_context kwargs loan) with
    | (loan1, inr _) => (<["state" := VStr "ITEM_ON_LOAN"]> loan1, inr tt)
    | (loan1, inl e) =>
        if isinstance_TransitionValidationFailed e
        then (loan1, inl NoValidTransitionAvailable)
        else (loan1, inl e)
    end.
Proof.
  intros Hs Hk.
  rewrite (trigger_unfold _ _ _ _ "CREATED"
             [mk_transition CreatedToPending "CREATED" "PENDING"
                (Some "request");
              mk_transition CreatedToItemOnLoan "CREATED" "ITEM_ON_LOAN"
                (Some "checkout")]
             Hs);
    [|discriminate|by_running].
  simpl. unfold try_except, execute, before, mbind, M_bind. simpl.
  unfold CreatedToPending_before, CreatedToItemOnLoan_before, mbind, M_bind.
  rewrite Transition_before_rejects
    by (unfold trigger_matches; now rewrite Hk).
  simpl.
  rewrite Transition_before_accepts
    by (unfold trigger_matches; now rewrite Hk).
  destruct (_ensure_valid_loan cfg (with_context kwargs loan))
    as [loan1 [e|[]]]; [|reflexivity].
  now destruct (isinstance_TransitionValidationFailed e).
Qed.

Lemma start_defaulted_state transaction_date loan :
  start_defaulted transaction_date loan !! "state" = loan !! "state".
Proof.
  unfold start_defaulted. destruct (loan !! "start_date"); [reflexivity|].
  now rewrite lookup_insert_ne.
Qed.

(** The default validation policy accepts with [True] or raises
    [TransitionPoliciesViolation]; a [TypeError] comes from dates that
    cannot be subtracted. *)
Lemma is_loan_valid_cases loan start_date end_date :
  is_loan_valid loan start_date end_date = inr (VBool true)
  \/ is_loan_valid loan start_date end_date = inl TransitionPoliciesViolation
  \/ is_loan_valid loan start_date end_date = inl TypeError.
Proof.
  unfold is_loan_valid, py_sub, common_line, res_bind.
  destruct end_date as [| | | |d]; auto.
  destruct start_date as [| | | |d']; auto.
  destruct (utcoffset d), (utcoffset d'); auto; simpl;
    match goal with |- context [if ?c then _ else _] => destruct c end; auto.
Qed.

(** The statements of [_ensure_valid_loan] before the validation raise an
    [AssertionError] only if the duration policy does. *)
Lemma loan_period_no_assertion cfg loan :
  (forall l, duration_default cfg l <> inl AssertionError) ->
  snd (loan_period cfg loan) <> inl AssertionError.
Proof.
  intros Hd.
  unfold loan_period, mbind, M_bind, getitem, setdefault, dict_get, lift,
    the_loan, raise, mret, M_ret, parse_date, timedelta_days,
    py_add_timedelta, py_lt, common_line, res_bind.
  repeat (case_match; simplify_eq/=); try discriminate;
    intros [= ->]; eapply Hd; eassumption.
Qed.

(** The at-desk checkout never accepts: the base guard rejects it, a date
    does not parse, or the undefined name is reached. *)
Lemma ItemAtDeskToItemOnLoan_before_raises cfg t kwargs loan :
  snd (ItemAtDeskToItemOnLoan_before cfg t kwargs loan) <> inr tt.
Proof.
  unfold ItemAtDeskToItemOnLoan_before, parse_in_place, mbind, M_bind,
    Transition_before, dict_update, raise, dict_get, getitem, setitem, lift,
    mret, M_ret.
  repeat (case_match; simplify_eq/=); discriminate.
Qed.

(** ** The claims *)

(** C1. A call to [trigger] applies at most one transition. When it
    succeeds, the candidates before one candidate [t] were rejected by their
    guards, the call returns the loan as the execution of [t] left it (no
    later candidate runs), and the state of the loan is the destination of
    [t], one of the destinations declared for the state that the loan had
    before the call. When it fails, no candidate was executed to its end:
    the state was invalid, or every candidate was rejected by its guard, or
    the guard of a candidate raised an exception that is not caught. The
    declared destinations are those of the transition table of config.py. *)
Theorem trigger_applies_at_most_one_transition cfg kwargs loan loan' r :
  _Circulation_trigger cfg current_circulation kwargs loan = (loan', r) ->
  (r = inr tt ->
   exists s pre t post mid,
     loan !! "state" = Some (VStr s)
     /\ current_circulation !! s = Some (pre ++ t :: post)
     /\ soft_rejected cfg kwargs pre loan = Some mid
     /\ execute cfg t kwargs mid = (loan', inr tt)
     /\ loan' !! "state" = Some (VStr (dest t))
     /\ dest t ∈ declared_destinations s)
  /\ (forall e, r = inl e ->
      (e = InvalidState /\ loan' = loan)
      \/ exists s pre post mid,
           loan !! "state" = Some (VStr s)
           /\ current_circulation !! s = Some (pre ++ post)
           /\ soft_rejected cfg kwargs pre loan = Some mid
           /\ ((post = [] /\ e = NoValidTransitionAvailable /\ loan' = mid)
               \/ exists t post',
                    post = t :: post'
                    /\ before cfg t kwargs mid = (loan', inl e)
                    /\ isinstance_TransitionValidationFailed e = false))
  /\ declared_destinations "CREATED" = ["PENDING"; "ITEM_ON_LOAN"]
  /\ declared_destinations "PENDING"
     = ["ITEM_AT_DESK"; "ITEM_IN_TRANSIT_FOR_PICKUP"; "CANCELLED"]
  /\ declared_destinations "ITEM_AT_DESK" = ["ITEM_ON_LOAN"; "CANCELLED"]
  /\ declared_destinations "ITEM_IN_TRANSIT_FOR_PICKUP"
     = ["ITEM_AT_DESK"; "CANCELLED"]
  /\ declared_destinations "ITEM_ON_LOAN"
     = ["ITEM_RETURNED"; "ITEM_IN_TRANSIT_TO_HOUSE"; "CANCELLED"]
  /\ declared_destinations "ITEM_IN_TRANSIT_TO_HOUSE"
     = ["ITEM_RETURNED"; "CANCELLED"]
  /\ declared_destinations "ITEM_RETURNED" = []
  /\ declared_destinations "CANCELLED" = [].
Proof.
  intros H. split; [|split];
    [| |repeat (split; [by_running|]); by_running].
  - intros ->.
    destruct (trigger_returns _ _ _ _ _ H)
      as (s & pre & t & post & mid & Hs & Hc & Hrej & Hex).
    exists s, pre, t, post, mid.
    split; [exact Hs|]. split; [exact Hc|]. split; [exact Hrej|].
    split; [exact Hex|]. split.
    + eapply execute_state, Hex.
    + rewrite <- (current_circulation_destinations _ _ Hc).
      rewrite map_app. apply elem_of_app. right. apply elem_of_cons. now left.
  - intros e ->.
    destruct (trigger_cases cfg current_circulation kwargs loan)
      as [(s & candidates & Hs & _ & Hc & Heq) | Heq];
      rewrite Heq in H; [|left; injection H as <- <-; split; reflexivity].
    right.
    destruct (trigger_loop_cases cfg kwargs candidates loan)
      as [(mid & Hrej & Hl) | (pre & t & post & mid & -> & Hrej & Hl & Hk)];
      rewrite Hl in H.
    + exists s, candidates, [], mid. rewrite app_nil_r.
      injection H as <- <-.
      split; [exact Hs|]. split; [exact Hc|]. split; [exact Hrej|].
      left. split; [reflexivity|]. split; reflexivity.
    + exists s, pre, (t :: post), mid.
      split; [exact Hs|]. split; [exact Hc|]. split; [exact Hrej|].
      right. exists t, post. rewrite H in Hk. simpl in Hk.
      apply execute_raises in H.
      split; [reflexivity|]. split; [exact H | exact Hk].
Qed.

(** C2. In a call to [trigger], when the candidates before [t] were rejected
    softly and the guard of [t] raises [e]: a soft rejection
    ([TransitionConditionsFailed]) is caught and the call goes on with the
    candidates after [t]; a hard rejection ([TransitionConstraintsViolation],
    [TransitionPoliciesViolation], or any exception that is not a
    [TransitionValidationFailed]) is the outcome of the call, on the loan as
    the guard left it, whatever the candidates after [t]. No call to
    [trigger] raises [TransitionConditionsFailed]. *)
Theorem soft_rejection_caught_hard_rejection_propagates
    cfg self kwargs loan s pre t post mid loan1 e :
  loan !! "state" = Some (VStr s) -> s <> "" ->
  self !! s = Some (pre ++ t :: post) ->
  soft_rejected cfg kwargs pre loan = Some mid ->
  before cfg t kwargs mid = (loan1, inl e) ->
  (e = TransitionConditionsFailed ->
     _Circulation_trigger cfg self kwargs loan
     = trigger_loop cfg post kwargs loan1)
  /\ (e = TransitionConstraintsViolation \/ e = TransitionPoliciesViolation
      \/ isinstance_TransitionValidationFailed e = false ->
      _Circulation_trigger cfg self kwargs loan = (loan1, inl e))
  /\ (forall self' loan0,
        snd (_Circulation_trigger cfg self' kwargs loan0)
        <> inl TransitionConditionsFailed).
Proof.
  intros Hs Hne Hc Hrej Hb.
  rewrite (trigger_unfold _ _ _ _ _ _ Hs Hne Hc).
  rewrite (trigger_loop_skip _ _ _ _ _ _ Hrej). simpl.
  unfold try_except. apply execute_raises in Hb. rewrite Hb.
  repeat split.
  - now intros ->.
  - intros [He | [He | He]]; subst; try rewrite He; reflexivity.
  - intros self' loan0.
    destruct (trigger_cases cfg self' kwargs loan0)
      as [(s' & candidates & _ & _ & _ & Heq) | Heq]; rewrite Heq;
      [|discriminate].
    destruct (trigger_loop_cases cfg kwargs candidates loan0)
      as [(m & _ & Hl) | (pre' & t' & post' & m & _ & _ & Hl & Hk)];
      rewrite Hl; [discriminate|].
    destruct (execute cfg t' kwargs m) as [? [e'|[]]]; simpl in *;
      [|discriminate].
    intros [= ->]. discriminate.
Qed.

(** C3. A call to [trigger] without a trigger name, on a PENDING loan with
    an item and a pickup location (in the loan or in the context of the
    call), succeeds; the loan goes to ITEM_AT_DESK exactly when the location
    that the retriever gives for the item equals the pickup location, and to
    ITEM_IN_TRANSIT_FOR_PICKUP exactly when it does not. The two guards
    decide by the same comparison, one accepting where the other rejects. *)
Theorem pending_loan_at_desk_or_in_transit
    cfg kwargs loan item_pid pickup location :
  loan !! "state" = Some (VStr "PENDING") ->
  kwargs !! "trigger" = None ->
  with_context kwargs loan !! "item_pid" = Some item_pid ->
  with_context kwargs loan !! "pickup_location_pid" = Some pickup ->
  CIRCULATION_ITEM_LOCATION_RETRIEVER cfg item_pid = inr location ->
  exists d,
    _Circulation_trigger cfg current_circulation kwargs loan
    = (<["state" := VStr d]> (with_context kwargs loan), inr tt)
    /\ (d = "ITEM_AT_DESK" <-> py_eq pickup location = true)
    /\ (d = "ITEM_IN_TRANSIT_FOR_PICKUP" <-> py_eq pickup location = false)
    /\ (forall t t', trigger t = None -> trigger t' = None ->
          (snd (PendingToItemAtDesk_before cfg t kwargs loan) = inr tt
           <-> snd (PendingToItemInTransitPickup_before cfg t' kwargs loan)
               <> inr tt)).
Proof.
  intros Hs Hk Hi Hp Hr.
  exists (if py_eq pickup location
          then "ITEM_AT_DESK" else "ITEM_IN_TRANSIT_FOR_PICKUP").
  split; [|split; [|split]].
  - rewrite (trigger_unfold _ _ _ _ "PENDING"
               [mk_transition PendingToItemAtDesk "PENDING" "ITEM_AT_DESK" None;
                mk_transition PendingToItemInTransitPickup "PENDING"
                  "ITEM_IN_TRANSIT_FOR_PICKUP" None;
                mk_transition Transition "PENDING" "CANCELLED" (Some "cancel")]
               Hs);
      [|discriminate|by_running].
    simpl. unfold try_except, execute, before, mbind, M_bind. simpl.
    rewrite (PendingToItemAtDesk_before_eq _ _ _ _ _ _ _
               (automatic_matches
                  (mk_transition PendingToItemAtDesk "PENDING" "ITEM_AT_DESK"
                     None) _ Hk eq_refl) Hi Hp Hr).
    destruct (py_eq pickup location) eqn:Heq; [reflexivity|]. simpl.
    rewrite <- (with_context_idemp kwargs loan) in Hi, Hp.
    rewrite (PendingToItemInTransitPickup_before_eq _ _ _ _ _ _ _
               (automatic_matches
                  (mk_transition PendingToItemInTransitPickup "PENDING"
                     "ITEM_IN_TRANSIT_FOR_PICKUP" None) _ Hk eq_refl)
               Hi Hp Hr).
    rewrite Heq, with_context_idemp. reflexivity.
  - destruct (py_eq pickup location); split; congruence.
  - destruct (py_eq pickup location); split; congruence.
  - intros t t' Ht Ht'.
    rewrite (PendingToItemAtDesk_before_eq _ _ _ _ _ _ _
               (automatic_matches _ _ Hk Ht) Hi Hp Hr).
    rewrite (PendingToItemInTransitPickup_before_eq _ _ _ _ _ _ _
               (automatic_matches _ _ Hk Ht') Hi Hp Hr).
    destruct (py_eq pickup location); simpl; split; congruence.
Qed.

(** C4. A call to [trigger] without a trigger name (a check-in) on an
    ITEM_ON_LOAN loan with an item, a transaction location and a transaction
    date succeeds; the loan goes to ITEM_RETURNED when the transaction
    location equals the location that the retriever gives for the item, and
    to ITEM_IN_TRANSIT_TO_HOUSE when it does not; in both cases its
    [end_date] is its [transaction_date]. *)
Theorem check_in_returned_or_in_transit
    cfg kwargs loan item_pid place location transaction_date :
  loan !! "state" = Some (VStr "ITEM_ON_LOAN") ->
  kwargs !! "trigger" = None ->
  with_context kwargs loan !! "item_pid" = Some item_pid ->
  with_context kwargs loan !! "transaction_location_pid" = Some place ->
  with_context kwargs loan !! "transaction_date" = Some transaction_date ->
  CIRCULATION_ITEM_LOCATION_RETRIEVER cfg item_pid = inr location ->
  exists loan',
    _Circulation_trigger cfg current_circulation kwargs loan = (loan', inr tt)
    /\ loan' !! "state"
       = Some (VStr (if py_eq place location
                     then "ITEM_RETURNED" else "ITEM_IN_TRANSIT_TO_HOUSE"))
    /\ loan' !! "end_date" = Some transaction_date
    /\ loan' !! "transaction_date" = Some transaction_date.
Proof.
  intros Hs Hk Hi Hp Hd Hr.
  exists (<["state" := VStr (if py_eq place location
                             then "ITEM_RETURNED"
                             else "ITEM_IN_TRANSIT_TO_HOUSE")]>
            (<["end_date" := transaction_date]> (with_context kwargs loan))).
  split; [|split; [|split]].
  - rewrite (trigger_unfold _ _ _ _ "ITEM_ON_LOAN"
               [mk_transition ItemOnLoanToItemReturned "ITEM_ON_LOAN"
                  "ITEM_RETURNED" None;
                mk_transition ItemOnLoanToItemInTransitHouse "ITEM_ON_LOAN"
                  "ITEM_IN_TRANSIT_TO_HOUSE" None;
                mk_transition Transition "ITEM_ON_LOAN" "CANCELLED"
                  (Some "cancel")]
               Hs);
      [|discriminate|by_running].
    simpl. unfold try_except, execute, before, mbind, M_bind. simpl.
    rewrite (ItemOnLoanToItemReturned_before_eq _ _ _ _ _ _ _ _
               (automatic_matches
                  (mk_transition ItemOnLoanToItemReturned "ITEM_ON_LOAN"
                     "ITEM_RETURNED" None) _ Hk eq_refl) Hi Hp Hd Hr).
    destruct (py_eq place location) eqn:Heq; [reflexivity|]. simpl.
    rewrite <- (with_context_idemp kwargs loan) in Hi, Hp, Hd.
    rewrite (ItemOnLoanToItemInTransitHouse_before_eq _ _ _ _ _ _ _ _
               (automatic_matches
                  (mk_transition ItemOnLoanToItemInTransitHouse "ITEM_ON_LOAN"
                     "ITEM_IN_TRANSIT_TO_HOUSE" None) _ Hk eq_refl)
               Hi Hp Hd Hr).
    rewrite Heq, with_context_idemp. reflexivity.
  - apply lookup_insert_eq.
  - rewrite lookup_insert_ne by discriminate. apply lookup_insert_eq.
  - rewrite !lookup_insert_ne by discriminate. exact Hd.
Qed.

(** C5. A checkout of a CREATED loan ([trigger] with the name [checkout])
    whose given end date parses to a datetime strictly earlier than its
    start date (the given one, or the transaction date by default) raises
    [TransitionConstraintsViolation], and the state of the loan is still
    CREATED. The context of the call is assumed not to carry a [state]. *)
Theorem checkout_with_inverted_dates_fails
    cfg kwargs loan transaction_date end_date start ending :
  loan !! "state" = Some (VStr "CREATED") ->
  kwargs !! "trigger" = Some (VStr "checkout") ->
  kwargs !! "state" = None ->
  with_context kwargs loan !! "transaction_date" = Some transaction_date ->
  parse_date (default transaction_date
                (with_context kwargs loan !! "start_date"))
  = inr (VDate start) ->
  with_context kwargs loan !! "end_date" = Some end_date ->
  parse_date end_date = inr (VDate ending) ->
  py_lt (VDate ending) (VDate start) = inr true ->
  exists loan',
    _Circulation_trigger cfg current_circulation kwargs loan
    = (loan', inl TransitionConstraintsViolation)
    /\ loan' !! "state" = Some (VStr "CREATED").
Proof.
  intros Hs Hk Hks Ht Hstart He Hend Hlt.
  exists (start_defaulted transaction_date (with_context kwargs loan)).
  split.
  - rewrite (checkout_from_created _ _ _ Hs Hk).
    rewrite _ensure_valid_loan_period.
    rewrite (loan_period_given _ _ _ _ _ _ Ht Hstart He Hend).
    rewrite Hlt. reflexivity.
  - rewrite start_defaulted_state, with_context_state; assumption.
Qed.

(** C6. A checkout of a CREATED loan without an end date, whose start date
    is absent or is the transaction date, under the default duration policy
    (30 days): when the call succeeds, the loan is ITEM_ON_LOAN, its
    [start_date] is the text of the parsed transaction date and its
    [end_date] the text of that date 30 days later. The call does succeed
    under the default validation policy, when the later date is a date of
    the calendar. *)
Theorem checkout_default_duration
    cfg kwargs loan transaction_date start :
  loan !! "state" = Some (VStr "CREATED") ->
  kwargs !! "trigger" = Some (VStr "checkout") ->
  with_context kwargs loan !! "transaction_date" = Some transaction_date ->
  (with_context kwargs loan !! "start_date" = None
   \/ with_context kwargs loan !! "start_date" = Some transaction_date) ->
  with_context kwargs loan !! "end_date" = None ->
  parse_date transaction_date = inr (VDate start) ->
  (forall l, duration_default cfg l = inr (get_default_loan_duration l)) ->
  (forall loan',
      _Circulation_trigger cfg current_circulation kwargs loan
      = (loan', inr tt) ->
      loan' !! "state" = Some (VStr "ITEM_ON_LOAN")
      /\ loan' !! "start_date" = Some (VStr (isoformat start))
      /\ loan' !! "end_date"
         = Some (VStr (isoformat
                         (mk_datetime (wall start + 30 * usec_per_day)
                            (utcoffset start)))))
  /\ ((forall l a b, validate cfg l a b = is_loan_valid l a b) ->
      (0 <= wall start)%Z ->
      (wall start + 30 * usec_per_day <= max_wall)%Z ->
      exists loan',
        _Circulation_trigger cfg current_circulation kwargs loan
        = (loan', inr tt)).
Proof.
  intros Hs Hk Ht Hstart He Hparse Hdur.
  set (ending :=
         mk_datetime (wall start + 30 * usec_per_day) (utcoffset start)).
  set (loan1 := start_defaulted transaction_date (with_context kwargs loan)).
  assert (parse_date (default transaction_date
                        (with_context kwargs loan !! "start_date"))
          = inr (VDate start)) as Hstart'
    by (now destruct Hstart as [-> | ->]).
  assert (loan_period cfg (with_context kwargs loan)
          = (loan1,
             match py_add_timedelta (VDate start) (30 * usec_per_day) with
             | inl e => inl e
             | inr ending => inr (VDate start, ending)
             end)) as Hperiod.
  { apply loan_period_thirty_days; try assumption.
    - now rewrite He.
    - apply Hdur. }
  rewrite (checkout_from_created _ _ _ Hs Hk), _ensure_valid_loan_period,
    Hperiod.
  unfold py_add_timedelta. fold ending.
  split.
  - intros loan'.
    destruct ((0 <=? wall start + 30 * usec_per_day)%Z
              && (wall start + 30 * usec_per_day <=? max_wall)%Z);
      [|discriminate].
    destruct (validate cfg loan1 (VDate start) (VDate ending)) as [e|v].
    { destruct (isinstance_TransitionValidationFailed e); discriminate. }
    destruct (truthy v); [|discriminate]. simpl.
    intros [= <-]. split; [|split].
    + apply lookup_insert_eq.
    + rewrite !lookup_insert_ne by discriminate. apply lookup_insert_eq.
    + rewrite lookup_insert_ne by discriminate. apply lookup_insert_eq.
  - intros Hval Hlo Hhi.
    replace ((0 <=? wall start + 30 * usec_per_day)%Z) with true
      by (symmetry; apply Z.leb_le; unfold usec_per_day; lia).
    replace ((wall start + 30 * usec_per_day <=? max_wall)%Z) with true
      by (symmetry; now apply Z.leb_le).
    simpl. rewrite Hval.
    assert (is_loan_valid loan1 (VDate start) (VDate ending)
            = inr (VBool true)) as ->.
    { unfold is_loan_valid, py_sub, common_line, utc, ending, res_bind. simpl.
      destruct (utcoffset start); simpl;
        match goal with
        | |- (if ?c then _ else _) = _ =>
            replace c with false
              by (symmetry; apply Z.ltb_ge; unfold usec_per_day; lia)
        end; reflexivity. }
    simpl. eauto.
Qed.

(** ** The availability of an item *)

(** The states in which config.py declares an item available are
    terminal. *)
Lemma available_states_are_terminal s :
  s ∈ CIRCULATION_STATES_ITEM_AVAILABLE -> s ∈ terminal_states.
Proof.
  intros H. apply elem_of_cons in H as [->|H].
  - apply (bool_decide_unpack _). by_running.
  - now apply elem_of_nil in H.
Qed.

Lemma is_non_terminal_cases loan :
  is_non_terminal loan = true
  <-> exists s, loan !! "state" = Some (VStr s) /\ s ∉ terminal_states.
Proof.
  unfold is_non_terminal, loan_state. split.
  - destruct (loan !! "state") as [[| | |s|]|]; try discriminate.
    rewrite negb_true_iff, bool_decide_eq_false. eauto.
  - intros (s & -> & H). now rewrite negb_true_iff, bool_decide_eq_false.
Qed.

(** A loan that the query returns is in a state of the unavailable set. *)
Lemma non_terminal_is_unavailable loan :
  is_non_terminal loan = true -> in_unavailable_state loan = true.
Proof.
  unfold is_non_terminal, in_unavailable_state.
  destruct (loan_state loan) as [s|]; [|discriminate].
  rewrite !negb_true_iff, !bool_decide_eq_false.
  intros H H'. now apply H, available_states_are_terminal.
Qed.

Lemma item_unavailable_cases store item_pid :
  api_is_item_available store item_pid = false
  <-> exists loan s,
        loan ∈ loans_on item_pid store
        /\ loan !! "state" = Some (VStr s)
        /\ s ∉ terminal_states.
Proof.
  unfold api_is_item_available.
  rewrite negb_false_iff, existsb_exists. split.
  - intros (loan & Hin & _). apply filter_In in Hin as [Hin Hnt].
    apply is_non_terminal_cases in Hnt as (s & Hs & Ht).
    exists loan, s. split; [now apply list_elem_of_In|]. auto.
  - intros (loan & s & Hin & Hs & Ht).
    assert (is_non_terminal loan = true) as Hnt
      by (apply is_non_terminal_cases; eauto).
    exists loan. split; [|now apply non_terminal_is_unavailable].
    apply filter_In. split; [now apply list_elem_of_In|exact Hnt].
Qed.

(** C8. The item-availability predicate answers that an item is unavailable
    exactly when some loan on the item is in a state that is not terminal,
    the terminal states being ITEM_RETURNED and CANCELLED. So a loan on the
    item that is PENDING, ITEM_ON_LOAN, ITEM_IN_TRANSIT_FOR_PICKUP or
    ITEM_AT_DESK makes it unavailable; the item is available when every loan
    on it is ITEM_RETURNED or CANCELLED, and when it has no loan at all. *)
Theorem item_unavailable_iff_a_loan_is_not_terminal
    (store : list Loan) (item_pid : value) :
  terminal_states = ["ITEM_RETURNED"; "CANCELLED"]
  /\ (api_is_item_available store item_pid = false
      <-> exists loan s,
            loan ∈ loans_on item_pid store
            /\ loan !! "state" = Some (VStr s)
            /\ s ∉ terminal_states)
  /\ ((exists loan s,
          loan ∈ loans_on item_pid store
          /\ loan !! "state" = Some (VStr s)
          /\ s ∈ unavailable_states) ->
      api_is_item_available store item_pid = false)
  /\ ((forall loan,
          loan ∈ loans_on item_pid store ->
          loan !! "state" = Some (VStr "ITEM_RETURNED")
          \/ loan !! "state" = Some (VStr "CANCELLED")) ->
      api_is_item_available store item_pid = true)
  /\ (loans_on item_pid store = [] ->
      api_is_item_available store item_pid = true).
Proof.
  split; [by_running|]. split; [apply item_unavailable_cases|].
  split; [|split].
  - intros (loan & s & Hin & Hs & Hu).
    apply item_unavailable_cases. exists loan, s.
    split; [exact Hin|]. split; [exact Hs|].
    repeat (apply elem_of_cons in Hu as [->|Hu];
            [apply (bool_decide_unpack _); by_running|]).
    now apply elem_of_nil in Hu.
  - intros Hall.
    destruct (api_is_item_available store item_pid) eqn:E; [reflexivity|].
    apply item_unavailable_cases in E as (loan & s & Hin & Hs & Ht).
    exfalso. apply Ht.
    destruct (Hall loan Hin) as [H|H]; rewrite H in Hs;
      injection Hs as <-; apply (bool_decide_unpack _); by_running.
  - intros Hnone. unfold api_is_item_available. now rewrite Hnone.
Qed.

(** C10. [_ensure_valid_loan] checks the answer of the validation policy
    with a bare [assert]: when the policy returns a falsy answer for the
    period of the loan, [_ensure_valid_loan] raises [AssertionError], which
    is none of the transition errors. The assertion cannot fail when the
    policy only returns truthy answers, and then no [AssertionError] comes
    out of [_ensure_valid_loan] unless a policy raises one itself; the
    default policy [is_loan_valid] is such a policy: it returns [True] or
    raises. *)
Theorem falsy_validation_raises_assertion_error
    cfg loan loan1 start_date end_date answer :
  loan_period cfg loan = (loan1, inr (start_date, end_date)) ->
  validate cfg loan1 start_date end_date = inr answer ->
  truthy answer = false ->
  _ensure_valid_loan cfg loan = (loan1, inl AssertionError)
  /\ (forall cfg',
        (forall l a b,
            match validate cfg' l a b with
            | inr v => truthy v = true
            | inl e => e <> AssertionError
            end) ->
        (forall l, duration_default cfg' l <> inl AssertionError) ->
        forall loan0,
          snd (_ensure_valid_loan cfg' loan0) <> inl AssertionError)
  /\ (forall l a b,
        match is_loan_valid l a b with
        | inr v => truthy v = true
        | inl e => e <> AssertionError
        end).
Proof.
  intros Hp Hv Ha.
  split; [|split].
  - rewrite _ensure_valid_loan_period, Hp, Hv, Ha. reflexivity.
  - intros cfg' Hvalid Hdur loan0.
    rewrite _ensure_valid_loan_period.
    pose proof (loan_period_no_assertion cfg' loan0 Hdur) as Hperiod.
    destruct (loan_period cfg' loan0) as [l1 [e|[s e]]];
      [simpl in *; intros [= ->]; now apply Hperiod|].
    specialize (Hvalid l1 s e).
    destruct (validate cfg' l1 s e) as [e'|v]; simpl.
    + congruence.
    + rewrite Hvalid. unfold call_isoformat.
      destruct s, e; simpl; discriminate.
  - intros l a b.
    destruct (is_loan_valid_cases l a b) as [-> | [-> | ->]];
      [reflexivity | discriminate | discriminate].
Qed.

(** The [AssertionError] of a checkout goes through [trigger] as it is. *)
Lemma checkout_assertion_error_propagates cfg kwargs loan loan1 :
  loan !! "state" = Some (VStr "CREATED") ->
  kwargs !! "trigger" = Some (VStr "checkout") ->
  _ensure_valid_loan cfg (with_context kwargs loan)
  = (loan1, inl AssertionError) ->
  _Circulation_trigger cfg current_circulation kwargs loan
  = (loan1, inl AssertionError).
Proof.
  intros Hs Hk He.
  rewrite (checkout_from_created _ _ _ Hs Hk), He. reflexivity.
Qed.

(** ** Construction of the engine and the heap *)

Lemma pop_transition_heap t h : (pop_transition t h).1 = popped t h.
Proof.
  unfold pop_transition, popped.
  destruct (h !! t) as [d|] eqn:E; simpl; apply list_eq; intros i;
    destruct (decide (t = i)) as [<-|Hne].
  - rewrite list_lookup_alter_eq, E.
    apply list_lookup_insert_eq, (lookup_lt_Some _ _ _ E).
  - now rewrite list_lookup_alter_ne, list_lookup_insert_ne.
  - now rewrite list_lookup_alter_eq, E.
  - now rewrite list_lookup_alter_ne.
Qed.

Lemma make_instance_heap src_state t h :
  (make_instance src_state t h).1 = popped t h.
Proof.
  unfold make_instance. rewrite <- pop_transition_heap.
  destruct (pop_transition t h) as [h' [name|c]]; reflexivity.
Qed.

Lemma popped_length t h : length (popped t h) = length h.
Proof. apply length_alter. Qed.

Lemma popped_lookup_ne t h i : t <> i -> popped t h !! i = h !! i.
Proof. apply list_lookup_alter_ne. Qed.

Lemma popped_lookup_eq t h :
  popped t h !! t = delete "transition" <$> h !! t.
Proof. apply list_lookup_alter_eq. Qed.

(** Whatever its outcome, the inner loop keeps the size of the heap and the
    descriptors that are not in its list. *)
Lemma init_state_frame src_state transitions self h :
  length (init_state src_state transitions self h).1 = length h
  /\ forall i, i ∉ transitions ->
       (init_state src_state transitions self h).1 !! i = h !! i.
Proof.
  revert self h. induction transitions as [|t rest IH]; intros self h; simpl.
  - auto.
  - pose proof (make_instance_heap src_state t h) as Hm.
    destruct (make_instance src_state t h) as [h1 [e|instance]];
      simpl in Hm; subst h1.
    + simpl. split; [apply popped_length|].
      intros i Hi. apply popped_lookup_ne. intros ->. apply Hi. now left.
    + destruct (IH (<[src_state :=
                        default [] (self !! src_state) ++ [instance]]> self)
                  (popped t h)) as [Hlen Hframe].
      split; [now rewrite Hlen, popped_length|].
      intros i Hi. rewrite Hframe by (intros ?; apply Hi; now right).
      apply popped_lookup_ne. intros ->. apply Hi. now left.
Qed.

(** When the inner loop succeeds, every descriptor of its list has lost its
    key [transition] and nothing else. *)
Lemma init_state_pops src_state transitions self h h' self' :
  init_state src_state transitions self h = (h', inr self') ->
  forall i, i ∈ transitions -> h' !! i = delete "transition" <$> h !! i.
Proof.
  revert self h. induction transitions as [|t rest IH]; intros self h; simpl.
  - intros _ i Hi. now apply not_elem_of_nil in Hi.
  - pose proof (make_instance_heap src_state t h) as Hm.
    destruct (make_instance src_state t h) as [h1 [e|instance]];
      simpl in Hm; subst h1; [discriminate|].
    intros Hinit i Hi.
    destruct (decide (i ∈ rest)) as [Hin|Hout].
    + rewrite (IH _ _ Hinit i Hin).
      destruct (decide (t = i)) as [<-|Hne].
      * rewrite popped_lookup_eq. destruct (h !! t); simpl; [|reflexivity].
        now rewrite delete_delete_eq.
      * now rewrite popped_lookup_ne.
    + apply elem_of_cons in Hi as [->|Hi]; [|contradiction].
      pose proof (init_state_frame src_state rest
                    (<[src_state := default [] (self !! src_state)
                                    ++ [instance]]> self) (popped t h))
        as [_ Hframe].
      rewrite Hinit in Hframe. simpl in Hframe.
      rewrite (Hframe t Hout). apply popped_lookup_eq.
Qed.

Lemma init_states_frame transitions_config self h :
  length (init_states transitions_config self h).1 = length h
  /\ forall i, i ∉ config_refs transitions_config ->
       (init_states transitions_config self h).1 !! i = h !! i.
Proof.
  revert self h.
  induction transitions_config as [|[src_state transitions] rest IH];
    intros self h; simpl.
  - auto.
  - set (self1 := match self !! src_state with
                  | Some _ => self
                  | None => <[src_state := []]> self
                  end).
    destruct (init_state_frame src_state transitions self1 h) as [Hlen Hframe].
    unfold config_refs in *. simpl.
    destruct (init_state src_state transitions self1 h) as [h1 [e|self2]];
      simpl in *.
    + split; [exact Hlen|].
      intros i Hi. apply Hframe. intros ?. apply Hi, elem_of_app. now left.
    + destruct (IH self2 h1) as [Hlen' Hframe'].
      split; [now rewrite Hlen'|].
      intros i Hi. rewrite Hframe'.
      * apply Hframe. intros ?. apply Hi, elem_of_app. now left.
      * intros ?. apply Hi, elem_of_app. now right.
Qed.

Lemma init_states_pops transitions_config self h h' self' :
  init_states transitions_config self h = (h', inr self') ->
  forall i, i ∈ config_refs transitions_config ->
    h' !! i = delete "transition" <$> h !! i.
Proof.
  revert self h.
  induction transitions_config as [|[src_state transitions] rest IH];
    intros self h; simpl.
  - intros _ i Hi. now apply not_elem_of_nil in Hi.
  - set (self1 := match self !! src_state with
                  | Some _ => self
                  | None => <[src_state := []]> self
                  end).
    destruct (init_state src_state transitions self1 h) as [h1 [e|self2]] eqn:E;
      [discriminate|].
    intros Hinit i Hi. unfold config_refs in *. simpl in Hi.
    pose proof (init_state_frame src_state transitions self1 h) as [_ Hframe].
    rewrite E in Hframe. simpl in Hframe.
    pose proof (init_states_frame rest self2 h1) as [_ Hframe'].
    rewrite Hinit in Hframe'. simpl in Hframe'.
    destruct (decide (i ∈ concat (map snd rest))) as [Hin|Hout].
    + rewrite (IH _ _ Hinit i Hin).
      destruct (decide (i ∈ transitions)) as [Hin'|Hout'].
      * rewrite (init_state_pops _ _ _ _ _ _ E i Hin').
        destruct (h !! i); simpl; [|reflexivity]. now rewrite delete_delete_eq.
      * now rewrite (Hframe i Hout').
    + apply elem_of_app in Hi as [Hi|Hi]; [|contradiction].
      rewrite (Hframe' i Hout). apply (init_state_pops _ _ _ _ _ _ E i Hi).
Qed.

(** [deepcopy] only adds objects to the heap, and the references of the copy
    are to objects that it added. *)
Lemma deepcopy_refs_fresh base refs memo h :
  base <= length h ->
  map_Forall (fun _ t' => base <= t') memo ->
  exists copies,
    (deepcopy_refs refs memo h).1.2 = h ++ copies
    /\ map_Forall (fun _ t' => base <= t') (deepcopy_refs refs memo h).1.1
    /\ Forall (fun t' => base <= t') (deepcopy_refs refs memo h).2.
Proof.
  revert memo h. induction refs as [|t rest IH]; intros memo h Hbase Hmemo.
  - exists []. simpl. rewrite app_nil_r. auto.
  - simpl. destruct (memo !! t) as [t'|] eqn:E.
    + destruct (IH memo h Hbase Hmemo) as (copies & Hh & Hm & Hout).
      destruct (deepcopy_refs rest memo h) as [[memo' h'] out]. simpl in *.
      exists copies. repeat split; try assumption.
      constructor; [|assumption]. exact (map_Forall_lookup_1 _ _ _ _ Hmemo E).
    + destruct (IH (<[t := length h]> memo) (h ++ [default ∅ (h !! t)]))
        as (copies & Hh & Hm & Hout).
      * rewrite length_app. lia.
      * now apply map_Forall_insert_2.
      * destruct (deepcopy_refs rest (<[t := length h]> memo)
                    (h ++ [default ∅ (h !! t)])) as [[memo' h'] out].
        simpl in *.
        exists (default ∅ (h !! t) :: copies).
        rewrite Hh, <- app_assoc. repeat split; try assumption.
        constructor; assumption.
Qed.

Lemma deepcopy_config_fresh base transitions_config memo h :
  base <= length h ->
  map_Forall (fun _ t' => base <= t') memo ->
  exists copies,
    (deepcopy_config transitions_config memo h).1 = h ++ copies
    /\ Forall (fun t' => base <= t')
         (config_refs (deepcopy_config transitions_config memo h).2).
Proof.
  revert memo h.
  induction transitions_config as [|[src_state transitions] rest IH];
    intros memo h Hbase Hmemo.
  - exists []. simpl. rewrite app_nil_r. split; [reflexivity|constructor].
  - simpl.
    destruct (deepcopy_refs_fresh base transitions memo h Hbase Hmemo)
      as (copies & Hh & Hm & Hout).
    destruct (deepcopy_refs transitions memo h) as [[memo' h'] out].
    simpl in *. subst h'.
    destruct (IH memo' (h ++ copies)) as (copies' & Hh' & Hout');
      [rewrite length_app; lia | assumption |].
    destruct (deepcopy_config rest memo' (h ++ copies)) as [h'' rest'].
    simpl in *. subst h''.
    exists (copies ++ copies'). rewrite app_assoc. split; [reflexivity|].
    unfold config_refs in *. simpl. apply Forall_app. auto.
Qed.

(** C9, as amended. [_Circulation.__init__] changes the configuration it is
    given: when it succeeds, every descriptor of that configuration has lost
    its key [transition], and nothing else in the heap has changed.
    [InvenioCirculation.circulation] builds the engine from a deep copy of
    the configured table: whatever the outcome, the heap of the caller is
    extended with new objects and none of its objects is changed, so the
    descriptors of the configured table keep all their keys. The engine
    itself holds no reference to a descriptor. *)
Theorem construction_mutates_only_the_copy
    transitions_config h h' self app_transitions g :
  _Circulation_init transitions_config h = (h', inr self) ->
  length h' = length h
  /\ (forall t, t ∈ config_refs transitions_config ->
        h' !! t = delete "transition" <$> h !! t)
  /\ (forall t, t ∉ config_refs transitions_config -> h' !! t = h !! t)
  /\ (exists copies,
        (InvenioCirculation_circulation app_transitions g).1 = g ++ copies)
  /\ (forall t d,
        g !! t = Some d ->
        (InvenioCirculation_circulation app_transitions g).1 !! t = Some d).
Proof.
  intros Hinit. unfold _Circulation_init in Hinit.
  pose proof (init_states_frame transitions_config ∅ h) as [Hlen Hframe].
  rewrite Hinit in Hlen, Hframe. simpl in Hlen, Hframe.
  split; [exact Hlen|]. split; [exact (init_states_pops _ _ _ _ _ Hinit)|].
  split; [exact Hframe|].
  assert (exists copies,
             (InvenioCirculation_circulation app_transitions g).1 = g ++ copies)
    as Hext.
  { unfold InvenioCirculation_circulation, deepcopy, _Circulation_init.
    destruct (deepcopy_config_fresh (length g) app_transitions ∅ g)
      as (copies & Hh & Hout); [lia | apply map_Forall_empty |].
    destruct (deepcopy_config app_transitions ∅ g) as [g1 copy].
    simpl in *. subst g1.
    pose proof (init_states_frame copy ∅ (g ++ copies)) as [Hlen' Hframe'].
    exists (drop (length g) (init_states copy ∅ (g ++ copies)).1).
    apply list_eq. intros i.
    destruct (decide (i < length g)) as [Hlt|Hge].
    - rewrite lookup_app_l by exact Hlt.
      rewrite Hframe'; [now apply lookup_app_l|].
      intros Hin. rewrite Forall_forall in Hout.
      specialize (Hout i Hin). lia.
    - rewrite lookup_app_r by lia. rewrite lookup_drop. f_equal. lia. }
  split; [exact Hext|].
  intros t d Hd. destruct Hext as (copies & ->).
  rewrite lookup_app_l; [exact Hd | exact (lookup_lt_Some _ _ _ Hd)].
Qed.

(** ** More on the dates of a checkout *)

Lemma start_defaulted_start transaction_date loan :
  start_defaulted transaction_date loan !! "start_date"
  = Some (default transaction_date (loan !! "start_date")).
Proof.
  unfold start_defaulted. destruct (loan !! "start_date") eqn:E; simpl.
  - exact E.
  - apply lookup_insert_eq.
Qed.

Lemma start_defaulted_other transaction_date loan key :
  key <> "start_date" ->
  start_defaulted transaction_date loan !! key = loan !! key.
Proof.
  intros Hne. unfold start_defaulted.
  destruct (loan !! "start_date"); [reflexivity|].
  now rewrite lookup_insert_ne.
Qed.

(** Writing the start date over its default is writing it over the loan. *)
Lemma insert_start_defaulted transaction_date loan v :
  <["start_date" := v]> (start_defaulted transaction_date loan)
  = <["start_date" := v]> loan.
Proof.
  unfold start_defaulted. destruct (loan !! "start_date"); [reflexivity|].
  apply insert_insert_eq.
Qed.

(** The computation of the period, step by step, is the function [period]
    on the loan with its start date defaulted. *)
Lemma loan_period_eq cfg loan :
  loan_period cfg loan
  = match loan !! "transaction_date" with
    | None => (loan, inl KeyError)
    | Some transaction_date =>
        (start_defaulted transaction_date loan,
         period cfg transaction_date loan)
    end.
Proof.
  unfold loan_period, mbind, M_bind, getitem.
  destruct (loan !! "transaction_date") as [td|]; [|reflexivity].
  unfold setdefault.
  replace (match loan !! "start_date" with
           | Some _ => (loan, inr ())
           | None => (<["start_date" := td]> loan, inr ())
           end) with (start_defaulted td loan, inr () : res unit)
    by (unfold start_defaulted; now destruct (loan !! "start_date")).
  unfold dict_get, lift, the_loan, period, res_bind, raise, mret, M_ret.
  rewrite start_defaulted_start.
  rewrite (start_defaulted_other td loan "end_date") by discriminate.
  simpl.
  destruct (parse_date (default td (loan !! "start_date"))) as [e|s];
    [reflexivity|].
  destruct (parse_date (default VNone (loan !! "end_date"))) as [e|given];
    [reflexivity|].
  destruct (truthy given); simpl.
  - destruct (py_lt given s) as [e|[|]]; try reflexivity.
    rewrite start_defaulted_start.
    rewrite (start_defaulted_other td loan "end_date") by discriminate.
    now destruct (loan !! "end_date").
  - destruct (duration_default cfg (start_defaulted td loan)) as [e|n];
      [reflexivity|]. simpl.
    destruct (timedelta_days n) as [e|delta]; [reflexivity|]. simpl.
    destruct (py_add_timedelta s delta) as [e|a]; [reflexivity|]. simpl.
    destruct (py_lt a s) as [e|[|]]; try reflexivity.
    rewrite start_defaulted_start.
    rewrite (start_defaulted_other td loan "end_date") by discriminate.
    now destruct (loan !! "end_date").
Qed.

(** A comparison that is defined compares two datetimes of the same kind,
    by their time in UTC when they are aware. *)
Lemma py_lt_dates a b r :
  py_lt a b = inr r ->
  exists da db,
    a = VDate da /\ b = VDate db
    /\ (utcoffset da = None <-> utcoffset db = None)
    /\ r = (utc da <? utc db)%Z.
Proof.
  unfold py_lt, common_line, res_bind.
  destruct a as [| | | |da]; try discriminate.
  destruct b as [| | | |db]; try discriminate.
  destruct (utcoffset da) eqn:Ea, (utcoffset db) eqn:Eb; try discriminate;
    simpl; intros [= <-]; exists da, db; rewrite Ea, Eb;
    repeat split; congruence.
Qed.

Lemma py_lt_same_kind da db :
  (utcoffset da = None <-> utcoffset db = None) ->
  py_lt (VDate da) (VDate db) = inr (utc da <? utc db)%Z.
Proof.
  intros [H1 H2]. unfold py_lt, common_line, res_bind.
  destruct (utcoffset da) eqn:Ea, (utcoffset db) eqn:Eb; try reflexivity.
  - discriminate (H2 eq_refl).
  - discriminate (H1 eq_refl).
Qed.

(** The dates of a period are two datetimes in order. *)
Lemma period_returns cfg transaction_date loan s e :
  period cfg transaction_date loan = inr (s, e) ->
  exists sd ed,
    s = VDate sd /\ e = VDate ed
    /\ parse_date (default transaction_date (loan !! "start_date"))
       = inr (VDate sd)
    /\ (utcoffset sd = None <-> utcoffset ed = None)
    /\ (utc sd <= utc ed)%Z.
Proof.
  unfold period, res_bind.
  destruct (parse_date (default transaction_date (loan !! "start_date")))
    as [?|s0]; [discriminate|].
  destruct (parse_date (default VNone (loan !! "end_date"))) as [?|given];
    [discriminate|].
  match goal with
  | |- match ?x with inl _ => _ | inr _ => _ end = _ -> _ =>
      destruct x as [?|e0]; [discriminate|]
  end.
  destruct (py_lt e0 s0) as [?|inverted] eqn:Hlt; [discriminate|].
  destruct (py_lt_dates _ _ _ Hlt) as (ed & sd & -> & -> & Hkind & ->).
  destruct (utc ed <? utc sd)%Z eqn:Hcmp.
  - destruct (loan !! "end_date"); discriminate.
  - intros [= <- <-]. exists sd, ed.
    repeat split; try reflexivity; try tauto. now apply Z.ltb_ge.
Qed.

(** [_ensure_valid_loan] as a function of the loan. *)
Lemma _ensure_valid_loan_eq cfg loan :
  _ensure_valid_loan cfg loan
  = match loan !! "transaction_date" with
    | None => (loan, inl KeyError)
    | Some transaction_date =>
        let loan1 := start_defaulted transaction_date loan in
        match period cfg transaction_date loan with
        | inl e => (loan1, inl e)
        | inr (VDate sd, VDate ed) =>
            match validate cfg loan1 (VDate sd) (VDate ed) with
            | inl e => (loan1, inl e)
            | inr is_valid =>
                if truthy is_valid
                then (<["end_date" := VStr (isoformat ed)]>
                        (<["start_date" := VStr (isoformat sd)]> loan),
                      inr tt)
                else (loan1, inl AssertionError)
            end
        | inr _ => (loan1, inl TypeError)
        end
    end.
Proof.
  rewrite _ensure_valid_loan_period, loan_period_eq.
  destruct (loan !! "transaction_date") as [td|]; [|reflexivity].
  destruct (period cfg td loan) as [e|[s e]] eqn:Hp; [reflexivity|].
  destruct (period_returns _ _ _ _ _ Hp) as (sd & ed & -> & -> & _).
  cbv zeta.
  destruct (validate cfg (start_defaulted td loan) (VDate sd) (VDate ed))
    as [e|v]; [reflexivity|].
  destruct (truthy v); [|reflexivity]. simpl.
  now rewrite insert_start_defaulted.
Qed.

(** The default validation policy on two datetimes of the same kind. *)
Lemma is_loan_valid_same_kind loan sd ed :
  (utcoffset sd = None <-> utcoffset ed = None) ->
  is_loan_valid loan (VDate sd) (VDate ed)
  = if (60 * usec_per_day <? utc ed - utc sd)%Z
    then inl TransitionPoliciesViolation
    else inr (VBool true).
Proof.
  intros [H1 H2]. unfold is_loan_valid, py_sub, common_line, res_bind.
  destruct (utcoffset ed) eqn:Ee, (utcoffset sd) eqn:Es;
    try discriminate (H1 eq_refl); try discriminate (H2 eq_refl);
    reflexivity.
Qed.

(** The period of a loan whose end date is given and parses. *)
Lemma period_given cfg transaction_date loan end_date sd ed :
  parse_date (default transaction_date (loan !! "start_date"))
  = inr (VDate sd) ->
  loan !! "end_date" = Some end_date ->
  parse_date end_date = inr (VDate ed) ->
  (utcoffset sd = None <-> utcoffset ed = None) ->
  period cfg transaction_date loan
  = if (utc ed <? utc sd)%Z then inl TransitionConstraintsViolation
    else inr (VDate sd, VDate ed).
Proof.
  intros Hs He Hp Hkind. unfold period, res_bind.
  rewrite Hs, He. simpl. rewrite Hp. simpl.
  rewrite py_lt_same_kind by tauto.
  now destruct (utc ed <? utc sd)%Z.
Qed.

(** ** Further properties *)

(** X1. [parse_date] is idempotent: what it returns is a datetime, or the
    falsy value it was given, and parsing it again returns it. *)
Theorem parse_date_idempotent v w :
  parse_date v = inr w ->
  parse_date w = inr w
  /\ ((exists d, w = VDate d) \/ (w = v /\ truthy v = false)).
Proof.
  unfold parse_date.
  destruct (truthy v) eqn:Hv; simpl.
  - destruct v as [| | |s|d]; try discriminate.
    + destruct (parse_datetime s); [|discriminate].
      intros [= <-]. simpl. eauto.
    + intros [= <-]. simpl. eauto.
  - intros [= <-]. rewrite Hv. simpl. auto.
Qed.

(** X2. The default validation policy accepts two datetimes of the same
    kind exactly when the second is at most sixty days after the first (in
    UTC when they are aware), sixty days included, and otherwise raises
    [TransitionPoliciesViolation]; it does not read the loan, and it accepts
    an end before the start. *)
Theorem is_loan_valid_sixty_days loan sd ed :
  (utcoffset sd = None <-> utcoffset ed = None) ->
  (is_loan_valid loan (VDate sd) (VDate ed) = inr (VBool true)
   <-> (utc ed - utc sd <= 60 * usec_per_day)%Z)
  /\ (is_loan_valid loan (VDate sd) (VDate ed)
      = inl TransitionPoliciesViolation
      <-> (60 * usec_per_day < utc ed - utc sd)%Z).
Proof.
  intros Hkind. rewrite (is_loan_valid_same_kind loan sd ed Hkind).
  destruct (60 * usec_per_day <? utc ed - utc sd)%Z eqn:Hc;
    (apply Z.ltb_lt in Hc || apply Z.ltb_ge in Hc);
    (split; split; intros H; try discriminate; try reflexivity; try lia).
Qed.

(** X3. When [_ensure_valid_loan] succeeds, the loan has a transaction
    date, its two dates are the texts of two datetimes of the same kind in
    order (the start not after the end), and no other field of the loan has
    changed. *)
Theorem ensure_valid_loan_stores_ordered_dates cfg loan loan' :
  _ensure_valid_loan cfg loan = (loan', inr tt) ->
  exists transaction_date sd ed,
    loan !! "transaction_date" = Some transaction_date
    /\ parse_date (default transaction_date (loan !! "start_date"))
       = inr (VDate sd)
    /\ (utcoffset sd = None <-> utcoffset ed = None)
    /\ (utc sd <= utc ed)%Z
    /\ loan' = <["end_date" := VStr (isoformat ed)]>
                 (<["start_date" := VStr (isoformat sd)]> loan).
Proof.
  rewrite _ensure_valid_loan_eq.
  destruct (loan !! "transaction_date") as [td|]; [|discriminate].
  simpl. destruct (period cfg td loan) as [e|[s e]] eqn:Hp; [discriminate|].
  destruct (period_returns _ _ _ _ _ Hp)
    as (sd & ed & -> & -> & Hs & Hkind & Hle).
  destruct (validate cfg _ _ _) as [e|v]; [discriminate|].
  destruct (truthy v); [|discriminate].
  intros [= <-]. exists td, sd, ed. auto.
Qed.

(** X4. When [_ensure_valid_loan] raises, the loan is as it was, except that
    its start date may have been set to the transaction date; without a
    transaction date the error is a [KeyError], whatever the other dates. *)
Theorem ensure_valid_loan_failure_frame cfg loan loan' e :
  _ensure_valid_loan cfg loan = (loan', inl e) ->
  (forall key, key <> "start_date" -> loan' !! key = loan !! key)
  /\ match loan !! "transaction_date" with
     | None => e = KeyError /\ loan' = loan
     | Some transaction_date =>
         loan' !! "start_date"
         = Some (default transaction_date (loan !! "start_date"))
     end.
Proof.
  rewrite _ensure_valid_loan_eq.
  destruct (loan !! "transaction_date") as [td|].
  - simpl. intros H.
    assert (loan' = start_defaulted td loan) as ->.
    { destruct (period cfg td loan) as [?|[[| | | |sd] [| | | |ed]]];
        try (now inversion H).
      destruct (validate cfg _ _ _) as [?|v]; [now inversion H|].
      destruct (truthy v); [discriminate | now inversion H]. }
    split; [|apply start_defaulted_start].
    intros key Hkey. now apply start_defaulted_other.
  - intros [= <- <-]. auto.
Qed.

(** X5. A loan whose two dates are given and parse to datetimes of the same
    kind, under the default validation policy: [_ensure_valid_loan] raises
    [TransitionConstraintsViolation] when the end is before the start,
    [TransitionPoliciesViolation] when it is more than sixty days after it,
    and otherwise succeeds and stores the two dates as text. *)
Theorem ensure_valid_loan_given_dates
    cfg loan transaction_date end_date sd ed :
  loan !! "transaction_date" = Some transaction_date ->
  parse_date (default transaction_date (loan !! "start_date"))
  = inr (VDate sd) ->
  loan !! "end_date" = Some end_date ->
  parse_date end_date = inr (VDate ed) ->
  (utcoffset sd = None <-> utcoffset ed = None) ->
  (forall l a b, validate cfg l a b = is_loan_valid l a b) ->
  _ensure_valid_loan cfg loan
  = if (utc ed <? utc sd)%Z
    then (start_defaulted transaction_date loan,
          inl TransitionConstraintsViolation)
    else if (60 * usec_per_day <? utc ed - utc sd)%Z
    then (start_defaulted transaction_date loan,
          inl TransitionPoliciesViolation)
    else (<["end_date" := VStr (isoformat ed)]>
            (<["start_date" := VStr (isoformat sd)]> loan), inr tt).
Proof.
  intros Ht Hs He Hp Hkind Hval.
  rewrite _ensure_valid_loan_eq, Ht. cbv zeta.
  rewrite (period_given _ _ _ _ _ _ Hs He Hp Hkind).
  destruct (utc ed <? utc sd)%Z; [reflexivity|].
  rewrite Hval, (is_loan_valid_same_kind _ sd ed Hkind).
  now destruct (60 * usec_per_day <? utc ed - utc sd)%Z.
Qed.

(** The period of a loan without an end date. *)
Lemma period_defaulted cfg transaction_date loan start days delta :
  parse_date (default transaction_date (loan !! "start_date")) = inr start ->
  truthy (default VNone (loan !! "end_date")) = false ->
  duration_default cfg (start_defaulted transaction_date loan) = inr days ->
  timedelta_days days = inr delta ->
  period cfg transaction_date loan
  = match py_add_timedelta start delta with
    | inl e => inl e
    | inr ending =>
        match py_lt ending start with
        | inl e => inl e
        | inr true =>
            match loan !! "end_date" with
            | Some _ => inl TransitionConstraintsViolation
            | None => inl KeyError
            end
        | inr false => inr (start, ending)
        end
    end.
Proof.
  intros Hs He Hd Hdelta. unfold period, res_bind. rewrite Hs.
  unfold parse_date at 1. rewrite He. simpl. rewrite He, Hd, Hdelta.
  reflexivity.
Qed.

(** X6. A loan without an end date whose duration policy gives a negative
    number of days: the dates are inverted, and the message of the error is
    made from [loan['end_date']], which is missing: [_ensure_valid_loan]
    raises [KeyError], not [TransitionConstraintsViolation]. *)
Theorem ensure_valid_loan_negative_duration
    cfg loan transaction_date sd n :
  loan !! "transaction_date" = Some transaction_date ->
  parse_date (default transaction_date (loan !! "start_date"))
  = inr (VDate sd) ->
  loan !! "end_date" = None ->
  duration_default cfg (start_defaulted transaction_date loan)
  = inr (VInt n) ->
  (-999999999 <= n < 0)%Z ->
  (0 <= wall sd + n * usec_per_day)%Z ->
  (wall sd <= max_wall)%Z ->
  _ensure_valid_loan cfg loan
  = (start_defaulted transaction_date loan, inl KeyError).
Proof.
  intros Ht Hs He Hd Hn Hlo Hhi.
  assert (timedelta_days (VInt n) = inr (n * usec_per_day)%Z) as Hdelta.
  { unfold timedelta_days. simpl.
    replace ((-999999999 <=? n)%Z && (n <=? 999999999)%Z) with true;
      [reflexivity|].
    symmetry. apply andb_true_iff. split; apply Z.leb_le; lia. }
  assert (py_add_timedelta (VDate sd) (n * usec_per_day)
          = inr (VDate (mk_datetime (wall sd + n * usec_per_day)
                          (utcoffset sd)))) as Hadd.
  { unfold py_add_timedelta.
    replace ((0 <=? wall sd + n * usec_per_day)%Z
             && (wall sd + n * usec_per_day <=? max_wall)%Z) with true;
      [reflexivity|].
    symmetry. apply andb_true_iff. split; apply Z.leb_le;
      unfold usec_per_day in *; lia. }
  rewrite _ensure_valid_loan_eq, Ht. cbv zeta.
  rewrite (period_defaulted cfg transaction_date loan (VDate sd) (VInt n)
             (n * usec_per_day)%Z Hs);
    [|now rewrite He|exact Hd|exact Hdelta].
  rewrite Hadd, py_lt_same_kind by (simpl; tauto).
  replace (utc (mk_datetime (wall sd + n * usec_per_day) (utcoffset sd))
           <? utc sd)%Z with true; [now rewrite He|].
  symmetry. apply Z.ltb_lt. unfold utc. simpl.
  destruct (utcoffset sd); unfold usec_per_day; lia.
Qed.

(** X7. A validated loan validates again to itself: when the texts of the
    two dates of the period are read back as these dates, and under the
    default validation policy, [_ensure_valid_loan] succeeds on its own
    result and changes nothing. *)
Theorem ensure_valid_loan_again
    cfg loan loan' transaction_date sd ed :
  loan !! "transaction_date" = Some transaction_date ->
  period cfg transaction_date loan = inr (VDate sd, VDate ed) ->
  _ensure_valid_loan cfg loan = (loan', inr tt) ->
  parse_datetime (isoformat sd) = Some sd ->
  parse_datetime (isoformat ed) = Some ed ->
  isoformat sd <> "" -> isoformat ed <> "" ->
  (forall l a b, validate cfg l a b = is_loan_valid l a b) ->
  _ensure_valid_loan cfg loan' = (loan', inr tt).
Proof.
  intros Ht Hp Hrun Hps Hpe Hns Hne Hval.
  destruct (period_returns _ _ _ _ _ Hp)
    as (sd' & ed' & [= <-] & [= <-] & _ & Hkind & Hle).
  rewrite _ensure_valid_loan_eq, Ht, Hp in Hrun. cbv zeta in Hrun.
  rewrite Hval, (is_loan_valid_same_kind _ sd ed Hkind) in Hrun.
  destruct (60 * usec_per_day <? utc ed - utc sd)%Z eqn:Hc; [discriminate|].
  simpl in Hrun. injection Hrun as <-.
  assert (forall s d, s <> "" -> parse_datetime s = Some d ->
                      parse_date (VStr s) = inr (VDate d)) as Hparse.
  { intros s d Hs Hd. unfold parse_date. simpl.
    apply String.eqb_neq in Hs. rewrite Hs. simpl. now rewrite Hd. }
  rewrite _ensure_valid_loan_eq.
  rewrite !lookup_insert_ne by discriminate. rewrite Ht. cbv zeta.
  rewrite (period_given cfg transaction_date _ (VStr (isoformat ed)) sd ed);
    try assumption.
  - replace (utc ed <? utc sd)%Z with false
      by (symmetry; now apply Z.ltb_ge).
    rewrite Hval, (is_loan_valid_same_kind _ sd ed Hkind), Hc. simpl.
    f_equal. rewrite insert_insert_ne by discriminate.
    rewrite insert_insert_eq.
    rewrite insert_insert_ne by discriminate.
    now rewrite insert_insert_eq.
  - rewrite lookup_insert_ne by discriminate. rewrite lookup_insert_eq.
    simpl. now apply Hparse.
  - apply lookup_insert_eq.
  - now apply Hparse.
Qed.

(** ** More on the engine *)

(** A guard rejects softly, and leaves the loan, when the trigger name of
    its candidate is not the one of the call. *)
Lemma before_ineligible cfg t kwargs loan :
  trigger_matches t kwargs = false ->
  before cfg t kwargs loan = (loan, inl TransitionConditionsFailed).
Proof.
  intros H. unfold before.
  destruct (cls t);
    unfold CreatedToPending_before, CreatedToItemOnLoan_before,
      PendingToItemAtDesk_before, PendingToItemInTransitPickup_before,
      ItemAtDeskToItemOnLoan_before, ItemOnLoanToItemInTransitHouse_before,
      ItemOnLoanToItemReturned_before, mbind, M_bind;
    now rewrite (Transition_before_rejects _ _ _ H).
Qed.

Lemma execute_ineligible cfg t kwargs loan :
  trigger_matches t kwargs = false ->
  execute cfg t kwargs loan = (loan, inl TransitionConditionsFailed).
Proof. intros H. now apply execute_raises, before_ineligible. Qed.

(** An eligible candidate of the base class is executed. *)
Lemma execute_base cfg t kwargs loan :
  cls t = Transition ->
  trigger_matches t kwargs = true ->
  execute cfg t kwargs loan
  = (<["state" := VStr (dest t)]> (with_context kwargs loan), inr tt).
Proof.
  intros Hc Hm. apply execute_returns. exists (with_context kwargs loan).
  split; [|reflexivity].
  unfold before. rewrite Hc. now apply Transition_before_accepts.
Qed.

(** A successful call leaves fewer steps to the loan. *)
Lemma trigger_descends cfg kwargs loan loan' :
  _Circulation_trigger cfg current_circulation kwargs loan = (loan', inr tt) ->
  loan_steps loan' < loan_steps loan.
Proof.
  intros H.
  destruct (trigger_returns _ _ _ _ _ H)
    as (s & pre & t & post & mid & Hs & Hc & _ & Hex).
  assert (forallb (fun p => descends p.1 p.2)
            (map_to_list current_circulation) = true) as Hall by by_running.
  pose proof (current_circulation_forall descends Hall s _ Hc) as Hd.
  unfold descends in Hd. rewrite forallb_forall in Hd.
  specialize (Hd t). rewrite in_app_iff in Hd.
  specialize (Hd (or_intror (or_introl eq_refl))).
  apply Nat.ltb_lt in Hd.
  unfold loan_steps. now rewrite (execute_state _ _ _ _ _ Hex), Hs.
Qed.

(** X8. A loan without a state, or whose state is [None], the empty string,
    not a string, or a name that is not a key of the table, makes [trigger]
    raise [InvalidState]: the loan is left as it is, and neither the
    configuration nor the context of the call is looked at. *)
Theorem trigger_invalid_state cfg self kwargs loan :
  truthy (default VNone (loan !! "state")) = false
  \/ transitions_of self (default VNone (loan !! "state")) = None ->
  _Circulation_trigger cfg self kwargs loan = (loan, inl InvalidState).
Proof.
  intros H.
  unfold _Circulation_trigger, mbind, M_bind, dict_get, lift,
    _validate_current_state.
  destruct H as [-> | ->]; [reflexivity|].
  rewrite bool_decide_eq_false_2 by (intros [? [=]]).
  now rewrite orb_true_r.
Qed.

(** X9. A loan that is ITEM_RETURNED or CANCELLED stays so: every call to
    the engine of the application raises [NoValidTransitionAvailable] and
    leaves the loan as it is, whatever the configuration and the context. *)
Theorem trigger_on_terminal_state cfg kwargs loan :
  loan !! "state" = Some (VStr "ITEM_RETURNED")
  \/ loan !! "state" = Some (VStr "CANCELLED") ->
  _Circulation_trigger cfg current_circulation kwargs loan
  = (loan, inl NoValidTransitionAvailable).
Proof.
  intros [Hs | Hs].
  - now rewrite (trigger_unfold _ _ _ _ "ITEM_RETURNED" [] Hs);
      [|discriminate|by_running].
  - now rewrite (trigger_unfold _ _ _ _ "CANCELLED" [] Hs);
      [|discriminate|by_running].
Qed.

(** X10. The life of a loan is bounded: every successful call to [trigger]
    moves the loan to a state with fewer transitions left, so a loan goes
    through at most six successful calls, whatever the configurations and
    the contexts of the calls. *)
Theorem loan_life_is_bounded calls loan loan' :
  trigger_all calls loan = Some loan' ->
  length calls + loan_steps loan' <= loan_steps loan
  /\ loan_steps loan <= 6.
Proof.
  intros H. split.
  - revert loan H. induction calls as [|[cfg kwargs] rest IH]; intros loan.
    + simpl. intros [= ->]. lia.
    + simpl.
      destruct (_Circulation_trigger cfg current_circulation kwargs loan)
        as [loan1 [e|[]]] eqn:Hrun; [discriminate|].
      intros H. specialize (IH loan1 H).
      pose proof (trigger_descends _ _ _ _ Hrun). lia.
  - unfold loan_steps, remaining_steps.
    destruct (loan !! "state") as [[| | |s|]|]; try lia.
    repeat (destruct (String.eqb s _); [lia|]). lia.
Qed.

(** X11. A request ([trigger] with the name [request] on a CREATED loan)
    keeps the pickup location of the loan or of the call; without one, the
    pickup location becomes the location that the retriever gives for the
    item, and a loan without an item makes the call raise [KeyError]. In
    the first two cases the loan is PENDING. *)
Theorem request_sets_pickup_location cfg kwargs loan :
  loan !! "state" = Some (VStr "CREATED") ->
  kwargs !! "trigger" = Some (VStr "request") ->
  let merged := with_context kwargs loan in
  let pickup := default VNone (merged !! "pickup_location_pid") in
  (truthy pickup = true ->
   _Circulation_trigger cfg current_circulation kwargs loan
   = (<["state" := VStr "PENDING"]> merged, inr tt))
  /\ (truthy pickup = false ->
      forall item_pid location,
        merged !! "item_pid" = Some item_pid ->
        CIRCULATION_ITEM_LOCATION_RETRIEVER cfg item_pid = inr location ->
        _Circulation_trigger cfg current_circulation kwargs loan
        = (<["state" := VStr "PENDING"]>
             (<["pickup_location_pid" := location]> merged), inr tt))
  /\ (truthy pickup = false ->
      merged !! "item_pid" = None ->
      _Circulation_trigger cfg current_circulation kwargs loan
      = (merged, inl KeyError)).
Proof.
  intros Hs Hk merged pickup.
  rewrite (trigger_unfold _ _ _ _ "CREATED"
             [mk_transition CreatedToPending "CREATED" "PENDING"
                (Some "request");
              mk_transition CreatedToItemOnLoan "CREATED" "ITEM_ON_LOAN"
                (Some "checkout")]
             Hs);
    [|discriminate|by_running].
  simpl. unfold try_except, execute, before, mbind, M_bind. simpl.
  unfold CreatedToPending_before, mbind, M_bind.
  rewrite Transition_before_accepts
    by (unfold trigger_matches; now rewrite Hk).
  fold merged. unfold dict_get. fold pickup.
  split; [|split].
  - intros ->. reflexivity.
  - intros -> item_pid location Hi Hr. simpl. unfold getitem.
    rewrite Hi. unfold lift. now rewrite Hr.
  - intros -> Hi. simpl. unfold getitem. now rewrite Hi.
Qed.

(** X12. A call with the name [cancel] moves a loan that is PENDING,
    ITEM_AT_DESK, ITEM_IN_TRANSIT_FOR_PICKUP, ITEM_ON_LOAN or
    ITEM_IN_TRANSIT_TO_HOUSE to CANCELLED, with the context of the call
    written into it; a CREATED loan has no such edge and the call raises
    [NoValidTransitionAvailable] and leaves the loan as it is. *)
Theorem cancel_moves_to_cancelled cfg kwargs loan s :
  loan !! "state" = Some (VStr s) ->
  kwargs !! "trigger" = Some (VStr "cancel") ->
  (s ∈ ["PENDING"; "ITEM_AT_DESK"; "ITEM_IN_TRANSIT_FOR_PICKUP";
        "ITEM_ON_LOAN"; "ITEM_IN_TRANSIT_TO_HOUSE"] ->
   _Circulation_trigger cfg current_circulation kwargs loan
   = (<["state" := VStr "CANCELLED"]> (with_context kwargs loan), inr tt))
  /\ (s = "CREATED" ->
      _Circulation_trigger cfg current_circulation kwargs loan
      = (loan, inl NoValidTransitionAvailable)).
Proof.
  intros Hs Hk.
  assert (forall t, trigger t = None -> trigger_matches t kwargs = false)
    as Hauto by (intros t Ht; unfold trigger_matches; now rewrite Hk, Ht).
  assert (forall t name, trigger t = Some name ->
                         trigger_matches t kwargs
                         = String.eqb "cancel" name) as Hnamed
    by (intros t name Ht; unfold trigger_matches; now rewrite Hk, Ht).
  assert (forall t, trigger t = Some "cancel" ->
                    trigger_matches t kwargs = true) as Hcancel
    by (intros t Ht; now rewrite (Hnamed t _ Ht)).
  split.
  - intros Hin.
    repeat (apply elem_of_cons in Hin as [-> | Hin]);
      [| | | | |now apply not_elem_of_nil in Hin].
    + rewrite (trigger_unfold _ _ _ _ "PENDING"
                 [mk_transition PendingToItemAtDesk "PENDING" "ITEM_AT_DESK"
                    None;
                  mk_transition PendingToItemInTransitPickup "PENDING"
                    "ITEM_IN_TRANSIT_FOR_PICKUP" None;
                  mk_transition Transition "PENDING" "CANCELLED"
                    (Some "cancel")] Hs);
        [|discriminate|by_running].
      simpl. unfold try_except.
      rewrite !execute_ineligible by (now apply Hauto).
      simpl. now rewrite execute_base by first [reflexivity | now apply Hcancel].
    + rewrite (trigger_unfold _ _ _ _ "ITEM_AT_DESK"
                 [mk_transition ItemAtDeskToItemOnLoan "ITEM_AT_DESK"
                    "ITEM_ON_LOAN" None;
                  mk_transition Transition "ITEM_AT_DESK" "CANCELLED"
                    (Some "cancel")] Hs);
        [|discriminate|by_running].
      simpl. unfold try_except.
      rewrite !execute_ineligible by (now apply Hauto).
      simpl. now rewrite execute_base by first [reflexivity | now apply Hcancel].
    + rewrite (trigger_unfold _ _ _ _ "ITEM_IN_TRANSIT_FOR_PICKUP"
                 [mk_transition Transition "ITEM_IN_TRANSIT_FOR_PICKUP"
                    "ITEM_AT_DESK" None;
                  mk_transition Transition "ITEM_IN_TRANSIT_FOR_PICKUP"
                    "CANCELLED" (Some "cancel")] Hs);
        [|discriminate|by_running].
      simpl. unfold try_except.
      rewrite !execute_ineligible by (now apply Hauto).
      simpl. now rewrite execute_base by first [reflexivity | now apply Hcancel].
    + rewrite (trigger_unfold _ _ _ _ "ITEM_ON_LOAN"
                 [mk_transition ItemOnLoanToItemReturned "ITEM_ON_LOAN"
                    "ITEM_RETURNED" None;
                  mk_transition ItemOnLoanToItemInTransitHouse "ITEM_ON_LOAN"
                    "ITEM_IN_TRANSIT_TO_HOUSE" None;
                  mk_transition Transition "ITEM_ON_LOAN" "CANCELLED"
                    (Some "cancel")] Hs);
        [|discriminate|by_running].
      simpl. unfold try_except.
      rewrite !execute_ineligible by (now apply Hauto).
      simpl. now rewrite execute_base by first [reflexivity | now apply Hcancel].
    + rewrite (trigger_unfold _ _ _ _ "ITEM_IN_TRANSIT_TO_HOUSE"
                 [mk_transition Transition "ITEM_IN_TRANSIT_TO_HOUSE"
                    "ITEM_RETURNED" None;
                  mk_transition Transition "ITEM_IN_TRANSIT_TO_HOUSE"
                    "CANCELLED" (Some "cancel")] Hs);
        [|discriminate|by_running].
      simpl. unfold try_except.
      rewrite !execute_ineligible by (now apply Hauto).
      simpl. now rewrite execute_base by first [reflexivity | now apply Hcancel].
  - intros ->.
    rewrite (trigger_unfold _ _ _ _ "CREATED"
               [mk_transition CreatedToPending "CREATED" "PENDING"
                  (Some "request");
                mk_transition CreatedToItemOnLoan "CREATED" "ITEM_ON_LOAN"
                  (Some "checkout")] Hs);
      [|discriminate|by_running].
    simpl. unfold try_except.
    rewrite !execute_ineligible by (now erewrite Hnamed by reflexivity).
    reflexivity.
Qed.

(** ** More on the construction of the engine *)

Lemma popped_content t h :
  content (popped t h) t = delete "transition" (content h t).
Proof.
  unfold content. rewrite popped_lookup_eq.
  destruct (h !! t); simpl; [reflexivity|]. symmetry. apply delete_empty.
Qed.

Lemma popped_content_ne t h i :
  t <> i -> content (popped t h) i = content h i.
Proof. intros H. unfold content. now rewrite popped_lookup_ne. Qed.

(** The inner loop's body, as a function of the content of the descriptor. *)
Lemma make_instance_eq src_state t h :
  make_instance src_state t h
  = (popped t h, instance_of src_state (content h t)).
Proof.
  pose proof (make_instance_heap src_state t h) as Hh.
  unfold make_instance, pop_transition, instance_of, content in *.
  destruct (h !! t) as [d|] eqn:E; simpl in *.
  - rewrite list_lookup_insert_eq in * by exact (lookup_lt_Some _ _ _ E).
    simpl in *.
    destruct (default (DCls Transition) (d !! "transition")); simpl in *;
      f_equal; exact Hh.
  - rewrite E in *. simpl in *. rewrite lookup_empty. simpl.
    rewrite delete_empty. f_equal. exact Hh.
Qed.

Lemma Transition_init_class c c' kwargs t :
  Transition_init c kwargs = inr t ->
  Transition_init c' kwargs
  = inr (mk_transition c' (src t) (dest t) (trigger t)).
Proof.
  unfold Transition_init. intros H.
  repeat (case_match; simplify_eq/=); reflexivity.
Qed.

Lemma instance_of_popped src_state d t :
  instance_of src_state d = inr t ->
  instance_of src_state (delete "transition" d) = inr (as_base t).
Proof.
  unfold instance_of. rewrite lookup_delete_eq. simpl.
  rewrite delete_delete_eq.
  destruct (default (DCls Transition) (d !! "transition")); [discriminate|].
  apply Transition_init_class.
Qed.

Lemma without_guards_append self src_state t :
  without_guards
    (<[src_state := (default [] (self !! src_state) ++ [t])%list]> self)
  = <[src_state :=
        (default [] (without_guards self !! src_state) ++ [as_base t])%list]>
      (without_guards self).
Proof.
  unfold without_guards. rewrite fmap_insert, lookup_fmap, map_app.
  now destruct (self !! src_state).
Qed.

Lemma init_state_again src_state transitions self h1 h2 h1' self' :
  (forall i, i ∈ transitions ->
     h2 !! i = delete "transition" <$> h1 !! i) ->
  init_state src_state transitions self h1 = (h1', inr self') ->
  init_state src_state transitions (without_guards self) h2
  = (h2, inr (without_guards self')).
Proof.
  revert self h1.
  induction transitions as [|t rest IH]; intros self h1 Hrel; simpl.
  - now intros [= _ ->].
  - rewrite !make_instance_eq.
    assert (content h2 t = delete "transition" (content h1 t)) as Hc.
    { unfold content. rewrite (Hrel t) by now left.
      destruct (h1 !! t); simpl; [reflexivity|].
      symmetry. apply delete_empty. }
    assert (popped t h2 = h2) as Hfix.
    { apply list_eq. intros i. destruct (decide (t = i)) as [<-|Hne].
      - rewrite popped_lookup_eq, (Hrel t) by now left.
        destruct (h1 !! t); simpl; [|reflexivity].
        now rewrite delete_delete_eq.
      - now apply popped_lookup_ne. }
    destruct (instance_of src_state (content h1 t)) as [e|instance] eqn:E;
      [discriminate|].
    rewrite Hc, (instance_of_popped _ _ _ E), Hfix.
    intros Hinit. rewrite <- without_guards_append.
    apply (IH _ (popped t h1)); [|exact Hinit].
    intros i Hi. rewrite (Hrel i) by now right.
    destruct (decide (t = i)) as [<-|Hne].
    + rewrite popped_lookup_eq.
      destruct (h1 !! t); simpl; [|reflexivity].
      now rewrite delete_delete_eq.
    + now rewrite popped_lookup_ne.
Qed.

Lemma init_states_again transitions_config self h1 h2 h1' self' :
  (forall i, i ∈ config_refs transitions_config ->
     h2 !! i = delete "transition" <$> h1 !! i) ->
  init_states transitions_config self h1 = (h1', inr self') ->
  init_states transitions_config (without_guards self) h2
  = (h2, inr (without_guards self')).
Proof.
  revert self h1.
  induction transitions_config as [|[src_state transitions] rest IH];
    intros self h1 Hrel; simpl.
  - now intros [= _ ->].
  - unfold config_refs in Hrel. simpl in Hrel.
    set (self1 := match self !! src_state with
                  | Some _ => self
                  | None => <[src_state := []]> self
                  end).
    assert (match without_guards self !! src_state with
            | Some _ => without_guards self
            | None => <[src_state := []]> (without_guards self)
            end = without_guards self1) as ->.
    { unfold self1, without_guards. rewrite lookup_fmap.
      destruct (self !! src_state); simpl; [reflexivity|].
      now rewrite fmap_insert. }
    destruct (init_state src_state transitions self1 h1)
      as [h1a [e|self2]] eqn:E; [discriminate|].
    intros Hinit.
    rewrite (init_state_again _ _ _ _ h2 _ _
               (fun i Hi => Hrel i (proj2 (elem_of_app _ _ _) (or_introl Hi)))
               E).
    apply (IH _ h1a); [|exact Hinit].
    intros i Hi.
    rewrite (Hrel i) by (apply elem_of_app; now right).
    pose proof (init_state_frame src_state transitions self1 h1) as [_ Hf].
    rewrite E in Hf. simpl in Hf.
    destruct (decide (i ∈ transitions)) as [Hin|Hout].
    + rewrite (init_state_pops _ _ _ _ _ _ E i Hin).
      destruct (h1 !! i); simpl; [|reflexivity].
      now rewrite delete_delete_eq.
    + now rewrite (Hf i Hout).
Qed.

(** X13. An engine built a second time from the same configuration, not
    from a copy, is not the same engine: the first construction has taken
    the classes out of the descriptors, so the second one gives the same
    edges, all of the base class, without any of the guards. The second
    construction changes nothing more in the heap. *)
Theorem second_construction_loses_the_guards
    transitions_config h h' self :
  _Circulation_init transitions_config h = (h', inr self) ->
  _Circulation_init transitions_config h' = (h', inr (without_guards self)).
Proof.
  intros Hinit. unfold _Circulation_init in *.
  change (∅ : circulation) with (without_guards ∅) at 1.
  apply (init_states_again _ _ h _ h' self); [|exact Hinit].
  exact (init_states_pops _ _ _ _ _ Hinit).
Qed.

(** The inner loop gives the same outcome on two heaps that hold the same
    content at related descriptors. *)
Lemma init_state_related rel src_state ts ts' self h1 h2 :
  one_to_one rel ->
  Forall2 rel ts ts' ->
  same_descriptors rel h1 h2 ->
  (init_state src_state ts self h1).2 = (init_state src_state ts' self h2).2
  /\ same_descriptors rel (init_state src_state ts self h1).1
       (init_state src_state ts' self h2).1.
Proof.
  intros Hone Hts. revert self h1 h2.
  induction Hts as [|t t' ts ts' Ht Hts IH]; intros self h1 h2 Hsame; simpl.
  - auto.
  - rewrite !make_instance_eq. rewrite (Hsame t t' Ht).
    assert (same_descriptors rel (popped t h1) (popped t' h2)) as Hsame'.
    { intros u u' Hu. destruct (decide (t = u)) as [<-|Hne].
      - assert (t' = u') as <- by now apply (Hone t t' t u').
        rewrite !popped_content. f_equal. now apply Hsame.
      - assert (t' <> u')
          by (intros ->; apply Hne; now apply (Hone t u' u u')).
        rewrite !popped_content_ne by assumption. now apply Hsame. }
    destruct (instance_of src_state (content h2 t')) as [e|instance]; simpl.
    + split; [reflexivity|exact Hsame'].
    + now apply IH.
Qed.

Lemma init_states_related rel c1 c2 self h1 h2 :
  one_to_one rel ->
  same_shape rel c1 c2 ->
  same_descriptors rel h1 h2 ->
  (init_states c1 self h1).2 = (init_states c2 self h2).2
  /\ same_descriptors rel (init_states c1 self h1).1 (init_states c2 self h2).1.
Proof.
  intros Hone Hshape. revert self h1 h2.
  induction Hshape as [|[s ts] [s' ts'] c1 c2 [Hs Hts] Hshape IH];
    intros self h1 h2 Hsame; simpl in *.
  - auto.
  - subst s'.
    set (self1 := match self !! s with
                  | Some _ => self
                  | None => <[s := []]> self
                  end).
    destruct (init_state_related rel s ts ts' self1 h1 h2 Hone Hts Hsame)
      as [Hr Hh].
    destruct (init_state s ts self1 h1) as [h1a [e|self2]];
      destruct (init_state s ts' self1 h2) as [h2a [e'|self2']];
      simpl in *; simplify_eq.
    + split; [reflexivity|exact Hh].
    + now apply IH.
Qed.

(** [deepcopy] keeps its invariant, and sends every reference of its list
    to the copy that the memo holds for it. *)
Lemma deepcopy_refs_copied h0 refs memo hc :
  Forall (fun t => t < length h0) refs ->
  copied h0 memo hc ->
  copied h0 (deepcopy_refs refs memo hc).1.1 (deepcopy_refs refs memo hc).1.2
  /\ memo ⊆ (deepcopy_refs refs memo hc).1.1
  /\ Forall2 (fun t t' => (deepcopy_refs refs memo hc).1.1 !! t = Some t')
       refs (deepcopy_refs refs memo hc).2.
Proof.
  intros Hrange. revert memo hc.
  induction Hrange as [|t rest Ht Hrest IH]; intros memo hc Hc; simpl.
  - split; [exact Hc|]. split; [reflexivity|constructor].
  - destruct (memo !! t) as [t'|] eqn:E.
    + destruct (IH memo hc Hc) as (Hc' & Hsub & Hall).
      destruct (deepcopy_refs rest memo hc) as [[memo' hc'] out]; simpl in *.
      split; [exact Hc'|]. split; [exact Hsub|].
      constructor; [|exact Hall]. exact (lookup_weaken _ _ _ _ E Hsub).
    + assert (copied h0 (<[t := length hc]> memo)
                (hc ++ [default ∅ (hc !! t)])) as Hc1.
      { destruct Hc as ((copies & ->) & Hm & Hinj). split; [|split].
        - exists (copies ++ [default ∅ ((h0 ++ copies) !! t)]).
          now rewrite app_assoc.
        - intros u u' Hu.
          apply lookup_insert_Some in Hu as [[<- <-]|[Hne Hu]].
          + rewrite !length_app. simpl. split; [lia|].
            rewrite list_lookup_middle by (now rewrite length_app).
            unfold content. now rewrite lookup_app_l by exact Ht.
          + destruct (Hm u u' Hu) as [Hr Hl].
            split; [rewrite length_app; simpl; lia|].
            rewrite lookup_app_l by lia. exact Hl.
        - intros t1 t2 u'. rewrite !lookup_insert_Some.
          intros [[<- <-]|[Hn1 H1]] [[<- Heq]|[Hn2 H2]].
          + reflexivity.
          + destruct (Hm _ _ H2). lia.
          + destruct (Hm _ _ H1). lia.
          + exact (Hinj _ _ _ H1 H2). }
      destruct (IH _ _ Hc1) as (Hc' & Hsub & Hall).
      destruct (deepcopy_refs rest (<[t := length hc]> memo)
                  (hc ++ [default ∅ (hc !! t)])) as [[memo' hc'] out].
      simpl in *.
      split; [exact Hc'|]. split.
      * transitivity (<[t := length hc]> memo); [|exact Hsub].
        now apply insert_subseteq.
      * constructor; [|exact Hall].
        apply (lookup_weaken _ _ _ _ (lookup_insert_eq _ _ _) Hsub).
Qed.

Lemma deepcopy_config_copied h0 transitions_config memo hc :
  Forall (fun t => t < length h0) (config_refs transitions_config) ->
  copied h0 memo hc ->
  exists memo',
    copied h0 memo' (deepcopy_config transitions_config memo hc).1
    /\ memo ⊆ memo'
    /\ same_shape (fun t t' => memo' !! t = Some t') transitions_config
         (deepcopy_config transitions_config memo hc).2.
Proof.
  revert memo hc.
  induction transitions_config as [|[s ts] rest IH];
    intros memo hc Hrange Hc; simpl.
  - exists memo. split; [exact Hc|]. split; [reflexivity|constructor].
  - unfold config_refs in Hrange. simpl in Hrange.
    apply Forall_app in Hrange as [Hts Hrest].
    destruct (deepcopy_refs_copied h0 ts memo hc Hts Hc)
      as (Hc1 & Hsub1 & Hall1).
    destruct (deepcopy_refs ts memo hc) as [[memo1 hc1] out]. simpl in *.
    destruct (IH memo1 hc1 Hrest Hc1) as (memo' & Hc' & Hsub' & Hshape).
    destruct (deepcopy_config rest memo1 hc1) as [h'' rest']. simpl in *.
    exists memo'. split; [exact Hc'|]. split; [now transitivity memo1|].
    constructor; [|exact Hshape]. simpl. split; [reflexivity|].
    eapply Forall2_impl; [exact Hall1|].
    intros t t' Ht. exact (lookup_weaken _ _ _ _ Ht Hsub').
Qed.

Lemma same_shape_diag (P : nat -> Prop) transitions_config :
  Forall P (config_refs transitions_config) ->
  same_shape (fun t t' => t = t' /\ P t) transitions_config
    transitions_config.
Proof.
  induction transitions_config as [|[s ts] rest IH]; intros H.
  - constructor.
  - unfold config_refs in H. simpl in H. apply Forall_app in H as [Hts Hrest].
    constructor; [|now apply IH]. simpl. split; [reflexivity|].
    clear -Hts. induction Hts; constructor; auto.
Qed.

(** [InvenioCirculation.circulation] only adds objects to the heap. *)
Lemma circulation_extends app_transitions g :
  exists copies,
    (InvenioCirculation_circulation app_transitions g).1 = (g ++ copies)%list.
Proof.
  unfold InvenioCirculation_circulation, deepcopy, _Circulation_init.
  destruct (deepcopy_config_fresh (length g) app_transitions ∅ g)
    as (copies & Hh & Hout); [lia | apply map_Forall_empty |].
  destruct (deepcopy_config app_transitions ∅ g) as [g1 copy].
  simpl in *. subst g1.
  pose proof (init_states_frame copy ∅ (g ++ copies)) as [Hlen' Hframe'].
  exists (drop (length g) (init_states copy ∅ (g ++ copies)).1).
  apply list_eq. intros i.
  destruct (decide (i < length g)) as [Hlt|Hge].
  - rewrite lookup_app_l by exact Hlt.
    rewrite Hframe'; [now apply lookup_app_l|].
    intros Hin. rewrite Forall_forall in Hout.
    specialize (Hout i Hin). lia.
  - rewrite lookup_app_r by lia. rewrite lookup_drop. f_equal. lia.
Qed.

(** The engine built from the deep copy is the one that the table itself
    would give. *)
Lemma circulation_of_copy app_transitions g :
  Forall (fun t => t < length g) (config_refs app_transitions) ->
  (InvenioCirculation_circulation app_transitions g).2
  = (_Circulation_init app_transitions g).2.
Proof.
  intros Hrange.
  unfold InvenioCirculation_circulation, deepcopy, _Circulation_init.
  destruct (deepcopy_config_copied g app_transitions ∅ g Hrange)
    as (memo' & Hc & _ & Hshape).
  { split; [exists []; now rewrite app_nil_r|].
    split; intros *; now rewrite lookup_empty. }
  destruct (deepcopy_config app_transitions ∅ g) as [g' copy]. simpl in *.
  destruct Hc as (_ & Hm & Hinj).
  symmetry.
  apply (init_states_related (fun t t' => memo' !! t = Some t')
           app_transitions copy ∅ g g'); [|exact Hshape|].
  - intros t1 t1' t2 t2' H1 H2. split.
    + intros <-. congruence.
    + intros <-. exact (Hinj _ _ _ H1 H2).
  - intros t t' Ht. destruct (Hm t t' Ht) as [_ Hl].
    unfold content at 2. now rewrite Hl.
Qed.

(** X14. [InvenioCirculation.circulation] gives the engine that
    [_Circulation.__init__] would build from the configured table itself,
    shared descriptors included; and since it only reads the table, a
    second engine built in the heap that the first construction leaves is
    the same as the first. *)
Theorem circulation_is_repeatable app_transitions h :
  Forall (fun t => t < length h) (config_refs app_transitions) ->
  (InvenioCirculation_circulation app_transitions h).2
  = (_Circulation_init app_transitions h).2
  /\ (InvenioCirculation_circulation app_transitions
        (InvenioCirculation_circulation app_transitions h).1).2
     = (InvenioCirculation_circulation app_transitions h).2.
Proof.
  intros Hrange. split; [now apply circulation_of_copy|].
  destruct (circulation_extends app_transitions h) as (copies & Hext).
  rewrite Hext.
  rewrite (circulation_of_copy app_transitions (h ++ copies))
    by (eapply Forall_impl; [exact Hrange|]; intros t Ht; simpl in Ht;
        rewrite length_app; lia).
  rewrite (circulation_of_copy app_transitions h Hrange).
  unfold _Circulation_init. symmetry.
  apply (init_states_related (fun t t' => t = t' /\ t < length h)
           app_transitions app_transitions ∅ h (h ++ copies)).
  - intros t1 t1' t2 t2' [<- _] [<- _]. reflexivity.
  - now apply same_shape_diag.
  - intros t t' [<- Ht]. unfold content. now rewrite lookup_app_l.
Qed.

(** ** The application *)

Lemma init_config_lookup {V} (module : list (string * V))
    (config : gmap string V) k :
  init_config module config !! k
  = match config !! k with
    | Some v => Some v
    | None =>
        if String.prefix "CIRCULATION_" k
        then (list_to_map module : gmap string V) !! k
        else None
    end.
Proof.
  revert config. induction module as [|[k' v'] rest IH]; intros config.
  - simpl. destruct (config !! k); [reflexivity|].
    rewrite lookup_empty. now destruct (String.prefix _ _).
  - unfold init_config in *. simpl. rewrite IH. clear IH.
    destruct (decide (k' = k)) as [->|Hne].
    + rewrite lookup_insert_eq.
      destruct (String.prefix "CIRCULATION_" k); [|reflexivity].
      destruct (config !! k) eqn:E; [now rewrite E|].
      now rewrite lookup_insert_eq.
    + rewrite (lookup_insert_ne (list_to_map rest)) by exact Hne.
      destruct (String.prefix "CIRCULATION_" k'); [|reflexivity].
      destruct (config !! k'); [reflexivity|].
      now rewrite lookup_insert_ne by exact Hne.
Qed.

Lemma init_config_done {V} (module : list (string * V))
    (config : gmap string V) :
  init_config module (init_config module config) = init_config module config.
Proof.
  apply map_eq. intros k.
  rewrite (init_config_lookup module (init_config module config)).
  destruct (init_config module config !! k) eqn:E; [reflexivity|].
  rewrite init_config_lookup in E.
  destruct (config !! k); [discriminate|].
  now destruct (String.prefix "CIRCULATION_" k).
Qed.

(** X15. [init_config] never changes a setting that the application has:
    it adds the names of the module that start with [CIRCULATION_] and
    that the application does not set, each with the value of the module,
    and nothing else; a second call changes nothing. *)
Theorem init_config_keeps_the_settings {V} (module : list (string * V))
    (config : gmap string V) :
  (forall k v, config !! k = Some v ->
     init_config module config !! k = Some v)
  /\ (forall k, config !! k = None ->
        init_config module config !! k
        = if String.prefix "CIRCULATION_" k
          then (list_to_map module : gmap string V) !! k
          else None)
  /\ init_config module (init_config module config)
     = init_config module config.
Proof.
  split; [|split].
  - intros k v H. now rewrite init_config_lookup, H.
  - intros k H. now rewrite init_config_lookup, H.
  - apply init_config_done.
Qed.

Lemma init_config_insert_done {V} (module : list (string * V))
    (config : gmap string V) k v :
  String.prefix "CIRCULATION_" k = false ->
  init_config module (<[k := v]> (init_config module config))
  = <[k := v]> (init_config module config).
Proof.
  intros Hk. apply map_eq. intros i. rewrite init_config_lookup.
  destruct (decide (k = i)) as [<-|Hne].
  - now rewrite lookup_insert_eq.
  - rewrite lookup_insert_ne by exact Hne.
    destruct (init_config module config !! i) eqn:E; [reflexivity|].
    rewrite init_config_lookup in E.
    destruct (config !! i); [discriminate|].
    now destruct (String.prefix "CIRCULATION_" i).
Qed.

(** [update] with the same dict a second time changes nothing. *)
Lemma update_twice (g : list (gmap string endpoint)) r c :
  r < length g ->
  let g' := <[r := default ∅ (g !! c) ∪ default ∅ (g !! r)]> g in
  <[r := default ∅ (g' !! c) ∪ default ∅ (g' !! r)]> g' = g'.
Proof.
  intros Hr g'. subst g'.
  rewrite list_lookup_insert_eq by exact Hr. simpl.
  destruct (decide (r = c)) as [<-|Hne].
  - rewrite list_lookup_insert_eq by exact Hr. simpl.
    rewrite (idemp_L (∪)). apply list_insert_insert_eq.
  - rewrite list_lookup_insert_ne by exact Hne.
    rewrite (assoc_L (∪)), (idemp_L (∪)). apply list_insert_insert_eq.
Qed.

(** X16. When [init_app] succeeds, the application keeps all its
    settings; RECORDS_REST_ENDPOINTS is a dict that holds the endpoints of
    CIRCULATION_REST_ENDPOINTS, which replace the endpoints of the same
    names, and the endpoints that it had under other names; no other dict
    is changed; the extension is registered under [invenio-circulation];
    and a second call changes nothing. *)
Theorem init_app_registers_the_endpoints module app h h' app' :
  settings_in module app h ->
  init_app module app h = (h', app', inr tt) ->
  (forall k s, config app !! k = Some s -> config app' !! k = Some s)
  /\ extensions app'
     = <["invenio-circulation" := InvenioCirculation_self]> (extensions app)
  /\ (exists r c,
        config app' !! "RECORDS_REST_ENDPOINTS" = Some (DictRef r)
        /\ config app' !! "CIRCULATION_REST_ENDPOINTS" = Some (DictRef c)
        /\ h' !! r = Some (default ∅ (h !! c) ∪ default ∅ (h !! r))
        /\ forall i, i <> r -> h' !! i = h !! i)
  /\ init_app module app' h' = (h', app', inr tt).
Proof.
  intros [Happ Hmod].
  assert (forall k s, config app !! k = Some s ->
                      init_config module (config app) !! k = Some s) as Hkeep
    by (intros k s H; now rewrite init_config_lookup, H).
  assert (forall k r,
            init_config module (config app) !! k = Some (DictRef r) ->
            r < length h) as Hrange.
  { intros k r. rewrite init_config_lookup.
    destruct (config app !! k) eqn:E.
    - intros [= ->]. exact (Happ _ _ E).
    - destruct (String.prefix "CIRCULATION_" k); [|discriminate].
      intros H. apply elem_of_list_to_map_2 in H. exact (Hmod _ _ H). }
  unfold init_app.
  destruct (init_config module (config app) !! "RECORDS_REST_ENDPOINTS")
    as [s|] eqn:ER.
  - rewrite ER. destruct s as [r|name]; [|discriminate].
    destruct (init_config module (config app)
                !! "CIRCULATION_REST_ENDPOINTS") as [[c|name]|] eqn:EC;
      try discriminate.
    intros [= <- <-]. simpl.
    pose proof (Hrange _ _ ER) as Hr.
    split; [exact Hkeep|]. split; [reflexivity|]. split.
    + exists r, c. split; [exact ER|]. split; [exact EC|].
      split; [now apply list_lookup_insert_eq|].
      intros i Hi. now apply list_lookup_insert_ne.
    + rewrite init_config_done, ER, ER, EC.
      rewrite (update_twice h r c Hr). now rewrite insert_insert_eq.
  - rewrite lookup_insert_eq.
    rewrite lookup_insert_ne by discriminate.
    destruct (init_config module (config app)
                !! "CIRCULATION_REST_ENDPOINTS") as [[c|name]|] eqn:EC;
      try discriminate.
    intros [= <- <-]. simpl.
    pose proof (Hrange _ _ EC) as Hc.
    assert (length h < length (h ++ [∅ : gmap string endpoint])) as Hr
      by (rewrite length_app; simpl; lia).
    split.
    { intros k s H. rewrite lookup_insert_ne; [now apply Hkeep|].
      intros <-. rewrite (Hkeep _ _ H) in ER. discriminate. }
    split; [reflexivity|]. split.
    + exists (length h), c. split; [apply lookup_insert_eq|].
      split; [now rewrite lookup_insert_ne by discriminate|].
      split.
      * rewrite list_lookup_insert_eq by exact Hr.
        rewrite lookup_app_l by exact Hc.
        rewrite list_lookup_middle by reflexivity.
        now rewrite (lookup_ge_None_2 h (length h)) by lia.
      * intros i Hi. rewrite list_lookup_insert_ne by lia.
        destruct (decide (i < length h)) as [Hlt|Hge].
        -- now apply lookup_app_l.
        -- rewrite !lookup_ge_None_2; [reflexivity|lia|].
           rewrite length_app. simpl. lia.
    + rewrite init_config_insert_done by reflexivity.
      rewrite !lookup_insert_eq.
      rewrite lookup_insert_ne by discriminate. rewrite EC.
      rewrite (update_twice (h ++ [∅]) (length h) c Hr).
      now rewrite insert_insert_eq.
Qed.

(** ** The engine and its table *)

Lemma init_state_instances src_state refs self h h0 h' self' cur :
  NoDup refs ->
  (forall t, t ∈ refs -> content h t = content h0 t) ->
  self !! src_state = Some cur ->
  init_state src_state refs self h = (h', inr self') ->
  exists instances,
    Forall2 (fun t instance =>
               instance_of src_state (content h0 t) = inr instance)
      refs instances
    /\ self' = <[src_state := (cur ++ instances)%list]> self.
Proof.
  intros Hnd. revert self h cur.
  induction Hnd as [|t rest Hout Hnd IH]; intros self h cur Hh Hcur; simpl.
  - intros [= _ <-]. exists []. split; [constructor|].
    rewrite app_nil_r. symmetry. now apply insert_id.
  - rewrite make_instance_eq, (Hh t) by now left.
    destruct (instance_of src_state (content h0 t)) as [e|instance] eqn:E;
      [discriminate|].
    rewrite Hcur. simpl. intros Hinit.
    destruct (IH (<[src_state := (cur ++ [instance])%list]> self)
                (popped t h) (cur ++ [instance])%list)
      as (instances & Hall & ->); [| |exact Hinit|].
    + intros u Hu. rewrite popped_content_ne by (intros ->; contradiction).
      apply Hh. now right.
    + apply lookup_insert_eq.
    + exists (instance :: instances). split; [now constructor|].
      now rewrite insert_insert_eq, <- app_assoc.
Qed.

Lemma init_states_instances transitions_config self h h0 h' self' :
  NoDup transitions_config.*1 ->
  NoDup (config_refs transitions_config) ->
  (forall s, s ∈ transitions_config.*1 -> self !! s = None) ->
  (forall t, t ∈ config_refs transitions_config ->
     content h t = content h0 t) ->
  init_states transitions_config self h = (h', inr self') ->
  (forall s, s ∉ transitions_config.*1 -> self' !! s = self !! s)
  /\ forall s refs, (s, refs) ∈ transitions_config ->
       exists candidates,
         self' !! s = Some candidates
         /\ Forall2 (fun t instance =>
                       instance_of s (content h0 t) = inr instance)
              refs candidates.
Proof.
  revert self h.
  induction transitions_config as [|[s refs] rest IH];
    intros self h Hkeys Hrefs Hfresh Hh; simpl.
  - intros [= _ <-]. split; [reflexivity|].
    intros s refs H. now apply not_elem_of_nil in H.
  - simpl in Hkeys. apply NoDup_cons in Hkeys as [Hs Hkeys].
    unfold config_refs in Hrefs, Hh. simpl in Hrefs, Hh.
    apply NoDup_app in Hrefs as (Hnd & Hdisj & Hrest).
    rewrite (Hfresh s) by now left.
    destruct (init_state s refs (<[s := []]> self) h)
      as [h1 [e|self2]] eqn:E; [discriminate|].
    intros Hinit.
    destruct (init_state_instances s refs (<[s := []]> self) h h0 h1 self2 []
                Hnd) as (instances & Hall & ->); [| |exact E|].
    { intros t Ht. apply Hh, elem_of_app. now left. }
    { apply lookup_insert_eq. }
    rewrite insert_insert_eq in Hinit. simpl in Hinit.
    pose proof (init_state_frame s refs (<[s := []]> self) h) as [_ Hframe].
    rewrite E in Hframe. simpl in Hframe.
    destruct (IH (<[s := instances]> self) h1 Hkeys Hrest)
      as [Hother Hmade]; [| |exact Hinit|].
    { intros s' Hs'. rewrite lookup_insert_ne by (intros ->; contradiction).
      apply Hfresh. now right. }
    { intros t Ht. unfold content. rewrite Hframe by (intros ?; now apply (Hdisj t)).
      apply Hh, elem_of_app. now right. }
    split.
    + intros s' Hs'. rewrite Hother by (intros ?; apply Hs'; now right).
      apply lookup_insert_ne. intros ->. apply Hs'. now left.
    + intros s' refs' Hin. apply elem_of_cons in Hin as [[= -> ->]|Hin].
      * exists instances. split; [|exact Hall].
        rewrite (Hother s Hs). apply lookup_insert_eq.
      * now apply Hmade.
Qed.

(** X17. The engine follows its table. When the states of a configuration
    are distinct and no descriptor is shared, an engine built from it knows
    exactly the states of the configuration, a state without descriptors
    included, and holds for each state one candidate for each descriptor, in
    the order of the list: an instance of the class that the descriptor
    names (of the base class when it names none), made from the other keys
    of the descriptor and the state. *)
Theorem engine_follows_the_table transitions_config h h' self :
  NoDup transitions_config.*1 ->
  NoDup (config_refs transitions_config) ->
  _Circulation_init transitions_config h = (h', inr self) ->
  (forall s, is_Some (self !! s) <-> s ∈ transitions_config.*1)
  /\ forall s refs, (s, refs) ∈ transitions_config ->
       exists candidates,
         self !! s = Some candidates
         /\ Forall2 (fun t instance =>
                       instance_of s (content h t) = inr instance)
              refs candidates.
Proof.
  intros Hkeys Hrefs Hinit. unfold _Circulation_init in Hinit.
  destruct (init_states_instances transitions_config ∅ h h h' self
              Hkeys Hrefs) as [Hother Hmade]; [| |exact Hinit|].
  { intros s _. apply lookup_empty. }
  { reflexivity. }
  split; [|exact Hmade].
  intros s. split.
  - intros Hsome. destruct (decide (s ∈ transitions_config.*1)) as [|Hout];
      [assumption|].
    rewrite (Hother s Hout), lookup_empty in Hsome. now destruct Hsome.
  - intros Hin. apply list_elem_of_fmap in Hin as ([s' refs] & -> & Hin).
    destruct (Hmade _ _ Hin) as (candidates & Hc & _). simpl.
    rewrite Hc. eauto.
Qed.

(** X18. A start and an end of which one carries a time zone and the other
    does not cannot be compared: [_ensure_valid_loan] raises [TypeError],
    whatever the policies, and leaves the loan with its start date
    defaulted. *)
Theorem ensure_valid_loan_mixed_dates
    cfg loan transaction_date end_date sd ed :
  loan !! "transaction_date" = Some transaction_date ->
  parse_date (default transaction_date (loan !! "start_date"))
  = inr (VDate sd) ->
  loan !! "end_date" = Some end_date ->
  parse_date end_date = inr (VDate ed) ->
  ~ (utcoffset sd = None <-> utcoffset ed = None) ->
  _ensure_valid_loan cfg loan
  = (start_defaulted transaction_date loan, inl TypeError).
Proof.
  intros Ht Hs He Hp Hkind.
  rewrite _ensure_valid_loan_eq, Ht. cbv zeta.
  assert (period cfg transaction_date loan = inl TypeError) as ->;
    [|reflexivity].
  unfold period, res_bind. rewrite Hs, He. simpl. rewrite Hp. simpl.
  unfold py_lt, common_line, res_bind.
  destruct (utcoffset sd), (utcoffset ed); try reflexivity;
    exfalso; apply Hkind; split; congruence.
Qed.

End Circulation.

(** * The model on concrete loans

    The library functions are here the reader and the writer of the section
    on date strings. *)

(** A pair is known by its first component once the second is. *)
Lemma pair_of_snd {A B} (p : A * B) (b : B) : p.2 = b -> p = (p.1, b).
Proof. destruct p. simpl. now intros ->. Qed.

(** The outcome of a call, and the state and a field of the loan after it. *)
Abbreviation run cfg kwargs loan :=
  (_Circulation_trigger iso8601_parse iso8601_format cfg current_circulation
     kwargs loan).

(** The checkout of the test-suite: thirty days from the transaction date. *)
Example checkout_of_created_loan :
  let outcome := run default_config checkout_params loan_created in
  outcome.2 = inr tt
  /\ outcome.1 !! "state" = Some (VStr "ITEM_ON_LOAN")
  /\ outcome.1 !! "start_date" = Some (VStr "2018-02-01T09:30:00+02:00")
  /\ outcome.1 !! "end_date" = Some (VStr "2018-03-03T09:30:00+02:00").
Proof.
  split; [by_running|]. split; [by_running|]. split; by_running.
Qed.

(** The dates given to a checkout are stored as they were given. *)
Example checkout_with_input_start_end_dates :
  let outcome := run default_config dated_params loan_created in
  outcome.2 = inr tt
  /\ outcome.1 !! "state" = Some (VStr "ITEM_ON_LOAN")
  /\ outcome.1 !! "start_date" = Some (VStr "2018-02-01T09:30:00+02:00")
  /\ outcome.1 !! "end_date" = Some (VStr "2018-02-10T09:30:00+02:00").
Proof.
  split; [by_running|]. split; [by_running|]. split; by_running.
Qed.

(** A date that cannot be read is a [ValueError] of the call. *)
Example checkout_fails_when_wrong_dates :
  (run default_config
     (<["start_date" := VStr "2018-xx"]>
        (<["end_date" := VStr "2018-xx"]> checkout_params))
     loan_created).2
  = inl ValueError.
Proof. by_running. Qed.

Example loan_request :
  let outcome := run default_config request_params loan_created in
  outcome.2 = inr tt /\ outcome.1 !! "state" = Some (VStr "PENDING").
Proof. split; by_running. Qed.

(** [cancel] is not declared for a CREATED loan. *)
Example cancel_of_created_loan :
  (run default_config (<["trigger" := VStr "cancel"]> example_params)
     loan_created).2
  = inl NoValidTransitionAvailable.
Proof. by_running. Qed.

(** [cancel] after a checkout. *)
Example cancel_of_loan_on_loan :
  let checked_out := (run default_config checkout_params loan_created).1 in
  let outcome :=
    run default_config (<["trigger" := VStr "cancel"]> example_params)
      checked_out in
  outcome.2 = inr tt /\ outcome.1 !! "state" = Some (VStr "CANCELLED").
Proof. split; by_running. Qed.

(** A request, then the validation of the request where the item is. *)
Example validate_item_at_desk :
  let pending := (run default_config request_params loan_created).1 in
  let outcome :=
    run (located_config "pickup_location_pid") example_params pending in
  outcome.2 = inr tt /\ outcome.1 !! "state" = Some (VStr "ITEM_AT_DESK").
Proof. split; by_running. Qed.

Example validate_item_in_transit_for_pickup :
  let pending := (run default_config request_params loan_created).1 in
  let outcome :=
    run (located_config "external_location_pid") example_params pending in
  outcome.2 = inr tt
  /\ outcome.1 !! "state" = Some (VStr "ITEM_IN_TRANSIT_FOR_PICKUP").
Proof. split; by_running. Qed.

(** A check-in at the location of the item, a month after the checkout. *)
Example checkin_end_date_is_transaction_date :
  let checked_out := (run default_config dated_params loan_created).1 in
  let outcome :=
    run (located_config "loc_pid")
      (<["transaction_date" := VStr "2018-03-11T19:15:00+02:00"]>
         example_params)
      checked_out in
  outcome.2 = inr tt
  /\ outcome.1 !! "state" = Some (VStr "ITEM_RETURNED")
  /\ outcome.1 !! "end_date" = Some (VStr "2018-03-11T19:15:00+02:00").
Proof. split; [by_running|]. split; by_running. Qed.

(** A returned loan has no transition left. *)
Example trigger_on_returned_loan :
  (run default_config example_params {[ "state" := VStr "ITEM_RETURNED" ]}).2
  = inl NoValidTransitionAvailable.
Proof. by_running. Qed.

(** A loan without a state, or with a state that is not in the table. *)
Example trigger_on_invalid_state :
  (run default_config example_params ∅).2 = inl InvalidState
  /\ (run default_config example_params {[ "state" := VStr "LOST" ]}).2
     = inl InvalidState.
Proof. split; by_running. Qed.

(** The availability of the items of the test-suite. *)
Example item_availibility :
  api_is_item_available indexed_loans (VStr "item_pending_1") = false
  /\ api_is_item_available indexed_loans (VStr "item_on_loan_2") = false
  /\ api_is_item_available indexed_loans (VStr "item_returned_3") = true
  /\ api_is_item_available indexed_loans (VStr "item_in_transit_4") = false
  /\ api_is_item_available indexed_loans (VStr "item_at_desk_5") = false
  /\ api_is_item_available indexed_loans (VStr "item_pending_on_loan_6")
     = false
  /\ api_is_item_available indexed_loans (VStr "item_returned_6") = true
  /\ api_is_item_available indexed_loans (VStr "item_cancelled_8") = true
  /\ api_is_item_available indexed_loans (VStr "no_loan") = true.
Proof. repeat (split; [by_running|]). by_running. Qed.

(** C7. The guard of the at-desk checkout never accepts, whatever the loan,
    the context and the configuration; on the ITEM_AT_DESK loan of the
    examples it raises [NameError], and so does the call to [trigger], where
    the guard of the direct checkout accepts the same dates. *)
Theorem at_desk_checkout_raises_name_error :
  (forall parse_datetime cfg t kwargs loan,
      snd (ItemAtDeskToItemOnLoan_before parse_datetime cfg t kwargs loan)
      <> inr tt)
  /\ snd (ItemAtDeskToItemOnLoan_before iso8601_parse default_config
            (mk_transition ItemAtDeskToItemOnLoan "ITEM_AT_DESK"
               "ITEM_ON_LOAN" None)
            example_params loan_at_desk)
     = inl NameError
  /\ (run default_config example_params loan_at_desk).2 = inl NameError
  /\ snd (CreatedToItemOnLoan_before iso8601_parse iso8601_format
            default_config
            (mk_transition CreatedToItemOnLoan "ITEM_AT_DESK" "ITEM_ON_LOAN"
               None)
            example_params loan_at_desk)
     = inr tt.
Proof.
  split; [exact ItemAtDeskToItemOnLoan_before_raises|].
  split; [by_running|]. split; by_running.
Qed.

(** ** Instances of the claims

    Each theorem with hypotheses is applied to a loan of the examples. *)

(** The checkout of a CREATED loan applies the checkout edge, after the
    request edge was rejected. *)
Lemma trigger_applies_at_most_one_transition_witness :
  let loan' :=
    (run default_config checkout_params loan_created).1 in
  run default_config checkout_params loan_created
  = (loan', inr tt)
  /\ exists s pre t post mid,
       loan_created !! "state" = Some (VStr s)
       /\ current_circulation !! s = Some (pre ++ t :: post)
       /\ soft_rejected iso8601_parse iso8601_format default_config
            checkout_params pre loan_created = Some mid
       /\ execute iso8601_parse iso8601_format default_config t
            checkout_params mid = (loan', inr tt)
       /\ loan' !! "state" = Some (VStr (dest t))
       /\ dest t ∈ declared_destinations s.
Proof.
  intros loan'.
  assert (run default_config checkout_params loan_created = (loan', inr tt))
    as H
    by (apply pair_of_snd; by_running).
  clearbody loan'. split; [exact H|].
  exact (proj1 (trigger_applies_at_most_one_transition
                  iso8601_parse iso8601_format default_config checkout_params
                  loan_created loan' (inr tt) H) eq_refl).
Defined.

(** On a PENDING loan whose item is elsewhere, the first guard rejects
    softly and the call goes on with the other two candidates. *)
Lemma soft_rejection_caught_hard_rejection_propagates_witness :
  let t := mk_transition PendingToItemAtDesk "PENDING" "ITEM_AT_DESK" None in
  let post :=
    [mk_transition PendingToItemInTransitPickup "PENDING"
       "ITEM_IN_TRANSIT_FOR_PICKUP" None;
     mk_transition Transition "PENDING" "CANCELLED" (Some "cancel")] in
  let loan1 :=
    (before iso8601_parse iso8601_format default_config t example_params
       loan_pending).1 in
  before iso8601_parse iso8601_format default_config t example_params
    loan_pending = (loan1, inl TransitionConditionsFailed)
  /\ run default_config example_params loan_pending
     = trigger_loop iso8601_parse iso8601_format default_config post
         example_params loan1.
Proof.
  intros t post loan1.
  assert (before iso8601_parse iso8601_format default_config t example_params
            loan_pending = (loan1, inl TransitionConditionsFailed)) as H
    by (apply pair_of_snd; by_running).
  clearbody loan1. split; [exact H|].
  refine (proj1 (soft_rejection_caught_hard_rejection_propagates
                   iso8601_parse iso8601_format default_config
                   current_circulation example_params loan_pending "PENDING"
                   [] t post loan_pending loan1 TransitionConditionsFailed
                   _ _ _ _ H) eq_refl).
  - by_running.
  - discriminate.
  - by_running.
  - reflexivity.
Defined.

(** The PENDING loan of the examples, under the default retriever. *)
Lemma pending_loan_at_desk_or_in_transit_witness :
  loan_pending !! "state" = Some (VStr "PENDING")
  /\ example_params !! "trigger" = None
  /\ exists d,
       run default_config example_params loan_pending
       = (<["state" := VStr d]> (with_context example_params loan_pending),
          inr tt)
       /\ (d = "ITEM_AT_DESK"
           <-> py_eq (VStr "pickup_location_pid") VNone = true)
       /\ (d = "ITEM_IN_TRANSIT_FOR_PICKUP"
           <-> py_eq (VStr "pickup_location_pid") VNone = false).
Proof.
  assert (loan_pending !! "state" = Some (VStr "PENDING")) as Hs
    by by_running.
  assert (example_params !! "trigger" = None) as Hk
    by by_running.
  split; [exact Hs|]. split; [exact Hk|].
  destruct (pending_loan_at_desk_or_in_transit
              iso8601_parse iso8601_format default_config example_params
              loan_pending (VStr "item_pid") (VStr "pickup_location_pid")
              VNone Hs Hk)
    as (d & Hd & Hdesk & Htransit & _);
    [by_running | by_running | reflexivity |].
  exists d. auto.
Defined.

(** The check-in of the loan of the examples, away from the place of its
    item. *)
Lemma check_in_returned_or_in_transit_witness :
  loan_on_loan !! "state" = Some (VStr "ITEM_ON_LOAN")
  /\ example_params !! "trigger" = None
  /\ exists loan',
       run default_config example_params loan_on_loan = (loan', inr tt)
       /\ loan' !! "state" = Some (VStr "ITEM_IN_TRANSIT_TO_HOUSE")
       /\ loan' !! "end_date" = Some (VStr "2018-02-01T09:30:00+02:00")
       /\ loan' !! "transaction_date"
          = Some (VStr "2018-02-01T09:30:00+02:00").
Proof.
  assert (loan_on_loan !! "state" = Some (VStr "ITEM_ON_LOAN")) as Hs
    by by_running.
  assert (example_params !! "trigger" = None) as Hk
    by by_running.
  split; [exact Hs|]. split; [exact Hk|].
  apply (check_in_returned_or_in_transit
           iso8601_parse iso8601_format default_config example_params
           loan_on_loan (VStr "item_pid") (VStr "loc_pid") VNone
           (VStr "2018-02-01T09:30:00+02:00") Hs Hk);
    solve [by_running | reflexivity].
Defined.

(** A checkout from February back to January. *)
Lemma checkout_with_inverted_dates_fails_witness :
  loan_created !! "state" = Some (VStr "CREATED")
  /\ inverted_params !! "trigger" = Some (VStr "checkout")
  /\ py_lt (VDate january_first) (VDate february_first) = inr true
  /\ exists loan',
       run default_config inverted_params loan_created
       = (loan', inl TransitionConstraintsViolation)
       /\ loan' !! "state" = Some (VStr "CREATED").
Proof.
  assert (loan_created !! "state" = Some (VStr "CREATED")) as Hs
    by by_running.
  assert (inverted_params !! "trigger" = Some (VStr "checkout")) as Hk
    by by_running.
  assert (py_lt (VDate january_first) (VDate february_first) = inr true)
    as Hlt by by_running.
  split; [exact Hs|]. split; [exact Hk|]. split; [exact Hlt|].
  apply (checkout_with_inverted_dates_fails
           iso8601_parse iso8601_format default_config inverted_params
           loan_created (VStr "2018-02-01T09:30:00+02:00")
           (VStr "2018-01-01T09:30:00+02:00") february_first january_first
           Hs Hk);
    solve [by_running | exact Hlt].
Defined.

(** The checkout of the examples, without any date but that of the
    transaction. *)
Lemma checkout_default_duration_witness :
  loan_created !! "state" = Some (VStr "CREATED")
  /\ checkout_params !! "trigger" = Some (VStr "checkout")
  /\ with_context checkout_params loan_created !! "end_date" = None
  /\ exists loan',
       run default_config checkout_params loan_created = (loan', inr tt)
       /\ loan' !! "state" = Some (VStr "ITEM_ON_LOAN")
       /\ loan' !! "start_date"
          = Some (VStr (iso8601_format february_first))
       /\ loan' !! "end_date"
          = Some (VStr (iso8601_format
                          (mk_datetime
                             (wall february_first + 30 * usec_per_day)
                             (utcoffset february_first)))).
Proof.
  assert (loan_created !! "state" = Some (VStr "CREATED")) as Hs
    by by_running.
  assert (checkout_params !! "trigger" = Some (VStr "checkout")) as Hk
    by by_running.
  assert (with_context checkout_params loan_created !! "end_date" = None)
    as He by by_running.
  split; [exact Hs|]. split; [exact Hk|]. split; [exact He|].
  destruct (checkout_default_duration
              iso8601_parse iso8601_format default_config checkout_params
              loan_created (VStr "2018-02-01T09:30:00+02:00") february_first
              Hs Hk)
    as [Hfields Hruns].
  - by_running.
  - left. by_running.
  - exact He.
  - by_running.
  - reflexivity.
  - destruct Hruns as [loan' Hrun].
    + reflexivity.
    + vm_compute. discriminate.
    + vm_compute. discriminate.
    + exists loan'. split; [exact Hrun|]. exact (Hfields loan' Hrun).
Defined.

(** The construction from the configuration of one edge. *)
Lemma construction_mutates_only_the_copy_witness :
  let h' := (_Circulation_init one_edge_config one_edge_heap).1 in
  let self : circulation :=
    {[ "CREATED" := [mk_transition CreatedToPending "CREATED" "PENDING"
                       (Some "request")] ]} in
  _Circulation_init one_edge_config one_edge_heap = (h', inr self)
  /\ length h' = length one_edge_heap
  /\ (forall t, t ∈ config_refs one_edge_config ->
        h' !! t = delete "transition" <$> one_edge_heap !! t)
  /\ exists copies,
       (InvenioCirculation_circulation CIRCULATION_LOAN_TRANSITIONS
          config_heap).1 = config_heap ++ copies.
Proof.
  intros h' self.
  assert (_Circulation_init one_edge_config one_edge_heap = (h', inr self))
    as H by by_running.
  split; [exact H|].
  destruct (construction_mutates_only_the_copy
              one_edge_config one_edge_heap h' self
              CIRCULATION_LOAN_TRANSITIONS config_heap H)
    as (Hlen & Hpop & _ & Hext & _).
  auto.
Defined.

(** The checkout of the examples under a policy that answers [False]. *)
Lemma falsy_validation_raises_assertion_error_witness :
  let loan := with_context checkout_params loan_created in
  let loan1 := (loan_period iso8601_parse refusing_config loan).1 in
  let ending :=
    mk_datetime (wall february_first + 30 * usec_per_day)
      (utcoffset february_first) in
  loan_period iso8601_parse refusing_config loan
  = (loan1, inr (VDate february_first, VDate ending))
  /\ truthy (VBool false) = false
  /\ _ensure_valid_loan iso8601_parse iso8601_format refusing_config loan
     = (loan1, inl AssertionError).
Proof.
  intros loan loan1 ending.
  assert (loan_period iso8601_parse refusing_config loan
          = (loan1, inr (VDate february_first, VDate ending))) as H
    by (apply pair_of_snd; by_running).
  clearbody loan1. split; [exact H|]. split; [reflexivity|].
  exact (proj1 (falsy_validation_raises_assertion_error
                  iso8601_parse iso8601_format refusing_config loan loan1
                  (VDate february_first) (VDate ending) (VBool false)
                  H eq_refl eq_refl)).
Defined.

(** ** Counterexamples *)

(** C9, as stated, fails: the descriptor of the configuration given to
    [_Circulation.__init__] no longer has its key [transition]. *)
Lemma init_pops_the_transition_key :
  let h' :=
    (_Circulation_init CIRCULATION_LOAN_TRANSITIONS config_heap).1 in
  h' <> config_heap
  /\ config_heap !! 0 ≫= (fun d => d !! "transition")
     = Some (DCls CreatedToPending)
  /\ h' !! 0 ≫= (fun d => d !! "transition") = None.
Proof.
  intros h'.
  assert (h' !! 0 ≫= (fun d => d !! "transition") = None) as Hafter
    by by_running.
  assert (config_heap !! 0 ≫= (fun d => d !! "transition")
          = Some (DCls CreatedToPending)) as Hbefore
    by by_running.
  clearbody h'.
  split; [|split; assumption].
  intros Heq. rewrite Heq, Hbefore in Hafter. discriminate.
Qed.

(** ** Instances of the further properties

    Each of them is applied to the data of the examples. *)

(** The transaction date of the examples, read and read again. *)
Lemma parse_date_idempotent_witness :
  parse_date iso8601_parse (VStr "2018-02-01T09:30:00+02:00")
  = inr (VDate february_first)
  /\ parse_date iso8601_parse (VDate february_first)
     = inr (VDate february_first).
Proof.
  assert (parse_date iso8601_parse (VStr "2018-02-01T09:30:00+02:00")
          = inr (VDate february_first)) as H by by_running.
  split; [exact H|].
  exact (proj1 (parse_date_idempotent iso8601_parse _ _ H)).
Defined.

(** A loan of the month of January 2018: thirty-one days. *)
Lemma is_loan_valid_sixty_days_witness :
  (utcoffset january_first = None <-> utcoffset february_first = None)
  /\ is_loan_valid ∅ (VDate january_first) (VDate february_first)
     = inr (VBool true).
Proof.
  assert (utcoffset january_first = None <-> utcoffset february_first = None)
    as Hkind by (split; discriminate).
  split; [exact Hkind|].
  apply (proj1 (is_loan_valid_sixty_days ∅ january_first february_first
                  Hkind)).
  vm_compute. discriminate.
Defined.

(** The checkout of the examples with its two dates. *)
Lemma ensure_valid_loan_stores_ordered_dates_witness :
  let loan := with_context dated_params loan_created in
  let loan' :=
    (_ensure_valid_loan iso8601_parse iso8601_format default_config loan).1 in
  _ensure_valid_loan iso8601_parse iso8601_format default_config loan
  = (loan', inr tt)
  /\ exists sd ed,
       (utc sd <= utc ed)%Z
       /\ loan' = <["end_date" := VStr (iso8601_format ed)]>
                    (<["start_date" := VStr (iso8601_format sd)]> loan).
Proof.
  intros loan loan'.
  assert (_ensure_valid_loan iso8601_parse iso8601_format default_config loan
          = (loan', inr tt)) as H by (apply pair_of_snd; by_running).
  clearbody loan'. split; [exact H|].
  destruct (ensure_valid_loan_stores_ordered_dates
              iso8601_parse iso8601_format default_config loan loan' H)
    as (transaction_date & sd & ed & _ & _ & _ & Hle & Heq).
  exists sd, ed. split; [exact Hle|exact Heq].
Defined.

(** The checkout of the examples from February back to January. *)
Lemma ensure_valid_loan_failure_frame_witness :
  let loan := with_context inverted_params loan_created in
  let loan' :=
    (_ensure_valid_loan iso8601_parse iso8601_format default_config loan).1 in
  _ensure_valid_loan iso8601_parse iso8601_format default_config loan
  = (loan', inl TransitionConstraintsViolation)
  /\ forall key, key <> "start_date" -> loan' !! key = loan !! key.
Proof.
  intros loan loan'.
  assert (_ensure_valid_loan iso8601_parse iso8601_format default_config loan
          = (loan', inl TransitionConstraintsViolation)) as H
    by (apply pair_of_snd; by_running).
  clearbody loan'. split; [exact H|].
  exact (proj1 (ensure_valid_loan_failure_frame
                  iso8601_parse iso8601_format default_config loan loan'
                  TransitionConstraintsViolation H)).
Defined.

(** The same checkout, by the table of its dates. *)
Lemma ensure_valid_loan_given_dates_witness :
  let loan := with_context inverted_params loan_created in
  loan !! "transaction_date" = Some (VStr "2018-02-01T09:30:00+02:00")
  /\ loan !! "end_date" = Some (VStr "2018-01-01T09:30:00+02:00")
  /\ _ensure_valid_loan iso8601_parse iso8601_format default_config loan
     = (start_defaulted (VStr "2018-02-01T09:30:00+02:00") loan,
        inl TransitionConstraintsViolation).
Proof.
  intros loan.
  assert (loan !! "transaction_date"
          = Some (VStr "2018-02-01T09:30:00+02:00")) as Ht by by_running.
  assert (loan !! "end_date" = Some (VStr "2018-01-01T09:30:00+02:00"))
    as He by by_running.
  assert (parse_date iso8601_parse
            (default (VStr "2018-02-01T09:30:00+02:00")
               (loan !! "start_date"))
          = inr (VDate february_first)) as Hs by by_running.
  assert (parse_date iso8601_parse (VStr "2018-01-01T09:30:00+02:00")
          = inr (VDate january_first)) as Hp by by_running.
  clearbody loan. split; [exact Ht|]. split; [exact He|].
  exact (ensure_valid_loan_given_dates
           iso8601_parse iso8601_format default_config loan
           _ _ february_first january_first Ht Hs He Hp
           (conj (fun H => H) (fun H => H)) (fun _ _ _ => eq_refl)).
Defined.

(** The checkout of the examples when the default duration is negative. *)
Lemma ensure_valid_loan_negative_duration_witness :
  let loan := with_context checkout_params loan_created in
  loan !! "end_date" = None
  /\ duration_default backwards_config
       (start_defaulted (VStr "2018-02-01T09:30:00+02:00") loan)
     = inr (VInt (-1))
  /\ _ensure_valid_loan iso8601_parse iso8601_format backwards_config loan
     = (start_defaulted (VStr "2018-02-01T09:30:00+02:00") loan,
        inl KeyError).
Proof.
  intros loan.
  assert (loan !! "transaction_date"
          = Some (VStr "2018-02-01T09:30:00+02:00")) as Ht by by_running.
  assert (loan !! "end_date" = None) as He by by_running.
  assert (parse_date iso8601_parse
            (default (VStr "2018-02-01T09:30:00+02:00")
               (loan !! "start_date"))
          = inr (VDate february_first)) as Hs by by_running.
  clearbody loan. split; [exact He|]. split; [reflexivity|].
  apply (ensure_valid_loan_negative_duration
           iso8601_parse iso8601_format backwards_config loan
           _ february_first (-1) Ht Hs He eq_refl).
  - lia.
  - vm_compute. discriminate.
  - vm_compute. discriminate.
Defined.

(** The dates that the checkout of the examples stores are accepted again. *)
Lemma ensure_valid_loan_again_witness :
  let loan := with_context checkout_params loan_created in
  let loan' :=
    (_ensure_valid_loan iso8601_parse iso8601_format default_config loan).1 in
  _ensure_valid_loan iso8601_parse iso8601_format default_config loan
  = (loan', inr tt)
  /\ _ensure_valid_loan iso8601_parse iso8601_format default_config loan'
     = (loan', inr tt).
Proof.
  intros loan loan'.
  set (ending := mk_datetime (wall february_first + 30 * usec_per_day)
                   (utcoffset february_first)).
  assert (_ensure_valid_loan iso8601_parse iso8601_format default_config loan
          = (loan', inr tt)) as H by (apply pair_of_snd; by_running).
  assert (loan !! "transaction_date"
          = Some (VStr "2018-02-01T09:30:00+02:00")) as Ht by by_running.
  assert (period iso8601_parse default_config
            (VStr "2018-02-01T09:30:00+02:00") loan
          = inr (VDate february_first, VDate ending)) as Hp by by_running.
  clearbody loan loan'. split; [exact H|].
  apply (ensure_valid_loan_again
           iso8601_parse iso8601_format default_config loan loan'
           _ february_first ending Ht Hp H).
  - by_running.
  - by_running.
  - vm_compute. discriminate.
  - vm_compute. discriminate.
  - reflexivity.
Defined.

(** A loan without a state. *)
Lemma trigger_invalid_state_witness :
  truthy (default VNone ((∅ : Loan) !! "state")) = false
  /\ run default_config example_params ∅ = (∅, inl InvalidState).
Proof.
  assert (truthy (default VNone ((∅ : Loan) !! "state")) = false) as H
    by reflexivity.
  split; [exact H|].
  exact (trigger_invalid_state iso8601_parse iso8601_format default_config
           current_circulation example_params ∅ (or_introl H)).
Defined.

(** A cancelled loan and a checkout. *)
Lemma trigger_on_terminal_state_witness :
  let loan : Loan := {[ "state" := VStr "CANCELLED" ]} in
  loan !! "state" = Some (VStr "CANCELLED")
  /\ run default_config checkout_params loan
     = (loan, inl NoValidTransitionAvailable).
Proof.
  intros loan.
  assert (loan !! "state" = Some (VStr "CANCELLED")) as H by by_running.
  clearbody loan. split; [exact H|].
  exact (trigger_on_terminal_state iso8601_parse iso8601_format
           default_config checkout_params loan (or_intror H)).
Defined.

(** A checkout and then a cancellation: two of the two steps that an
    ITEM_ON_LOAN loan has. *)
Lemma loan_life_is_bounded_witness :
  let calls :=
    [(default_config, checkout_params);
     (default_config, <["trigger" := VStr "cancel"]> example_params)] in
  exists loan',
    trigger_all iso8601_parse iso8601_format calls loan_created = Some loan'
    /\ length calls + loan_steps loan' <= loan_steps loan_created.
Proof.
  intros calls.
  assert (is_Some (trigger_all iso8601_parse iso8601_format calls
                     loan_created)) as [loan' H]
    by (apply (bool_decide_unpack _); by_running).
  exists loan'. split; [exact H|].
  exact (proj1 (loan_life_is_bounded iso8601_parse iso8601_format calls
                  loan_created loan' H)).
Defined.

(** The request of the examples names its pickup location. *)
Lemma request_sets_pickup_location_witness :
  loan_created !! "state" = Some (VStr "CREATED")
  /\ request_params !! "trigger" = Some (VStr "request")
  /\ run default_config request_params loan_created
     = (<["state" := VStr "PENDING"]>
          (with_context request_params loan_created), inr tt).
Proof.
  assert (loan_created !! "state" = Some (VStr "CREATED")) as Hs
    by by_running.
  assert (request_params !! "trigger" = Some (VStr "request")) as Hk
    by by_running.
  split; [exact Hs|]. split; [exact Hk|].
  refine (proj1 (request_sets_pickup_location iso8601_parse iso8601_format
                   default_config request_params loan_created Hs Hk) _).
  by_running.
Defined.

(** The cancellation of the loan of the examples that is on loan. *)
Lemma cancel_moves_to_cancelled_witness :
  let kwargs := <["trigger" := VStr "cancel"]> example_params in
  loan_on_loan !! "state" = Some (VStr "ITEM_ON_LOAN")
  /\ kwargs !! "trigger" = Some (VStr "cancel")
  /\ run default_config kwargs loan_on_loan
     = (<["state" := VStr "CANCELLED"]> (with_context kwargs loan_on_loan),
        inr tt).
Proof.
  intros kwargs.
  assert (loan_on_loan !! "state" = Some (VStr "ITEM_ON_LOAN")) as Hs
    by by_running.
  assert (kwargs !! "trigger" = Some (VStr "cancel")) as Hk by by_running.
  clearbody kwargs. split; [exact Hs|]. split; [exact Hk|].
  apply (proj1 (cancel_moves_to_cancelled iso8601_parse iso8601_format
                  default_config kwargs loan_on_loan "ITEM_ON_LOAN" Hs Hk)).
  do 3 (apply elem_of_cons; right). apply elem_of_cons. now left.
Defined.

(** The configuration of one edge, used twice. *)
Lemma second_construction_loses_the_guards_witness :
  let h' := (_Circulation_init one_edge_config one_edge_heap).1 in
  let self : circulation :=
    {[ "CREATED" := [mk_transition CreatedToPending "CREATED" "PENDING"
                       (Some "request")] ]} in
  _Circulation_init one_edge_config one_edge_heap = (h', inr self)
  /\ _Circulation_init one_edge_config h'
     = (h', inr (without_guards self)).
Proof.
  intros h' self.
  assert (_Circulation_init one_edge_config one_edge_heap = (h', inr self))
    as H by by_running.
  split; [exact H|].
  exact (second_construction_loses_the_guards one_edge_config one_edge_heap
           h' self H).
Defined.

(** The table of config.py. *)
Lemma circulation_is_repeatable_witness :
  Forall (fun t => t < length config_heap)
    (config_refs CIRCULATION_LOAN_TRANSITIONS)
  /\ (InvenioCirculation_circulation CIRCULATION_LOAN_TRANSITIONS
        config_heap).2
     = (_Circulation_init CIRCULATION_LOAN_TRANSITIONS config_heap).2.
Proof.
  assert (Forall (fun t => t < length config_heap)
            (config_refs CIRCULATION_LOAN_TRANSITIONS)) as H
    by (apply (bool_decide_unpack _); by_running).
  split; [exact H|].
  exact (proj1 (circulation_is_repeatable CIRCULATION_LOAN_TRANSITIONS
                  config_heap H)).
Defined.

(** An application that has an endpoint of its own under [loan_pid]. *)
Lemma init_app_registers_the_endpoints_witness :
  let out := init_app string sample_module sample_app sample_dicts in
  settings_in string sample_module sample_app sample_dicts
  /\ out.2 = inr tt
  /\ extensions out.1.2 !! "invenio-circulation"
     = Some InvenioCirculation_self
  /\ init_app string sample_module out.1.2 out.1.1 = out.
Proof.
  intros out.
  assert (settings_in string sample_module sample_app sample_dicts) as Hin.
  { split; intros k r H.
    - change (config sample_app)
        with (<["RECORDS_REST_ENDPOINTS" := DictRef 1]>
                ({[ "CIRCULATION_ITEM_EXISTS" :=
                      Opaque "exists_in_catalogue" ]}
                 : gmap string setting)) in H.
      apply lookup_insert_Some in H as [[_ [= <-]]|[_ H]]; [simpl; lia|].
      apply lookup_singleton_Some in H as [_ [=]].
    - repeat (apply elem_of_cons in H as [H|H];
              [simplify_eq; simpl; lia|]).
      now apply elem_of_nil in H. }
  assert (out = (out.1.1, out.1.2, inr tt)) as H
    by (apply pair_of_snd; by_running).
  split; [exact Hin|].
  destruct (init_app_registers_the_endpoints string sample_module sample_app
              sample_dicts out.1.1 out.1.2 Hin H)
    as (_ & Hext & _ & Hagain).
  split; [now rewrite H at 1|].
  split; [rewrite Hext; apply lookup_insert_eq|].
  now rewrite Hagain, <- H.
Defined.

(** The engine of the table of config.py. *)
Lemma engine_follows_the_table_witness :
  NoDup CIRCULATION_LOAN_TRANSITIONS.*1
  /\ NoDup (config_refs CIRCULATION_LOAN_TRANSITIONS)
  /\ exists h' self,
       _Circulation_init CIRCULATION_LOAN_TRANSITIONS config_heap
       = (h', inr self)
       /\ forall s, is_Some (self !! s)
                    <-> s ∈ CIRCULATION_LOAN_TRANSITIONS.*1.
Proof.
  assert (NoDup CIRCULATION_LOAN_TRANSITIONS.*1) as Hkeys
    by (apply (bool_decide_unpack _); by_running).
  assert (NoDup (config_refs CIRCULATION_LOAN_TRANSITIONS)) as Hrefs
    by (apply (bool_decide_unpack _); by_running).
  split; [exact Hkeys|]. split; [exact Hrefs|].
  assert (exists h' self,
             _Circulation_init CIRCULATION_LOAN_TRANSITIONS config_heap
             = (h', inr self)) as (h' & self & H).
  { assert (match (_Circulation_init CIRCULATION_LOAN_TRANSITIONS
                     config_heap).2 with
            | inr _ => true
            | inl _ => false
            end = true) as Hr by by_running.
    destruct (_Circulation_init CIRCULATION_LOAN_TRANSITIONS config_heap)
      as [h' [e|self]]; [discriminate|]. eauto. }
  exists h', self. split; [exact H|].
  exact (proj1 (engine_follows_the_table CIRCULATION_LOAN_TRANSITIONS
                  config_heap h' self Hkeys Hrefs H)).
Defined.

(** A start with a time zone and an end without one. *)
Lemma ensure_valid_loan_mixed_dates_witness :
  ~ (utcoffset february_first = None <-> utcoffset february_tenth_naive = None)
  /\ _ensure_valid_loan iso8601_parse iso8601_format default_config
       mixed_loan
     = (start_defaulted (VDate february_first) mixed_loan, inl TypeError).
Proof.
  assert (~ (utcoffset february_first = None
             <-> utcoffset february_tenth_naive = None)) as Hkind
    by (intros [_ H]; discriminate (H eq_refl)).
  split; [exact Hkind|].
  apply (ensure_valid_loan_mixed_dates iso8601_parse iso8601_format
           default_config mixed_loan (VDate february_first)
           (VDate february_tenth_naive) february_first february_tenth_naive);
    solve [by_running | exact Hkind].
Defined.
